(** * Nightscout dashboard: the reconciliation core of [dashboard.py]

    A shallow embedding of the record classifier ([split_events]), the time
    normaliser (the timestamp blocks of [fetch_entries], [split_events] and
    [fetch_latest_sensor_change]), the basal reconciler
    ([current_plan_basal], [build_basal_series]), the fallback bolus IOB
    ([fallback_bolus_iob], and [_fallback_bolus_iob] of [widget.py]) and the
    fallback trend arrow ([compute_arrow_from_slope]).

    Modelling conventions.
    - A Python [float] is a binary64 primitive float; NaN, infinities and
      signed zeros behave as in the source.
    - An aware [datetime] is its instant, an integer count of microseconds
      since the epoch; [astimezone] does not change the instant.  The
      difference of two instants stays inside the range of [timedelta];
      where pandas adds a duration to an instant, the platform tells
      whether it raises.
    - A decoded JSON document is a [json] value; a JSON object is a finite
      map from strings to values.
    - A Python exception is the [Raise] outcome of a [result].
    - Functions of libraries the program calls (dateutil, datetime, the
      [float] and [int] string constructors, [str], [round], the local time
      zone, float power, [numpy.polyfit], and of pandas [sort_values], the
      unit of a [DatetimeIndex] and the exceptions of [date_range] and
      [to_timedelta]) are the fields of a [Platform]. *)

From Stdlib Require Import ZArith Floats Ascii String.
From Stdlib Require Uint63.
From stdpp Require Import gmap strings list sorting pretty.

Set Warnings "-inexact-float,-register-all".

Local Open Scope Z_scope.

(** ** Exceptions *)

Inductive exn : Type :=
| AttributeError
| TypeError
| ValueError
| OverflowError
| OSError.

Inductive result (A : Type) : Type :=
| Ok (a : A)
| Raise (e : exn).

Arguments Ok {A} a.
Arguments Raise {A} e.

#[global] Instance result_ret : MRet result := fun A a => Ok a.

#[global] Instance result_bind : MBind result := fun A B k r =>
  match r with
  | Ok a => k a
  | Raise e => Raise e
  end.

(** ** Python values *)

Inductive json : Type :=
| JNull
| JBool (b : bool)
| JInt (z : Z)
| JFloat (f : float)
| JStr (s : string)
| JList (l : list json)
| JDict (d : gmap string json).

Abbreviation record := (gmap string json).

(** [t.get(k)]: [None] for a missing key. *)
Definition get (t : record) (k : string) : json := default JNull (t !! k).

(** Truth value of an object, as [if v], [not v] and [or] test it. *)
Definition truthy (v : json) : bool :=
  match v with
  | JNull => false
  | JBool b => b
  | JInt z => negb (z =? 0)
  | JFloat f => negb (PrimFloat.eqb f 0)
  | JStr s => negb (String.eqb s EmptyString)
  | JList l => match l with [] => false | _ => true end
  | JDict d => negb (bool_decide (dom d = ∅))
  end.

(** [a or b] *)
Definition py_or (a b : json) : json := if truthy a then a else b.

(** [isinstance(v, (int, float))]; [bool] is a subclass of [int]. *)
Definition is_number (v : json) : bool :=
  match v with
  | JBool _ | JInt _ | JFloat _ => true
  | _ => false
  end.

(** [v > 0] for a number [v]. *)
Definition gt0 (v : json) : bool :=
  match v with
  | JBool b => b
  | JInt z => 0 <? z
  | JFloat f => PrimFloat.ltb 0 f
  | _ => false
  end.

(** ** Floats *)

(** The float nearest to an integer: the primitive conversion on
    magnitudes of fewer than 64 bits, the rounding of the specification
    beyond. *)
Definition float_of_Z (z : Z) : float :=
  if Z.abs z <? 2 ^ 63 then
    let f := of_uint63 (Uint63.of_Z (Z.abs z)) in
    if z <? 0 then (- f)%float else f
  else SF2Prim (binary_normalize prec emax z 0 false).

(** [float(n)] for an [int]: an integer that rounds past the largest float
    raises [OverflowError]. *)
Definition float_of_int (z : Z) : result float :=
  let f := float_of_Z z in
  if PrimFloat.is_infinity f then Raise OverflowError else Ok f.

(** [int(x)] for a [float]: truncation toward zero. *)
Definition int_of_float (f : float) : result Z :=
  match Prim2SF f with
  | S754_zero _ => Ok 0
  | S754_infinity _ => Raise OverflowError
  | S754_nan => Raise ValueError
  | S754_finite s m e =>
      let mag := match e with
                 | Z.neg p => Z.shiftr (Z.pos m) (Z.pos p)
                 | _ => Z.shiftl (Z.pos m) e
                 end in
      Ok (if s then - mag else mag)
  end.

(** The least exponent of binary64, [3 - emax - prec]. *)
Definition emin64 : Z := -1074.

(** A value of sign [s] and of magnitude at least [k]: an infinity, or a
    finite value whose digits and exponent add up to [k] or more. *)
Definition signed_above (s : bool) (k : Z) (x : spec_float) : Prop :=
  x = S754_infinity s
  \/ exists m e, x = S754_finite s m e /\ k <= Z.log2 (Z.pos m) + 1 + e.

(** ** Strings *)

Definition lower_ascii (c : ascii) : ascii :=
  let n := N_of_ascii c in
  if ((65 <=? n) && (n <=? 90))%N then ascii_of_N (n + 32) else c.

(** [s.lower()], on the ASCII letters. *)
Fixpoint lower (s : string) : string :=
  match s with
  | EmptyString => EmptyString
  | String c r => String (lower_ascii c) (lower r)
  end.

(** [s.replace(",", ".")] *)
Fixpoint replace_comma (s : string) : string :=
  match s with
  | EmptyString => EmptyString
  | String c r => String (if Ascii.eqb c "," then "."%char else c) (replace_comma r)
  end.

(** [needle in hay] *)
Fixpoint contains (needle hay : string) : bool :=
  String.prefix needle hay ||
  match hay with
  | EmptyString => false
  | String _ r => contains needle r
  end.

(** The one-character strings a [str] yields when iterated. *)
Fixpoint chars (s : string) : list string :=
  match s with
  | EmptyString => []
  | String c r => String c EmptyString :: chars r
  end.

(** ** Library functions *)

(** What [isoparse] returns: the wall-clock reading in microseconds and the
    UTC offset in seconds, absent for a naive result. *)
Record datetime : Type := {
  wall : Z;
  tzoff : option Z
}.

Class Platform : Type := {
  (** [dateutil.parser.isoparse]; [None] when it raises *)
  isoparse : string -> option datetime;
  (** [datetime.fromtimestamp(x, tz=utc)], as an instant *)
  fromtimestamp : float -> result Z;
  (** [float(s)] for a [str]; [None] when it raises [ValueError] *)
  float_of_str : string -> option float;
  (** [int(s)] for a [str]; [None] when it raises [ValueError] *)
  int_of_str : string -> option Z;
  (** [str(x)] for an object that is not a [str] *)
  py_str : json -> string;
  (** offset of the local zone from UTC, in seconds, at an instant *)
  utcoffset : Z -> Z;
  (** [x ** y] on floats *)
  float_pow : float -> float -> float;
  (** [numpy.polyfit(x, y, 1)[0]]; [None] when it raises *)
  polyfit_slope : list float -> list float -> option float;
  (** the exception
      [pd.date_range(start.astimezone(), end.astimezone(), freq="1min")]
      raises, if it raises; each end is given by its instant and the UTC
      offset, in seconds, that [astimezone] gives it *)
  date_range_fault : Z -> Z -> Z -> Z -> option exn;
  (** the exception [start + pd.to_timedelta(duration, unit="m")] raises, if
      it raises; [start] is an instant, [duration] a number of minutes *)
  timedelta_fault : Z -> Z -> option exn;
  (** [index.astype(np.int64)] at one entry of a [DatetimeIndex]: the
      instant counted in the unit of the index, nanoseconds or
      microseconds with the version of pandas *)
  index_int64 : Z -> Z;
  (** [sort_values]: a frame's rows put in ascending order of a key *)
  sort_values : forall A : Type, (A -> Z) -> list A -> list A;
  (** [round(x, 1)] on a float *)
  round1 : float -> float
}.

(** A library call whose value the model computes itself and whose
    exception, if any, the platform tells. *)
Definition check (fault : option exn) : result unit :=
  match fault with
  | Some e => Raise e
  | None => Ok tt
  end.

(** ** Classified events *)

Record bolus : Type := {
  b_time : Z;
  b_units : float;
  is_smb : bool
}.

Record carb : Type := {
  c_time : Z;
  grams : float
}.

Record temp : Type := {
  t_start : Z;
  duration : Z;
  percent : float;
  absolute : float
}.

Record buckets : Type := {
  bolus_big : list bolus;
  bolus_mini : list bolus;
  carbs : list carb;
  temps : list temp
}.

Definition no_events : buckets :=
  {| bolus_big := []; bolus_mini := []; carbs := []; temps := [] |}.

Definition DOSE_KEYS : list string :=
  ["insulin"; "insulinInUnits"; "amount"; "units"; "value"]%string.

Section Core.

Context `{P : Platform}.

(** ** Conversions *)

(** [float(v)] *)
Definition py_float (v : json) : result float :=
  match v with
  | JBool b => Ok (if b then 1 else 0)%float
  | JInt z => float_of_int z
  | JFloat f => Ok f
  | JStr s => match float_of_str s with
              | Some f => Ok f
              | None => Raise ValueError
              end
  | _ => Raise TypeError
  end.

(** [int(v)] *)
Definition py_int (v : json) : result Z :=
  match v with
  | JBool b => Ok (if b then 1 else 0)
  | JInt z => Ok z
  | JFloat f => int_of_float f
  | JStr s => match int_of_str s with
              | Some z => Ok z
              | None => Raise ValueError
              end
  | _ => Raise TypeError
  end.

(** [v.lower()]: only a [str] has the method. *)
Definition lower_of (v : json) : result string :=
  match v with
  | JStr s => Ok (lower s)
  | _ => Raise AttributeError
  end.

(** [str(x)] *)
Definition str_of (x : json) : string :=
  match x with
  | JStr s => s
  | _ => py_str x
  end.

(** [[str(x).lower() for x in v]] *)
Definition tags_of (v : json) : result (list string) :=
  match v with
  | JList l => Ok (map (fun x => lower (str_of x)) l)
  | JStr s => Ok (map lower (chars s))
  | JDict d => Ok (map lower (elements (dom d)))
  | _ => Raise TypeError
  end.

(** ** Time normaliser *)

(** [ts.replace(tzinfo=utc)] when [ts.tzinfo is None], then the instant. *)
Definition anchor_utc (d : datetime) : Z :=
  match tzoff d with
  | None => wall d
  | Some off => wall d - off * 1000000
  end.

(** [try: ts = isoparse(ts_raw) except Exception: ts = None], followed by
    the UTC anchoring of a naive result.  [isoparse] raises on anything
    that is not text. *)
Definition parse_ts (ts_raw : json) : option Z :=
  match ts_raw with
  | JStr s => anchor_utc <$> isoparse s
  | _ => None
  end.

(** [fromtimestamp(ms / 1000.0, tz=utc) if isinstance(ms, (int, float))
    else None] *)
Definition of_epoch_ms (ms : json) : result (option Z) :=
  if is_number ms then
    x ← py_float ms;
    ts ← fromtimestamp (x / 1000)%float;
    Ok (Some ts)
  else Ok None.

(** The timestamp block of [split_events] and of [fallback_bolus_iob]. *)
Definition treatment_ts (t : record) : result (option Z) :=
  let ts_raw := py_or (py_or (get t "created_at") (get t "timestamp"))
                      (get t "dateString") in
  if truthy ts_raw then Ok (parse_ts ts_raw)
  else of_epoch_ms (py_or (get t "mills") (get t "date")).

(** The timestamp block of [fetch_entries]. *)
Definition entry_ts (e : record) : result (option Z) :=
  let ts_raw := py_or (get e "dateString") (get e "created_at") in
  if truthy ts_raw then Ok (parse_ts ts_raw)
  else of_epoch_ms (get e "date").

(** The timestamp block of [fetch_latest_sensor_change]: the epoch field is
    consulted whenever the text gave no instant; the enclosing
    [except Exception] turns every fault into [None]. *)
Definition sensor_change_ts (t0 : record) : option Z :=
  let ts_raw := py_or (py_or (get t0 "created_at") (get t0 "timestamp"))
                      (get t0 "dateString") in
  match (if truthy ts_raw then parse_ts ts_raw else None) with
  | Some ts => Some ts
  | None =>
      match of_epoch_ms (py_or (get t0 "mills") (get t0 "date")) with
      | Ok ts => ts
      | Raise _ => None
      end
  end.

(** ** Record classifier *)

(** The dose search shared by [split_events] and [_units]: the first key
    whose value is a number, or text that [float] accepts once its commas
    are dots, ends the search with that value. *)
Fixpoint find_units (t : record) (ks : list string) : result (option float) :=
  match ks with
  | [] => Ok None
  | k :: ks' =>
      let v := get t k in
      if is_number v then
        u ← py_float v;
        Ok (Some u)
      else
        match v with
        | JStr s =>
            match float_of_str (replace_comma s) with
            | Some u => Ok (Some u)
            | None => find_units t ks'
            end
        | _ => find_units t ks'
        end
  end.

(** [units and units > 0], for a [units] that is not [None] *)
Definition positive_dose (u : float) : bool :=
  truthy (JFloat u) && PrimFloat.ltb 0 u.

(** The [is_smb] test. *)
Definition smb_marked (et t_type : string) (tags : list string) : bool :=
  String.eqb t_type "smb" || contains "smb" t_type
  || existsb (contains "smb") tags || contains "smb" et.

(** [float(t.get(k, nan)) if t.get(k) is not None else nan] *)
Definition float_or_nan (v : json) : result float :=
  match v with
  | JNull => Ok PrimFloat.nan
  | _ => py_float v
  end.

Definition add_temp (acc : buckets) (x : temp) : buckets :=
  {| bolus_big := bolus_big acc; bolus_mini := bolus_mini acc;
     carbs := carbs acc; temps := temps acc ++ [x] |}.

Definition add_carb (acc : buckets) (x : carb) : buckets :=
  {| bolus_big := bolus_big acc; bolus_mini := bolus_mini acc;
     carbs := carbs acc ++ [x]; temps := temps acc |}.

Definition add_big (acc : buckets) (x : bolus) : buckets :=
  {| bolus_big := bolus_big acc ++ [x]; bolus_mini := bolus_mini acc;
     carbs := carbs acc; temps := temps acc |}.

Definition add_mini (acc : buckets) (x : bolus) : buckets :=
  {| bolus_big := bolus_big acc; bolus_mini := bolus_mini acc ++ [x];
     carbs := carbs acc; temps := temps acc |}.

(** The temp-basal branch of the loop body. *)
Definition temp_branch (acc : buckets) (t : record) (ts : Z) : result buckets :=
  d ← match t !! "duration" with
      | None => Ok 0
      | Some v => py_int v
      end;
  p ← float_or_nan (get t "percent");
  a ← float_or_nan (get t "absolute");
  Ok (add_temp acc {| t_start := ts; duration := d; percent := p; absolute := a |}).

(** The carbs part of the other branch. *)
Definition carbs_part (acc : buckets) (t : record) (ts : Z) : result buckets :=
  let carbs_val := py_or (get t "carbs") (get t "carb_input") in
  if is_number carbs_val && gt0 carbs_val then
    g ← py_float carbs_val;
    Ok (add_carb acc {| c_time := ts; grams := g |})
  else Ok acc.

(** The bolus part of the other branch. *)
Definition bolus_part (acc : buckets) (t : record) (ts : Z)
    (et t_type : string) (tags : list string) : result buckets :=
  units ← find_units t DOSE_KEYS;
  match units with
  | None => Ok acc
  | Some u =>
      if positive_dose u then
        if smb_marked et t_type tags
        then Ok (add_mini acc {| b_time := ts; b_units := u; is_smb := true |})
        else Ok (add_big acc {| b_time := ts; b_units := u; is_smb := false |})
      else Ok acc
  end.

(** [et], [t_type] and [tags] of the loop body. *)
Definition event_type (t : record) : result string :=
  lower_of (py_or (get t "eventType") (JStr EmptyString)).

Definition explicit_type (t : record) : result string :=
  lower_of (py_or (get t "type") (JStr EmptyString)).

Definition tag_list (t : record) : result (list string) :=
  tags_of (py_or (get t "tags") (JList [])).

(** One iteration of the loop of [split_events]. *)
Definition split_step (acc : buckets) (t : record) : result buckets :=
  et ← event_type t;
  t_type ← explicit_type t;
  tags ← tag_list t;
  ts ← treatment_ts t;
  match ts with
  | None => Ok acc
  | Some ts =>
      if String.eqb et "temp basal" then temp_branch acc t ts
      else
        acc1 ← carbs_part acc t ts;
        bolus_part acc1 t ts et t_type tags
  end.

Fixpoint split_loop (acc : buckets) (treatments : list record) : result buckets :=
  match treatments with
  | [] => Ok acc
  | t :: rest =>
      acc' ← split_step acc t;
      split_loop acc' rest
  end.

Definition split_events (treatments : list record) : result buckets :=
  split_loop no_events treatments.

(** ** Glucose entries *)

Record entry_row : Type := {
  e_time : Z;
  mgdl : float;
  direction : json
}.

(** One iteration of the loop of [fetch_entries]. *)
Definition entry_step (rows : list entry_row) (e : record)
    : result (list entry_row) :=
  let val := py_or (py_or (get e "sgv") (get e "mbg")) (get e "glucose") in
  if negb (is_number val) then Ok rows
  else
    ts ← entry_ts e;
    match ts with
    | None => Ok rows
    | Some ts =>
        m ← py_float val;
        Ok (rows ++ [{| e_time := ts; mgdl := m; direction := get e "direction" |}])
    end.

Fixpoint entry_loop (rows : list entry_row) (data : list record)
    : result (list entry_row) :=
  match data with
  | [] => Ok rows
  | e :: rest =>
      rows' ← entry_step rows e;
      entry_loop rows' rest
  end.

(** A row of the frame [fetch_entries] returns. *)
Record frame_row : Type := {
  f_time : Z;
  f_mgdl : float;
  mmol : float;
  f_direction : json
}.

Definition mgdl_to_mmol (x : float) : float := round1 (x / 18.01559).

(** The frame built from the [rows] list: empty for no rows; else the rows
    whose [mgdl] is not NaN ([dropna]; [time] is never null), sorted by
    [time], with the [mmol] column added. *)
Definition frame_of (rows : list entry_row) : list frame_row :=
  match rows with
  | [] => []
  | _ =>
      (fun r => {| f_time := e_time r; f_mgdl := mgdl r;
                   mmol := mgdl_to_mmol (mgdl r); f_direction := direction r |})
        <$> sort_values entry_row e_time
              (filter (fun r => PrimFloat.is_nan (mgdl r) = false) rows)
  end.

(** [fetch_entries], from the decoded response to the frame. *)
Definition fetch_entries (data : list record) : result (list frame_row) :=
  rows ← entry_loop [] data;
  Ok (frame_of rows).

(** ** Basal reconciler *)

(** Seconds since local midnight,
    [local.hour * 3600 + local.minute * 60 + local.second]. *)
Definition time_of_day (t : Z) : Z :=
  (t `div` 1000000 + utcoffset t) `mod` 86400.

(** [sorted(plan)] *)
Definition sorted_keys (plan : gmap Z float) : list Z :=
  merge_sort Z.le (elements (dom plan)).

(** The [for k in keys] loop of [current_plan_basal], with its [break]. *)
Fixpoint scan_plan (plan : gmap Z float) (secs : Z) (keys : list Z)
    (current : option float) : option float :=
  match keys with
  | [] => current
  | k :: rest =>
      if bool_decide (k ≤ secs) then scan_plan plan secs rest (plan !! k)
      else current
  end.

Definition current_plan_basal (plan : gmap Z float) (t : Z) : option float :=
  if bool_decide (dom plan = ∅) then None
  else
    let secs := time_of_day t in
    let keys := sorted_keys plan in
    match scan_plan plan secs keys None with
    | Some current => Some current
    | None => plan !! List.last keys 0
    end.

Definition MINUTE : Z := 60000000.

(** The index [pd.date_range(start, end, freq="1min")] returns, when it
    returns. *)
Definition date_range (start end_ : Z) : list Z :=
  (fun k => start + k * MINUTE) <$> seqZ 0 ((end_ - start) `div` MINUTE + 1).

(** A row of the frame before [is_temp] is added. *)
Record rate_row : Type := {
  r_time : Z;
  r_plan : float;
  r_actual : float
}.

(** [current_plan_basal(plan, t) or 0.0] *)
Definition plan_at (plan : gmap Z float) (t : Z) : float :=
  match current_plan_basal plan t with
  | Some r => if truthy (JFloat r) then r else 0%float
  | None => 0%float
  end.

(** [(df.index >= start_local) & (df.index < end_local)] at one row *)
Definition in_window (tp : temp) (t : Z) : bool :=
  bool_decide (t_start tp ≤ t) && bool_decide (t < t_start tp + duration tp * MINUTE).

Definition set_actual (tp : temp) (v : rate_row -> float) (r : rate_row) : rate_row :=
  if in_window tp (r_time r)
  then {| r_time := r_time r; r_plan := r_plan r; r_actual := v r |}
  else r.

(** The body of the [for temp in temps] loop from [mask] on. *)
Definition apply_temp (rows : list rate_row) (tp : temp) : list rate_row :=
  if existsb (fun r => in_window tp (r_time r)) rows then
    if negb (PrimFloat.is_nan (absolute tp)) then
      set_actual tp (fun _ => absolute tp) <$> rows
    else if negb (PrimFloat.is_nan (percent tp)) then
      set_actual tp (fun r => r_plan r * (percent tp / 100))%float <$> rows
    else rows
  else rows.

Record basal_row : Type := {
  time : Z;
  plan_u_per_h : float;
  actual_u_per_h : float;
  is_temp : bool
}.

(** [(df["actual_u_per_h"] != df["plan_u_per_h"]).astype(int)] at one row *)
Definition flag_row (r : rate_row) : basal_row :=
  {| time := r_time r; plan_u_per_h := r_plan r; actual_u_per_h := r_actual r;
     is_temp := negb (PrimFloat.eqb (r_actual r) (r_plan r)) |}.

Definition plan_rows (plan : gmap Z float) (start end_ : Z) : list rate_row :=
  (fun t => {| r_time := t; r_plan := plan_at plan t; r_actual := plan_at plan t |})
    <$> date_range start end_.

(** The body of the [for temp in temps] loop: [end_local] is computed
    first, and may raise. *)
Definition temp_step (rows : list rate_row) (tp : temp) : result (list rate_row) :=
  _ ← check (timedelta_fault (t_start tp) (duration tp));
  Ok (apply_temp rows tp).

Fixpoint temps_loop (rows : list rate_row) (temps : list temp)
    : result (list rate_row) :=
  match temps with
  | [] => Ok rows
  | tp :: rest =>
      rows' ← temp_step rows tp;
      temps_loop rows' rest
  end.

(** [build_basal_series]; the grid runs from [start.astimezone()] to
    [end.astimezone()], each carrying the offset of the local zone at its
    instant. *)
Definition build_basal_series (plan : gmap Z float) (temps : list temp)
    (start end_ : Z) : result (list basal_row) :=
  _ ← check (date_range_fault start (utcoffset start) end_ (utcoffset end_));
  (rows ← temps_loop (plan_rows plan start end_) temps;
   Ok (flag_row <$> rows) : result (list basal_row)).

(** The mask of the renderers,
    [np.abs(actual_vals - plan_vals) > 1e-6], at one row. *)
Definition diff_mask (r : basal_row) : bool :=
  PrimFloat.ltb 1e-6 (PrimFloat.abs (actual_u_per_h r - plan_u_per_h r)).

(** ** Fallback bolus IOB *)

Definition DIA_MINUTES : float := 300.
Definition T_HALF : float := 60.

(** The second loop of [_units], over [t["bolus"]]. *)
Fixpoint find_sub_units (b : record) (ks : list string) : result (option float) :=
  match ks with
  | [] => Ok None
  | k :: ks' =>
      let v := get b k in
      if is_number v then
        u ← py_float v;
        Ok (Some u)
      else find_sub_units b ks'
  end.

(** [_units] *)
Definition units_of (t : record) : result (option float) :=
  u ← find_units t DOSE_KEYS;
  match u with
  | Some u => Ok (Some u)
  | None =>
      match get t "bolus" with
      | JDict b => find_sub_units b ["normal"; "extended"; "immediate"]%string
      | _ => Ok None
      end
  end.

(** [td.total_seconds()] of a span of microseconds: the quotient of the
    span by 10^6, which float division gives correctly rounded for every
    span below 2^53 microseconds (285 years). *)
Definition total_seconds (us : Z) : float :=
  (float_of_Z us / 1000000)%float.

(** [age_min = (NOW - ts).total_seconds() / 60.0] *)
Definition age_minutes (now ts : Z) : float :=
  (total_seconds (now - ts) / 60)%float.

(** The part of the loop body after the guard on [u]. *)
Definition iob_add (now : Z) (total u : float) (t : record) : result float :=
  ts ← treatment_ts t;
  match ts with
  | None => Ok total
  | Some ts =>
      let age_min := age_minutes now ts in
      if PrimFloat.leb 0 age_min && PrimFloat.leb age_min DIA_MINUTES then
        let rem := float_pow 0.5 (age_min / T_HALF) in
        Ok (total + u * rem)%float
      else Ok total
  end.

(** One iteration of the loop of [fallback_bolus_iob] ([dashboard.py]):
    [if u is None or u <= 0: continue]. *)
Definition iob_step (now : Z) (total : float) (t : record) : result float :=
  u ← units_of t;
  match u with
  | None => Ok total
  | Some u => if PrimFloat.leb u 0 then Ok total else iob_add now total u t
  end.

(** One iteration of the loop of [_fallback_bolus_iob] ([widget.py]):
    [if not u or u <= 0: continue]. *)
Definition widget_iob_step (now : Z) (total : float) (t : record) : result float :=
  u ← units_of t;
  match u with
  | None => Ok total
  | Some u =>
      if negb (truthy (JFloat u)) || PrimFloat.leb u 0 then Ok total
      else iob_add now total u t
  end.

Fixpoint iob_loop (step : float -> record -> result float) (total : float)
    (treatments : list record) : result float :=
  match treatments with
  | [] => Ok total
  | t :: rest =>
      total' ← step total t;
      iob_loop step total' rest
  end.

(** [fallback_bolus_iob] of [dashboard.py].  Ages are measured from the
    module constant [NOW], which is bound once, when the module is imported:
    [now] is that instant at every call, and the clock is not read. *)
Definition fallback_bolus_iob (now : Z) (treatments : list record) : result float :=
  iob_loop (iob_step now) 0%float treatments.

(** [_fallback_bolus_iob] of [widget.py].  Ages are measured from
    [now_utc], which is read from the clock in each call: [now] is the
    instant of the call. *)
Definition _fallback_bolus_iob (now : Z) (treatments : list record) : result float :=
  iob_loop (widget_iob_step now) 0%float treatments.

(** ** Fallback trend arrow *)

(** The threshold chain on [slope_15min]. *)
Definition arrow_of_slope (slope_15min : float) : option string :=
  if PrimFloat.leb 0.5 slope_15min then Some "↑"%string
  else if PrimFloat.leb 0.2 slope_15min && PrimFloat.ltb slope_15min 0.5 then Some "↗"%string
  else if PrimFloat.ltb (-0.2) slope_15min && PrimFloat.ltb slope_15min 0.2 then Some "→"%string
  else if PrimFloat.ltb (-0.5) slope_15min && PrimFloat.leb slope_15min (-0.2) then Some "↘"%string
  else if PrimFloat.leb slope_15min (-0.5) then Some "↓"%string
  else None.

(** [entries.tail(n)] *)
Definition tail {A} (n : nat) (l : list A) : list A := drop (length l - n) l.

(** The rows the fit runs on: those of the last 15 minutes, or the last
    five rows when fewer than two are that recent. *)
Definition fit_rows (entries : list (Z * float)) : list (Z * float) :=
  let end_ := (List.last entries (0, 0%float)).1 in
  let start := end_ - 15 * MINUTE in
  let df := filter (fun e => start ≤ e.1) entries in
  if bool_decide (length df < 2)%nat then tail 5 entries else df.

(** [df.index.astype(np.int64) / 1e9] at one row *)
Definition seconds_of (t : Z) : float := (float_of_Z (index_int64 t) / 1e9)%float.

(** [entries] is the frame as (index, mmol) rows. *)
Definition compute_arrow_from_slope (entries : list (Z * float)) : option string :=
  if bool_decide (length entries < 3)%nat then None
  else
    let df := fit_rows entries in
    let x := seconds_of <$> df.*1 in
    let y := df.*2 in
    match x with
    | [] | [_] => None
    | x0 :: _ =>
        match polyfit_slope ((fun xi => xi - x0)%float <$> x) y with
        | None => None
        | Some slope_per_s => arrow_of_slope (slope_per_s * 900)%float
        end
    end.

(** ** Reference definitions

    Declarative counterparts of the loops above, which the theorems compare
    the code with. *)

(** What one key of the dose search holds: a number, text that [float]
    accepts once its commas are dots, or nothing usable. *)
Definition dose_at (t : record) (k : string) : option (result float) :=
  let v := get t k in
  if is_number v then Some (py_float v)
  else
    match v with
    | JStr s => Ok <$> float_of_str (replace_comma s)
    | _ => None
    end.

(** The dose of the first key, in priority order, that holds one. *)
Definition first_dose (t : record) : option (result float) :=
  head (omap (dose_at t) DOSE_KEYS).

(** The bolus event of a dose. *)
Definition emit_bolus (acc : buckets) (ts : Z) (u : float) (smb : bool) : buckets :=
  if smb then add_mini acc {| b_time := ts; b_units := u; is_smb := true |}
  else add_big acc {| b_time := ts; b_units := u; is_smb := false |}.

(** Some field among event type, explicit type and tags contains "smb". *)
Definition mentions_smb (et t_type : string) (tags : list string) : bool :=
  contains "smb" et || contains "smb" t_type || existsb (contains "smb") tags.




(** The rate one overlay leaves at a minute: its absolute rate when that
    is not NaN, else the planned rate scaled by its percent when that is not
    NaN, else the rate it found; a minute outside its window keeps the rate
    it had. *)
Definition overlay_rate (plan_rate : float) (t : Z) (actual : float)
    (tp : temp) : float :=
  if in_window tp t then
    if negb (PrimFloat.is_nan (absolute tp)) then absolute tp
    else if negb (PrimFloat.is_nan (percent tp)) then
      (plan_rate * (percent tp / 100))%float
    else actual
  else actual.

(** The overlays folded over the planned rate, in list order. *)
Definition actual_at (plan_rate : float) (t : Z) (temps : list temp) : float :=
  foldl (overlay_rate plan_rate t) plan_rate temps.

(** The row of the series at a minute. *)
Definition row_at (plan : gmap Z float) (temps : list temp) (t : Z) : basal_row :=
  let p := plan_at plan t in
  let a := actual_at p t temps in
  {| time := t; plan_u_per_h := p; actual_u_per_h := a;
     is_temp := negb (PrimFloat.eqb a p) |}.

(** The overlay step with every covering overlay writing, its percent being
    used whenever its absolute rate is NaN. *)
Definition overlay_rate_always (plan_rate : float) (t : Z) (actual : float)
    (tp : temp) : float :=
  if in_window tp t then
    if negb (PrimFloat.is_nan (absolute tp)) then absolute tp
    else (plan_rate * (percent tp / 100))%float
  else actual.

End Core.

(** ** A host to run the model on

    A UTC host whose library functions are defined on the inputs the
    examples below use: timestamps of the form [YYYY-MM-DDTHH:MM:SS] with an
    optional [Z], decimal numerals without exponent, exact powers for
    integral exponents, frames of this and the neighbouring centuries with
    an index in microseconds, and the least-squares slope by its closed
    formula, which numpy's solver matches up to the last digits and which is
    evaluated only far from the thresholds.  Every general theorem holds for
    all platforms; this one only evaluates concrete records. *)

Module Host.

Definition digit (c : ascii) : option Z :=
  let n := N_of_ascii c in
  if ((48 <=? n) && (n <=? 57))%N then Some (Z.of_N n - 48) else None.

Fixpoint digits (s : string) (acc : Z) : option Z :=
  match s with
  | EmptyString => Some acc
  | String c r =>
      match digit c with
      | Some d => digits r (acc * 10 + d)
      | None => None
      end
  end.

Definition numeral (s : string) : option Z :=
  match s with
  | EmptyString => None
  | _ => digits s 0
  end.

Definition signed (s : string) : bool * string :=
  match s with
  | String "-" r => (true, r)
  | String "+" r => (false, r)
  | _ => (false, s)
  end.

Definition int_of_str (s : string) : option Z :=
  let '(neg, r) := signed s in
  (fun n => if neg then - n else n) <$> numeral r.

Fixpoint split_dot (s : string) : string * option string :=
  match s with
  | EmptyString => (EmptyString, None)
  | String "." r => (EmptyString, Some r)
  | String c r => let '(a, b) := split_dot r in (String c a, b)
  end.

Definition float_of_str (s : string) : option float :=
  let '(neg, r) := signed s in
  let '(ip, fp) := split_dot r in
  let fp := default EmptyString fp in
  if bool_decide (15 < String.length ip + String.length fp)%nat then None
  else
    match numeral (ip ++ fp)%string with
    | None => None
    | Some n =>
        let v := (float_of_Z n / float_of_Z (10 ^ Z.of_nat (String.length fp)))%float in
        Some (if neg then (- v)%float else v)
    end.

Definition days_from_civil (y m d : Z) : Z :=
  let y' := if bool_decide (m ≤ 2) then y - 1 else y in
  let era := y' `div` 400 in
  let yoe := y' - era * 400 in
  let mp := if bool_decide (2 < m) then m - 3 else m + 9 in
  let doy := (153 * mp + 2) `div` 5 + d - 1 in
  let doe := yoe * 365 + yoe `div` 4 - yoe `div` 100 + doy in
  era * 146097 + doe - 719468.

Definition field (s : string) (pos len : nat) : option Z :=
  numeral (String.substring pos len s).

Definition leap_year (y : Z) : bool :=
  bool_decide (y `mod` 4 = 0)
  && (negb (bool_decide (y `mod` 100 = 0)) || bool_decide (y `mod` 400 = 0)).

Definition days_in_month (y m : Z) : Z :=
  if bool_decide (m = 2) then (if leap_year y then 29 else 28)
  else if bool_decide (m ∈ [4; 6; 9; 11]) then 30
  else 31.

(** [isoparse] on [YYYY-MM-DDTHH:MM:SS], with or without a final [Z]: the
    day must exist in its month, and the hour 24 is read only as 24:00:00,
    the midnight that ends the day. *)
Definition isoparse (s : string) : option datetime :=
  let n := String.length s in
  let zone :=
    if bool_decide (n = 19%nat) then Some None
    else if bool_decide (n = 20%nat) && String.eqb (String.substring 19 1 s) "Z"
         then Some (Some 0)
         else None in
  let seps := String.eqb (String.substring 4 1 s) "-"
              && String.eqb (String.substring 7 1 s) "-"
              && String.eqb (String.substring 10 1 s) "T"
              && String.eqb (String.substring 13 1 s) ":"
              && String.eqb (String.substring 16 1 s) ":" in
  match zone, field s 0 4, field s 5 2, field s 8 2,
        field s 11 2, field s 14 2, field s 17 2 with
  | Some tz, Some y, Some mo, Some d, Some h, Some mi, Some sec =>
      let secs := days_from_civil y mo d * 86400 + h * 3600 + mi * 60 + sec in
      if seps && bool_decide (1 ≤ y) && bool_decide (1 ≤ mo ≤ 12)
         && bool_decide (1 ≤ d ≤ days_in_month y mo)
         && (bool_decide (h < 24) || bool_decide (h = 24 /\ mi = 0 /\ sec = 0))
         && bool_decide (mi < 60) && bool_decide (sec < 60)
         && bool_decide (secs < days_from_civil 10000 1 1 * 86400)
      then Some {| wall := secs * 1000000; tzoff := tz |}
      else None
  | _, _, _, _, _, _, _ => None
  end.

(** Nearest integer to [num / den], ties to even, for [0 < den]. *)
Definition round_half_even (num den : Z) : Z :=
  let q := num `div` den in
  let r := num `mod` den in
  if bool_decide (den < 2 * r) then q + 1
  else if bool_decide (2 * r = den) && Z.odd q then q + 1
  else q.

(** The instant, in microseconds, of a timestamp in seconds, as CPython on
    a 64-bit glibc host settles it: [OverflowError] beyond [time_t],
    [OSError] where [gmtime] cannot hold the year in an [int], [ValueError]
    for a year outside 1..9999. *)
Definition fromtimestamp (x : float) : result Z :=
  match Prim2SF x with
  | S754_nan => Raise ValueError
  | S754_infinity _ => Raise OverflowError
  | S754_zero _ => Ok 0
  | S754_finite s m e =>
      let mag := match e with
                 | Z.neg p => round_half_even (Z.pos m * 1000000) (2 ^ Z.pos p)
                 | _ => Z.pos m * 2 ^ e * 1000000
                 end in
      let us := if s then - mag else mag in
      let secs := us `div` 1000000 in
      if negb (bool_decide (- 2 ^ 63 ≤ secs < 2 ^ 63)) then Raise OverflowError
      else if negb (bool_decide (days_from_civil (-2147481748) 1 1 * 86400 ≤ secs
                                 < days_from_civil 2147485548 1 1 * 86400))
           then Raise OSError
      else if bool_decide (-62135596800000000 ≤ us < 253402300800000000)
           then Ok us else Raise ValueError
  end.

Definition py_str (x : json) : string :=
  match x with
  | JNull => "None"
  | JBool true => "True"
  | JBool false => "False"
  | JInt z => pretty z
  | _ => EmptyString
  end.

Fixpoint pow_nat (x : float) (n : nat) : float :=
  match n with
  | O => 1%float
  | S n' => (x * pow_nat x n')%float
  end.

Definition float_pow (x y : float) : float :=
  match int_of_float y with
  | Ok n =>
      if PrimFloat.eqb (float_of_Z n) y && bool_decide (0 ≤ n)
      then pow_nat x (Z.to_nat n) else PrimFloat.nan
  | Raise _ => PrimFloat.nan
  end.

Definition fsum (l : list float) : float := foldl PrimFloat.add 0%float l.

Definition polyfit_slope (x y : list float) : option float :=
  if bool_decide (length x = length y) && bool_decide (2 ≤ length x)%nat then
    let n := float_of_Z (Z.of_nat (length x)) in
    let mx := (fsum x / n)%float in
    let my := (fsum y / n)%float in
    let sxy := fsum (zip_with (fun a b => (a - mx) * (b - my))%float x y) in
    let sxx := fsum ((fun a => (a - mx) * (a - mx))%float <$> x) in
    Some (sxy / sxx)%float
  else None.

(** The instants from 1678 to 2261, which a timestamp holds in nanoseconds
    as in microseconds. *)
Definition in_frame_years (t : Z) : bool :=
  bool_decide (days_from_civil 1678 1 1 * 86400000000 ≤ t
               < days_from_civil 2262 1 1 * 86400000000).

(** [pd.date_range] refuses ends that carry different UTC offsets.  Ends
    outside the years of [in_frame_years] are marked as a fault, without
    following pandas to its own bounds. *)
Definition date_range_fault (start off_start end_ off_end : Z) : option exn :=
  if negb (bool_decide (off_start = off_end)) then Some TypeError
  else if in_frame_years start && in_frame_years end_ then None
  else Some OverflowError.

(** No fault for a duration of at most 10^7 minutes that leaves the window
    within the years of [in_frame_years]; anything else is marked as a
    fault, without following pandas to its own bounds. *)
Definition timedelta_fault (start duration : Z) : option exn :=
  if bool_decide (-10000000 ≤ duration ≤ 10000000)
     && in_frame_years start && in_frame_years (start + duration * 60000000)
  then None else Some OverflowError.

(** An index in microseconds, as pandas 3 builds it from [datetime]
    objects. *)
Definition index_int64 (t : Z) : Z := t.

Fixpoint insert_by {A} (key : A -> Z) (x : A) (l : list A) : list A :=
  match l with
  | [] => [x]
  | y :: rest => if key x <=? key y then x :: y :: rest else y :: insert_by key x rest
  end.

(** A sort in which rows of equal key keep their order, which pandas does
    not promise. *)
Definition sort_values (A : Type) (key : A -> Z) (l : list A) : list A :=
  foldr (insert_by key) [] l.

(** [round(x, 1)]: the float nearest to the decimal with one digit after
    the point that is nearest to [x], ties to the even digit. *)
Definition round1 (x : float) : float :=
  match Prim2SF x with
  | S754_finite s m (Z.neg p) =>
      match round_half_even (Z.pos m * 10) (2 ^ Z.pos p) with
      | Z.pos n =>
          SF2Prim (SFdiv prec emax (S754_finite s n 0) (S754_finite false 10 0))
      | _ => if s then (-0)%float else 0%float
      end
  | _ => x
  end.

End Host.

Definition utc_host : Platform := {|
  isoparse := Host.isoparse;
  fromtimestamp := Host.fromtimestamp;
  float_of_str := Host.float_of_str;
  int_of_str := Host.int_of_str;
  py_str := Host.py_str;
  utcoffset := fun _ => 0;
  float_pow := Host.float_pow;
  polyfit_slope := Host.polyfit_slope;
  date_range_fault := Host.date_range_fault;
  timedelta_fault := Host.timedelta_fault;
  index_int64 := Host.index_int64;
  sort_values := Host.sort_values;
  round1 := Host.round1
|}.

(** ** Example records *)

(** The instant of [mills = 1700000000000], 2023-11-14T22:13:20Z. *)
Definition T0 : Z := 1700000000000000.

Definition meal : record :=
  list_to_map [("mills", JInt 1700000000000); ("carbs", JInt 20);
               ("insulin", JFloat 1.5)]%string.

Definition smb_dose : record :=
  list_to_map [("created_at", JStr "2023-11-14T22:13:20Z");
               ("eventType", JStr "SMB"); ("insulin", JFloat 0.3)]%string.



Definition temp_with_meal : record :=
  list_to_map [("mills", JInt 1700000000000); ("eventType", JStr "Temp Basal");
               ("duration", JInt 30); ("percent", JInt 50);
               ("carbs", JInt 20); ("insulin", JFloat 1.5)]%string.

Definition bad_text_entry : record :=
  list_to_map [("sgv", JInt 100); ("dateString", JStr "garbage");
               ("date", JInt 1700000000000)]%string.

Definition bad_text_treatment : record :=
  list_to_map [("created_at", JStr "garbage"); ("mills", JInt 1700000000000);
               ("insulin", JFloat 1.5)]%string.

Definition huge_epoch_entry : record :=
  list_to_map [("sgv", JInt 100); ("date", JFloat 1e30)]%string.

(** A profile of one segment of 1.0 U/h, and one of two segments. *)
Definition flat_plan : gmap Z float := {[ 0 := 1%float ]}.

Definition day_night_plan : gmap Z float :=
  <[ 21600 := 1%float ]> {[ 0 := 0.8%float ]}.

(** TempBasal(absolute = 0.2, start = T0, duration = 30). *)
Definition low_temp : temp :=
  {| t_start := T0; duration := 30; percent := PrimFloat.nan; absolute := 0.2 |}.

(** A temp basal with neither rate, as [split_events] builds it from a
    record without [percent] and [absolute]. *)
Definition bare_temp : temp :=
  {| t_start := T0; duration := 30; percent := PrimFloat.nan;
     absolute := PrimFloat.nan |}.

(** A temp basal half a millionth of a unit above the plan. *)
Definition near_plan_temp : temp :=
  {| t_start := T0; duration := 30; percent := PrimFloat.nan;
     absolute := 1.0000005 |}.

(** One unit of insulin given at [T0]. *)
Definition one_unit : record :=
  list_to_map [("mills", JInt 1700000000000); ("insulin", JFloat 1)]%string.



(** One unit given an hour after [T0]. *)
Definition later_unit : record :=
  list_to_map [("mills", JInt 1700003600000); ("insulin", JFloat 1)]%string.

(** Three readings over 15 minutes, from 5.0 to 5.1 mmol/L. *)
Definition gentle_rise : list (Z * float) :=
  [(T0, 5%float); (T0 + 450000000, 5.05%float); (T0 + 15 * MINUTE, 5.1%float)].

(** Three readings over 15 minutes, from 5.0 to 5.5 mmol/L on a line. *)
Definition rising_readings : list (Z * float) :=
  [(T0, 5%float); (T0 + 450000000, 5.25%float); (T0 + 15 * MINUTE, 5.5%float)].

(** * The HTTP helpers of [net.py]

    The pure part of the request set-up: base URL, authentication headers
    and query parameters, and the search for the [.env] file.  The
    environment is a [config]; the session, its retries and the transfer
    itself are not modelled. *)

Module Net.

(** [BASE], [TOKEN] and [SECRET_SHA1], each [None] when unset. *)
Record config : Type := {
  BASE : option string;
  TOKEN : option string;
  SECRET_SHA1 : option string
}.

(** Truth value of an [Optional[str]]. *)
Definition given (o : option string) : bool :=
  match o with
  | Some s => negb (String.eqb s EmptyString)
  | None => false
  end.

(** [s.rstrip("/")] *)
Fixpoint rstrip_slash (s : string) : string :=
  match s with
  | EmptyString => EmptyString
  | String c r =>
      match rstrip_slash r with
      | EmptyString => if Ascii.eqb c "/" then EmptyString else String c EmptyString
      | r' => String c r'
      end
  end.

Definition normalize_base (url : option string) : option string :=
  if given url then rstrip_slash <$> url else None.

(** [_ensure_base]; [None] stands for its [RuntimeError]. *)
Definition _ensure_base (cfg : config) : option string :=
  let base := normalize_base (BASE cfg) in
  if given base then base else None.

Definition headers (cfg : config) : gmap string string :=
  let h : gmap string string := ∅ in
  let h := if negb (given (TOKEN cfg)) && given (SECRET_SHA1 cfg)
           then <[ "api-secret"%string := default EmptyString (SECRET_SHA1 cfg) ]> h
           else h in
  <[ "Accept"%string := "application/json"%string ]> h.

(** [d.setdefault(k, v)] *)
Definition setdefault (k : string) (v : json) (d : gmap string json)
    : gmap string json :=
  match d !! k with
  | Some _ => d
  | None => <[ k := v ]> d
  end.

(** The [merged_params] of [get_json]; [params] is [None] when the caller
    passes none. *)
Definition merged_params (cfg : config) (params : option (gmap string json))
    : gmap string json :=
  let merged := default ∅ params in
  if given (TOKEN cfg) then
    let token := JStr (default EmptyString (TOKEN cfg)) in
    setdefault "access_token" token (setdefault "token" token merged)
  else if given (SECRET_SHA1 cfg) then
    setdefault "secret" (JStr (default EmptyString (SECRET_SHA1 cfg))) merged
  else merged.

(** The loop of [_env_candidates] that drops empty and repeated entries. *)
Fixpoint dedupe (cand : list string) (seen : gset string) (out : list string)
    : list string :=
  match cand with
  | [] => out
  | p :: rest =>
      if negb (String.eqb p EmptyString) && bool_decide (p ∉ seen)
      then dedupe rest ({[ p ]} ∪ seen) (out ++ [p])
      else dedupe rest seen out
  end.

(** [_env_candidates], from the directories the three probes returned. *)
Definition _env_candidates (cand : list string) : list string :=
  dedupe cand ∅ [].

(** The [for] loop of [_resolve_env_path]. *)
Fixpoint first_existing (join : string -> string -> string)
    (exists_ : string -> bool) (prefer_existing : bool) (bases : list string)
    : option string :=
  match bases with
  | [] => None
  | base :: rest =>
      let env_path := join base ".env"%string in
      if prefer_existing && exists_ env_path then Some env_path
      else first_existing join exists_ prefer_existing rest
  end.

(** [_resolve_env_path], with [os.path.join] and [os.path.exists] as
    [join] and [exists_]; [None] stands for the [IndexError] of
    [_env_candidates()[0]]. *)
Definition _resolve_env_path (join : string -> string -> string)
    (exists_ : string -> bool) (cand : list string) (prefer_existing : bool)
    : option string :=
  match first_existing join exists_ prefer_existing (_env_candidates cand) with
  | Some env_path => Some env_path
  | None =>
      match _env_candidates cand with
      | base :: _ => Some (join base ".env"%string)
      | [] => None
      end
  end.

(** A run of [n] slashes. *)
Fixpoint slashes (n : nat) : string :=
  match n with
  | O => EmptyString
  | S n' => String "/" (slashes n')
  end.

End Net.

(** * Direction text, device status and profile

    The readers of [dashboard.py] that stand between the decoded responses
    and the header line of the chart. *)

(** The [mapping] literal of [direction_arrow_from_text]. *)
Definition mapping : gmap string string :=
  list_to_map
    [("flat", "→"); ("fortyfiveup", "↗"); ("fortyfivedown", "↘");
     ("singleup", "↑"); ("singledown", "↓"); ("doubleup", "↑↑");
     ("doubledown", "↓↓"); ("none", EmptyString)]%string.

(** The dict literal of [direction_arrow] ([widget.py]). *)
Definition widget_mapping : gmap string string :=
  list_to_map
    [("flat", "→"); ("fortyfiveup", "↗"); ("fortyfivedown", "↘");
     ("singleup", "↑"); ("singledown", "↓"); ("doubleup", "↑↑");
     ("doubledown", "↓↓"); ("none", EmptyString)]%string.

(** [l[i]] for an [int] index; [None] stands for [IndexError]. *)
Definition py_index {A} (l : list A) (i : Z) : option A :=
  if 0 <=? i then l !! Z.to_nat i
  else if - Z.of_nat (length l) <=? i then l !! Z.to_nat (Z.of_nat (length l) + i)
  else None.

(** [x[key]] on decoded JSON; [None] stands for the [KeyError],
    [IndexError] or [TypeError] it raises. *)
Definition getitem (x key : json) : option json :=
  match x, key with
  | JDict d, JStr k => d !! k
  | JList l, JInt i => py_index l i
  | JList l, JBool b => py_index l (if b then 1 else 0)
  | JStr s, JInt i => JStr <$> py_index (chars s) i
  | JStr s, JBool b => JStr <$> py_index (chars s) (if b then 1 else 0)
  | _, _ => None
  end.

(** A result with its exception forgotten. *)
Definition ok {A} (r : result A) : option A :=
  match r with
  | Ok a => Some a
  | Raise _ => None
  end.

(** JSON as [json.loads] builds it, the members of an object in document
    order: what [dict.items()] iterates over. *)
Inductive ojson : Type :=
| ONull
| OBool (b : bool)
| OInt (z : Z)
| OFloat (f : float)
| OStr (s : string)
| OList (l : list ojson)
| ODict (d : list (string * ojson)).

Section Status.

Context `{P : Platform}.

(** ** Trend arrow of the header *)

Definition direction_arrow_from_text (dir_text : json) : option string :=
  if negb (truthy dir_text) then None
  else mapping !! lower (str_of dir_text).

(** [direction_arrow] ([widget.py]) *)
Definition direction_arrow (dir_text : json) : result string :=
  d ← lower_of (py_or dir_text (JStr EmptyString));
  Ok (default EmptyString (widget_mapping !! d)).

(** [current_direction] in [render_once]; [last_dir] is the last cell of
    the [direction] column that is not null, [None] when the frame is empty
    or has no such cell. *)
Definition current_direction (last_dir : json) (entries : list (Z * float))
    : option string :=
  match direction_arrow_from_text last_dir with
  | Some arrow => Some arrow
  | None => compute_arrow_from_slope entries
  end.

(** ** Latest device status *)

(** The sort key [_ts]. *)
Definition _ts (x : record) : result Z :=
  let ts_raw := py_or (py_or (get x "created_at") (get x "dateString"))
                      (get x "timestamp") in
  match (if truthy ts_raw then parse_ts ts_raw else None) with
  | Some d => Ok d
  | None =>
      d ← of_epoch_ms (py_or (get x "mills") (get x "date"));
      Ok (default 0 d)
  end.

(** The keys [sorted] computes before it compares any. *)
Fixpoint keyed (items : list record) : result (list (Z * record)) :=
  match items with
  | [] => Ok []
  | x :: rest =>
      k ← _ts x;
      ks ← keyed rest;
      Ok ((k, x) :: ks)
  end.

(** [sorted(..., reverse=True)] is stable: of two items with equal keys the
    one that came first stays first. *)
Fixpoint insert_desc (x : Z * record) (l : list (Z * record))
    : list (Z * record) :=
  match l with
  | [] => [x]
  | y :: rest => if y.1 <=? x.1 then x :: y :: rest else y :: insert_desc x rest
  end.

Definition sorted_desc (l : list (Z * record)) : list (Z * record) :=
  foldr insert_desc [] l.

Definition latest_devicestatus (items : list record) : result (option record) :=
  match items with
  | [] => Ok None
  | _ =>
      ks ← keyed items;
      Ok (snd <$> head (sorted_desc ks))
  end.

(** ** Metrics of the device status *)




(** ** Sensor age *)

(** [isinstance(v, str)] followed by [float(v.replace(',', '.'))], the
    text kept when [float] refuses it. *)
Definition coerce (v : ojson) : ojson :=
  match v with
  | OStr s => match float_of_str (replace_comma s) with
              | Some f => OFloat f
              | None => v
              end
  | _ => v
  end.

(** [int(v)] under [isinstance(v, (int, float))]; [None] when [v] is no
    number. *)
Definition int_of_number (v : ojson) : option (result Z) :=
  match v with
  | OBool b => Some (Ok (if b then 1 else 0))
  | OInt z => Some (Ok z)
  | OFloat f => Some (int_of_float f)
  | _ => None
  end.

Definition age_key (k : string) : bool :=
  bool_decide (lower k ∈ ["sage"; "sensorage"]%string).

(** [_extract_ages] with [sensor_age_min] passed along; [levels] is the
    number of levels left, 7 at the root ([depth > 6] returns). *)
Fixpoint _extract_ages (levels : nat) (obj : ojson) (sensor_age_min : option Z)
    : result (option Z) :=
  match levels with
  | O => Ok sensor_age_min
  | S below =>
      match obj with
      | ODict d =>
          foldl (fun acc kv =>
                   found ← acc;
                   let v := coerce kv.2 in
                   found ← match found, int_of_number v with
                           | None, Some age =>
                               if age_key kv.1 then a ← age; Ok (Some a) else Ok found
                           | _, _ => Ok found
                           end;
                   match v with
                   | ODict _ | OList _ => _extract_ages below v found
                   | _ => Ok found
                   end)
                (Ok sensor_age_min) d
      | OList l =>
          foldl (fun acc v => found ← acc; _extract_ages below v found)
                (Ok sensor_age_min) l
      | _ => Ok sensor_age_min
      end
  end.

(** [sensor_age_min] after the [try] around [_extract_ages(latest)]: the
    only statement that raises, [int(v)], runs while the variable is still
    [None]. *)
Definition sensor_age_of (latest : ojson) : option Z :=
  match _extract_ages 7 latest None with
  | Ok found => found
  | Raise _ => None
  end.

(** The matching members in the order the search meets them, each with
    what [int] makes of it. *)
Fixpoint age_candidates (levels : nat) (obj : ojson) : list (result Z) :=
  match levels with
  | O => []
  | S below =>
      match obj with
      | ODict d =>
          d ≫= (fun kv =>
                  let v := coerce kv.2 in
                  match int_of_number v with
                  | Some age => if age_key kv.1 then [age] else []
                  | None =>
                      match v with
                      | ODict _ | OList _ => age_candidates below v
                      | _ => []
                      end
                  end)
      | OList l => l ≫= age_candidates below
      | _ => []
      end
  end.

(** What the search leaves in [sensor_age_min]: the value it had, or the
    first candidate. *)
Definition first_age (cands : list (result Z)) (found : option Z)
    : result (option Z) :=
  match found, cands with
  | Some a, _ => Ok (Some a)
  | None, [] => Ok None
  | None, age :: _ => a ← age; Ok (Some a)
  end.

(** ** Profile *)

(** The items a [for] loop draws from decoded JSON; [None] stands for the
    [TypeError] of an object that is not iterable. *)
Definition iter_of (v : json) : option (list json) :=
  match v with
  | JList l => Some l
  | JStr s => Some (JStr <$> chars s)
  | JDict d => Some (JStr <$> elements (dom d))
  | _ => None
  end.

(** [int(s["timeAsSeconds"]): float(s["value"])] *)
Definition segment (s : json) : option (Z * float) :=
  k ← getitem s (JStr "timeAsSeconds");
  k ← ok (py_int k);
  v ← getitem s (JStr "value");
  v ← ok (py_float v);
  Some (k, v).

(** The dict comprehension over [segs]. *)
Fixpoint comprehension (acc : gmap Z float) (segs : list json)
    : option (gmap Z float) :=
  match segs with
  | [] => Some acc
  | s :: rest =>
      kv ← segment s;
      comprehension (<[ kv.1 := kv.2 ]> acc) rest
  end.

(** [prof["store"][prof["defaultProfile"]]] *)
Definition default_store (prof : record) : option json :=
  stores ← prof !! "store"%string;
  name ← prof !! "defaultProfile"%string;
  getitem stores name.

(** [plan_basal_from_profile]; [None] stands for any exception. *)
Definition plan_basal_from_profile (prof : record) : option (gmap Z float) :=
  store ← default_store prof;
  segs ← getitem store (JStr "basal");
  segs ← iter_of segs;
  comprehension ∅ segs.

(** [lows[0].get("value") if isinstance(lows[0], dict) else lows[0]] under
    [isinstance(lows, list) and lows], else [None]. *)
Definition first_value (lows : json) : json :=
  match lows with
  | JList (x :: _) =>
      match x with
      | JDict d => get d "value"
      | _ => x
      end
  | _ => JNull
  end.

Definition is_none (v : json) : bool :=
  match v with
  | JNull => true
  | _ => false
  end.

(** The [try] body of [target_range_from_profile]; the outer [None] stands
    for an exception, the inner one for reaching the end of the body. *)
Definition profile_targets (prof : record) : option (option (float * float)) :=
  store ← default_store prof;
  match store with
  | JDict store =>
      let units := default (JStr "mg/dL") (store !! "units"%string) in
      let lows := py_or (py_or (get store "target_low") (get store "targets"))
                        (get store "targetLower") in
      let highs := py_or (get store "target_high") (get store "targetUpper") in
      let low_val := first_value lows in
      let high_val := first_value highs in
      '(low_val, high_val) ←
        (if (is_none low_val || is_none high_val)
            && match get store "target" with JList _ => true | _ => false end
         then
           t0 ← getitem (get store "target") (JInt 0);
           match t0 with
           | JDict t0 => Some (py_or low_val (get t0 "low"),
                               py_or high_val (get t0 "high"))
           | _ => Some (low_val, high_val)
           end
         else Some (low_val, high_val));
      if is_number low_val && is_number high_val then
        if bool_decide (lower (str_of units) ∈ ["mg/dl"; "mgdl"]%string) then
          lo ← ok (py_float low_val);
          hi ← ok (py_float high_val);
          Some (Some (lo / 18.01559, hi / 18.01559)%float)
        else
          lo ← ok (py_float low_val);
          hi ← ok (py_float high_val);
          Some (Some (lo, hi))
      else Some None
  | _ => None
  end.

Definition target_range_from_profile (prof : record) : float * float :=
  match profile_targets prof with
  | Some (Some range) => range
  | _ => (3.9, 10.0)%float
  end.

(** ** Age text of the footer *)

(** [_fmt_age]; [None] is [None]. *)
Definition _fmt_age (mins : option Z) : option string :=
  match mins with
  | None => None
  | Some mins =>
      if mins <? 0 then None
      else
        let d := mins `div` 1440 in
        let h := (mins `mod` 1440) `div` 60 in
        if 1 <=? d then Some (pretty d +:+ "d " +:+ pretty h +:+ "h")
        else Some (pretty h +:+ "h")
  end.

End Status.



(** A profile in mg/dL that does not name its units. *)
Definition sample_store : record :=
  {[ "target_low"%string := JList [JFloat 72];
     "target_high"%string := JList [JFloat 180];
     "basal"%string :=
       JList [JDict {[ "timeAsSeconds"%string := JInt 0;
                       "value"%string := JFloat 0.8 ]};
              JDict {[ "timeAsSeconds"%string := JInt 21600;
                       "value"%string := JFloat 1.1 ]}] ]}.



Definition sample_profile : record :=
  {[ "defaultProfile"%string := JStr "Default";
     "store"%string := JDict {[ "Default"%string := JDict sample_store ]} ]}.



(** The events of two runs, one after the other. *)
Definition join_buckets (a b : buckets) : buckets :=
  {| bolus_big := bolus_big a ++ bolus_big b;
     bolus_mini := bolus_mini a ++ bolus_mini b;
     carbs := carbs a ++ carbs b;
     temps := temps a ++ temps b |}.

(** The events [b] are events of the records [l]: every event carries the
    instant of one of the records, a bolus has a dose above zero and lies
    in the bucket its [is_smb] names, and the records are enough in number
    for each to have given at most one temp basal, or else at most one
    bolus and at most one meal. *)
Definition events_of `{P : Platform} (l : list record) (b : buckets) : Prop :=
  Forall (fun x => is_smb x = false /\ PrimFloat.ltb 0 (b_units x) = true
                   /\ exists t, t ∈ l /\ treatment_ts t = Ok (Some (b_time x)))
         (bolus_big b)
  /\ Forall (fun x => is_smb x = true /\ PrimFloat.ltb 0 (b_units x) = true
                      /\ exists t, t ∈ l /\ treatment_ts t = Ok (Some (b_time x)))
            (bolus_mini b)
  /\ Forall (fun x => exists t, t ∈ l /\ treatment_ts t = Ok (Some (c_time x)))
            (carbs b)
  /\ Forall (fun x => exists t, t ∈ l /\ treatment_ts t = Ok (Some (t_start x)))
            (temps b)
  /\ (length (temps b) + length (bolus_big b) + length (bolus_mini b) <= length l)%nat
  /\ (length (temps b) + length (carbs b) <= length l)%nat.

(** An entry whose [sgv] is 0 and whose meter value is 110 mg/dL. *)
Definition sample_entry : record :=
  list_to_map [("sgv", JInt 0); ("mbg", JInt 110); ("date", JInt 1700000000000);
               ("direction", JStr "Flat")]%string.

(** A reading of 99 mg/dL five minutes before [T0]. *)
Definition earlier_entry : record :=
  list_to_map [("sgv", JInt 99); ("date", JInt 1699999700000)]%string.

(** A dose that is not a number, given at [T0]. *)
Definition nan_dose : record :=
  list_to_map [("mills", JInt 1700000000000); ("insulin", JFloat PrimFloat.nan)]%string.

(** * Event labels of the widget chart

    The placement part of [_annotate_events_on_bg] ([widget.py]); the
    drawing itself is not modelled. *)

(** [enumerate(l)], counting from [start]. *)
Fixpoint enumerate {A} (start : Z) (l : list A) : list (Z * A) :=
  match l with
  | [] => []
  | x :: rest => (start, x) :: enumerate (start + 1) rest
  end.

(** [bg_df.loc[bg_df["time"] <= ts].tail(1)], on the frame as (time, mmol)
    rows; [None] for an empty selection. *)
Definition row_glu (bg_df : list (Z * float)) (ts : Z) : option (Z * float) :=
  last (filter (fun r => r.1 ≤ ts) bg_df).

(** [annotations_plan] for one group: item, offset in points, [is_bolus]. *)
Definition annotations_plan {A} (place_above : bool)
    (bolus_entries carb_entries : list A) : list (A * Z * bool) :=
  if place_above then
    ((fun b => (b, 8, true)) <$> bolus_entries)
    ++ ((fun ic => (ic.2, -10 - ic.1 * 12, false)) <$> enumerate 0 carb_entries)
  else
    ((fun ib => (ib.2, -10 - ib.1 * 12, true)) <$> enumerate 0 bolus_entries)
    ++ (let start_idx := Z.of_nat (length bolus_entries) in
        (fun jc => (jc.2, -10 - (start_idx + jc.1) * 12, false))
          <$> enumerate 0 carb_entries).

(** * Age texts of the widget *)

(** The sensor fragment of [update_data] ([widget.py]). *)
Definition sensor_frag (sensor_age_min : Z) : string :=
  let d := sensor_age_min `div` 1440 in
  let h := (sensor_age_min `mod` 1440) `div` 60 in
  if 1 <=? d then "Sensor " +:+ pretty d +:+ "d " +:+ pretty h +:+ "h"
  else "Sensor " +:+ pretty h +:+ "h".

(** [max(0, x)] for a float [x]: [x] when it is above 0, else the [int] 0;
    then [int] of it. *)
Definition int_max0 (x : float) : result Z :=
  if PrimFloat.ltb 0 x then int_of_float x else Ok 0.

(** [_format_age] ([widget.py]), with the clock reading as [now]; the
    [except] gives the empty text. *)
Definition _format_age (now : Z) (ts : option Z) : string :=
  match ts with
  | None => EmptyString
  | Some ts =>
      match int_max0 (total_seconds (now - ts)) with
      | Ok secs =>
          let mins := secs `div` 60 in
          let hours := mins `div` 60 in
          if 1 <=? hours then "vor " +:+ pretty hours +:+ " h"
          else "vor " +:+ pretty mins +:+ " min"
      | Raise _ => EmptyString
      end
  end.

(** * Properties *)

(** ** Order of binary64 values *)

Lemma pos_compare_cont_Eq (m1 m2 : positive) :
  Pos.compare_cont Eq m1 m2 = (m1 ?= m2)%positive.
Proof. reflexivity. Qed.

Ltac cmp_cases :=
  repeat match goal with
  | |- context [Z.compare ?a ?b] => destruct (Z.compare_spec a b); subst
  | |- context [Pos.compare_cont Eq ?a ?b] =>
      rewrite (pos_compare_cont_Eq a b); destruct (Pos.compare_spec a b); subst
  | H : context [Z.compare ?a ?b] |- _ => destruct (Z.compare_spec a b); subst
  | H : context [Pos.compare_cont Eq ?a ?b] |- _ =>
      rewrite (pos_compare_cont_Eq a b) in H; destruct (Pos.compare_spec a b); subst
  end.

Ltac sf_order :=
  unfold SFleb, SFltb, SFeqb;
  repeat match goal with
  | x : spec_float |- _ => destruct x as [[]|[]| |[] ? ?]
  end;
  simpl; try congruence; intros; cmp_cases; simpl in *; try congruence; try lia.

Lemma SFleb_trans (x y z : spec_float) :
  SFleb x y = true -> SFleb y z = true -> SFleb x z = true.
Proof. sf_order. Qed.

Lemma SFleb_ltb_trans (x y z : spec_float) :
  SFleb x y = true -> SFltb y z = true -> SFltb x z = true.
Proof. sf_order. Qed.

Lemma SFltb_leb_trans (x y z : spec_float) :
  SFltb x y = true -> SFleb y z = true -> SFltb x z = true.
Proof. sf_order. Qed.

Lemma SFltb_not_leb (x y : spec_float) :
  SFltb x y = true -> SFleb y x = false.
Proof. sf_order. Qed.

Lemma SFleb_not_ltb (x y : spec_float) :
  SFleb x y = true -> SFltb y x = false.
Proof. sf_order. Qed.

Lemma SFeqb_leb (x y : spec_float) :
  SFeqb x y = true -> SFleb x y = true.
Proof. sf_order. Qed.

Lemma SFltb_not_eqb (x y : spec_float) :
  SFltb x y = true -> SFeqb y x = false.
Proof. sf_order. Qed.

Lemma float_le_trans (x y z : float) :
  PrimFloat.leb x y = true -> PrimFloat.leb y z = true -> PrimFloat.leb x z = true.
Proof. rewrite !FloatAxioms.leb_spec. apply SFleb_trans. Qed.

Lemma float_le_lt_trans (x y z : float) :
  PrimFloat.leb x y = true -> PrimFloat.ltb y z = true -> PrimFloat.ltb x z = true.
Proof. rewrite !FloatAxioms.leb_spec, !FloatAxioms.ltb_spec. apply SFleb_ltb_trans. Qed.

Lemma float_lt_le_trans (x y z : float) :
  PrimFloat.ltb x y = true -> PrimFloat.leb y z = true -> PrimFloat.ltb x z = true.
Proof. rewrite !FloatAxioms.leb_spec, !FloatAxioms.ltb_spec. apply SFltb_leb_trans. Qed.

Lemma float_lt_not_ge (x y : float) :
  PrimFloat.ltb x y = true -> PrimFloat.leb y x = false.
Proof. rewrite FloatAxioms.leb_spec, FloatAxioms.ltb_spec. apply SFltb_not_leb. Qed.

Lemma float_le_not_gt (x y : float) :
  PrimFloat.leb x y = true -> PrimFloat.ltb y x = false.
Proof. rewrite FloatAxioms.leb_spec, FloatAxioms.ltb_spec. apply SFleb_not_ltb. Qed.

Lemma float_eq_le (x y : float) :
  PrimFloat.eqb x y = true -> PrimFloat.leb x y = true.
Proof. rewrite FloatAxioms.leb_spec, FloatAxioms.eqb_spec. apply SFeqb_leb. Qed.

Lemma float_lt_not_eq (x y : float) :
  PrimFloat.ltb x y = true -> PrimFloat.eqb y x = false.
Proof. rewrite FloatAxioms.eqb_spec, FloatAxioms.ltb_spec. apply SFltb_not_eqb. Qed.


(** Equal values differ by a zero or, for equal infinities, by a NaN:
    never by more than a positive threshold. *)
Lemma SFsub_eqb_small (c x y : spec_float) :
  SFltb c (S754_zero false) = false ->
  SFeqb x y = true -> SFltb c (SFabs (SF64sub x y)) = false.
Proof.
  intros Hc. unfold SFeqb.
  assert (Hnan : SFltb c S754_nan = false)
    by (destruct c as [[]|[]| |[] ? ?]; reflexivity).
  destruct x as [[]|[]| |[] m1 e1], y as [[]|[]| |[] m2 e2];
    intros H; simpl in H; try congruence; try exact Hc; try exact Hnan;
    cmp_cases; try discriminate;
    unfold SF64sub, SFsub; cbn [cond_Zopp];
    rewrite ?Z.sub_diag; exact Hc.
Qed.

Lemma float_eq_within (c x y : float) :
  PrimFloat.ltb c 0 = false ->
  PrimFloat.eqb x y = true -> PrimFloat.ltb c (PrimFloat.abs (x - y)) = false.
Proof.
  rewrite !FloatAxioms.ltb_spec, FloatAxioms.eqb_spec, FloatAxioms.abs_spec, FloatAxioms.sub_spec. apply SFsub_eqb_small.
Qed.

(** *** Sign of a quotient

    A span of microseconds below zero gives an age below zero: the integer
    converts to a float of magnitude at least one, and dividing by 1000000
    and by 60 stays far from underflow. *)

(** Number of binary digits *)
Lemma digits2_pos_log2 (p : positive) :
  Z.pos (digits2_pos p) = Z.log2 (Z.pos p) + 1.
Proof.
  induction p as [p IH|p IH|]; cbn [digits2_pos]; try reflexivity.
  - rewrite Pos2Z.inj_succ, IH. destruct p; cbn [Z.log2]; rewrite ?Pos2Z.inj_succ; cbn [Pos.size]; lia.
  - rewrite Pos2Z.inj_succ, IH. destruct p; cbn [Z.log2]; rewrite ?Pos2Z.inj_succ; cbn [Pos.size]; lia.
Qed.

Lemma shr_1_m (mrs : shr_record) :
  0 <= shr_m mrs -> shr_m (shr_1 mrs) = Z.shiftr (shr_m mrs) 1.
Proof.
  destruct mrs as [m r s]. cbn [shr_m]. intros H. rewrite <- Z.div2_spec.
  destruct m as [|[p|p|]|p]; try reflexivity. lia.
Qed.

Lemma iter_shr_1_m (n : positive) (mrs : shr_record) :
  0 <= shr_m mrs ->
  shr_m (SpecFloat.iter_pos shr_1 n mrs) = Z.shiftr (shr_m mrs) (Z.pos n).
Proof.
  revert mrs. induction n as [n IH|n IH|]; intros mrs H; cbn [SpecFloat.iter_pos].
  - assert (H1 : 0 <= shr_m (shr_1 mrs))
      by (rewrite shr_1_m by exact H; apply Z.shiftr_nonneg; exact H).
    assert (H2 : 0 <= shr_m (SpecFloat.iter_pos shr_1 n (shr_1 mrs)))
      by (rewrite IH by exact H1; apply Z.shiftr_nonneg; exact H1).
    rewrite IH, IH, shr_1_m, !Z.shiftr_shiftr by (assumption || lia).
    f_equal. lia.
  - assert (H1 : 0 <= shr_m (SpecFloat.iter_pos shr_1 n mrs))
      by (rewrite IH by exact H; apply Z.shiftr_nonneg; exact H).
    rewrite IH, IH, !Z.shiftr_shiftr by (assumption || lia).
    f_equal. lia.
  - apply shr_1_m, H.
Qed.

(** Shifting a positive number right by fewer places than it has digits. *)
Lemma shiftr_digits (m n : Z) :
  0 < m -> 0 <= n <= Z.log2 m ->
  0 < Z.shiftr m n /\ Z.log2 (Z.shiftr m n) = Z.log2 m - n.
Proof.
  intros Hm Hn. split.
  - rewrite Z.shiftr_div_pow2 by lia.
    apply Z.div_str_pos. split; [apply Z.pow_pos_nonneg; lia|].
    transitivity (2 ^ Z.log2 m).
    + apply Z.pow_le_mono_r; lia.
    + apply Z.log2_spec, Hm.
  - rewrite Z.log2_shiftr by exact Hm. lia.
Qed.

(** [shr_fexp] keeps the magnitude [digits + exponent] of a positive
    mantissa that does not underflow. *)
Lemma shr_fexp_magnitude (m e : Z) (l : location) :
  0 < m -> emin64 < Z.log2 m + 1 + e ->
  let '(mrs, e') := shr_fexp prec emax m e l in
  0 < shr_m mrs /\ Z.log2 (shr_m mrs) + 1 + e' = Z.log2 m + 1 + e.
Proof.
  intros Hm Hd. unfold shr_fexp, shr.
  assert (Hdig : Zdigits2 m = Z.log2 m + 1).
  { destruct m as [|p|p]; try lia. apply digits2_pos_log2. }
  rewrite Hdig.
  assert (Hrec : shr_m (shr_record_of_loc m l) = m)
    by (destruct l as [|[]]; reflexivity).
  assert (Hfexp : fexp prec emax (Z.log2 m + 1 + e)
                  = Z.max (Z.log2 m + 1 + e - 53) (-1074)) by reflexivity.
  rewrite Hfexp. unfold emin64 in Hd.
  destruct (Z.max (Z.log2 m + 1 + e - 53) (-1074) - e) as [|n|n] eqn:En.
  - rewrite Hrec. split; [exact Hm|reflexivity].
  - rewrite iter_shr_1_m by (rewrite Hrec; lia). rewrite Hrec.
    assert (Hlog : 0 <= Z.log2 m) by apply Z.log2_nonneg.
    destruct (shiftr_digits m (Z.pos n) Hm) as [H1 H2]; [lia|].
    split; [exact H1|]. rewrite H2. lia.
  - rewrite Hrec. split; [exact Hm|reflexivity].
Qed.

Lemma round_nearest_even_ge (m : Z) (l : location) :
  0 < m -> m <= round_nearest_even m l.
Proof.
  intros H. destruct l as [|[]]; cbn [round_nearest_even]; try lia.
  destruct (Z.even m); lia.
Qed.

(** Rounding a positive mantissa that does not underflow gives a finite
    value or an infinity of the given sign, of no smaller magnitude. *)
Lemma binary_round_aux_magnitude (s : bool) (m e : Z) (l : location) :
  0 < m -> emin64 < Z.log2 m + 1 + e ->
  binary_round_aux prec emax s m e l = S754_infinity s
  \/ exists m' e', binary_round_aux prec emax s m e l = S754_finite s m' e'
                   /\ Z.log2 m + 1 + e <= Z.log2 (Z.pos m') + 1 + e'.
Proof.
  intros Hm Hd. unfold binary_round_aux.
  pose proof (shr_fexp_magnitude m e l Hm Hd) as H1.
  destruct (shr_fexp prec emax m e l) as [mrs1 e1]. destruct H1 as [Hm1 Hd1].
  set (m2 := round_nearest_even (shr_m mrs1) (loc_of_shr_record mrs1)).
  assert (Hm2 : shr_m mrs1 <= m2) by (apply round_nearest_even_ge, Hm1).
  assert (Hl2 : Z.log2 (shr_m mrs1) <= Z.log2 m2) by (apply Z.log2_le_mono, Hm2).
  assert (H2 : let '(mrs, e') := shr_fexp prec emax m2 e1 loc_Exact in
               0 < shr_m mrs /\ Z.log2 (shr_m mrs) + 1 + e' = Z.log2 m2 + 1 + e1)
    by (apply shr_fexp_magnitude; lia).
  destruct (shr_fexp prec emax m2 e1 loc_Exact) as [mrs3 e3].
  destruct H2 as [Hm3 Hd3].
  destruct (shr_m mrs3) as [|m3|m3] eqn:E3; try lia.
  destruct (e3 <=? emax - prec); [|left; reflexivity].
  right. exists m3, e3. split; [reflexivity|lia].
Qed.

Lemma iter_xO_pow2 (p d : positive) :
  Z.pos (Pos.iter xO p d) = Z.pos p * 2 ^ Z.pos d.
Proof.
  induction d as [|d IH] using Pos.peano_ind.
  - cbn [Pos.iter]. lia.
  - rewrite Pos.iter_succ, Pos2Z.inj_succ, Z.pow_succ_r by lia.
    rewrite Pos2Z.inj_xO, IH. lia.
Qed.

Lemma binary_normalize_magnitude (p : positive) :
  signed_above false 1 (binary_normalize prec emax (Z.pos p) 0 false).
Proof.
  unfold binary_normalize, binary_round, shl_align.
  assert (Hlog : 0 <= Z.log2 (Z.pos p)) by apply Z.log2_nonneg.
  destruct (fexp prec emax (Z.pos (digits2_pos p) + 0) - 0) as [|d|d] eqn:Ed.
  - destruct (binary_round_aux_magnitude false (Z.pos p) 0 loc_Exact)
      as [H|(m' & e' & H & Hd)]; try (unfold emin64; lia).
    + left. exact H.
    + right. exists m', e'. split; [exact H|lia].
  - destruct (binary_round_aux_magnitude false (Z.pos p) 0 loc_Exact)
      as [H|(m' & e' & H & Hd)]; try (unfold emin64; lia).
    + left. exact H.
    + right. exists m', e'. split; [exact H|lia].
  - pose proof (iter_xO_pow2 p d) as Hshift.
    assert (Hl : Z.log2 (Z.pos (Pos.iter xO p d)) = Z.pos d + Z.log2 (Z.pos p))
      by (rewrite Hshift; apply Z.log2_mul_pow2; lia).
    assert (Hf : fexp prec emax (Z.pos (digits2_pos p) + 0)
                 = Z.max (Z.pos (digits2_pos p) + 0 - 53) (-1074)) by reflexivity.
    rewrite Hf in Ed. rewrite Hf. rewrite digits2_pos_log2 in Ed |- *.
    destruct (binary_round_aux_magnitude false (Z.pos (Pos.iter xO p d))
                (Z.max (Z.log2 (Z.pos p) + 1 + 0 - 53) (-1074)) loc_Exact)
      as [H|(m' & e' & H & Hd)]; try (unfold emin64; lia).
    + left. exact H.
    + right. exists m', e'. split; [exact H|lia].
Qed.

Lemma SFopp_signed_above (s : bool) (k : Z) (x : spec_float) :
  signed_above s k x -> signed_above (negb s) k (SFopp x).
Proof.
  intros [->|(m & e & -> & H)]; [left; reflexivity|].
  right. exists m, e. split; [reflexivity|exact H].
Qed.

(** Dividing by a positive finite value lowers the magnitude by at most the
    divisor's, and keeps the sign, as long as nothing underflows. *)
Lemma SFdiv_signed_above (s : bool) (k : Z) (x : spec_float) (my : positive) (ey : Z) :
  signed_above s k x ->
  emin64 < k - (Z.log2 (Z.pos my) + 1 + ey) ->
  signed_above s (k - (Z.log2 (Z.pos my) + 1 + ey))
    (SFdiv prec emax x (S754_finite false my ey)).
Proof.
  intros [->|(mx & ex & -> & Hk)] Hmin.
  { left. cbn. destruct s; reflexivity. }
  unfold SFdiv, SFdiv_core_binary. cbn [Zdigits2].
  rewrite !digits2_pos_log2.
  set (dx := Z.log2 (Z.pos mx)) in *. set (dy := Z.log2 (Z.pos my)) in *.
  assert (Hdx : 0 <= dx) by apply Z.log2_nonneg.
  assert (Hdy : 0 <= dy) by apply Z.log2_nonneg.
  assert (Hf : fexp prec emax (dx + 1 + ex - (dy + 1 + ey))
               = Z.max (dx + 1 + ex - (dy + 1 + ey) - 53) (-1074)) by reflexivity.
  rewrite Hf. unfold emin64 in *.
  set (e' := Z.min (Z.max (dx + 1 + ex - (dy + 1 + ey) - 53) (-1074)) (ex - ey)).
  set (sh := ex - ey - e').
  assert (Hsh : dy + 1 - dx <= sh /\ 0 <= sh) by (unfold sh, e'; lia).
  set (m' := match sh with
             | 0 => Z.pos mx
             | Z.pos _ => Z.shiftl (Z.pos mx) sh
             | Z.neg _ => 0
             end).
  assert (Hm' : m' = Z.pos mx * 2 ^ sh).
  { unfold m'. destruct sh as [|p|p] eqn:E; try lia.
    - rewrite Z.shiftl_mul_pow2 by lia. reflexivity. }
  assert (Hq : Z.div_eucl m' (Z.pos my) = (m' / Z.pos my, m' mod Z.pos my))
    by (unfold Z.div, Z.modulo; destruct (Z.div_eucl m' (Z.pos my)); reflexivity).
  rewrite Hq.
  assert (Hpow : 2 ^ (dx + sh - (dy + 1)) <= m' / Z.pos my).
  { assert (Hmx : 2 ^ dx <= Z.pos mx) by (apply Z.log2_spec; lia).
    assert (Hmy : Z.pos my < 2 ^ (dy + 1))
      by (pose proof (Z.log2_spec (Z.pos my) ltac:(lia)); unfold dy;
          rewrite <- Z.add_1_r in *; lia).
    transitivity (2 ^ (dx + sh) / 2 ^ (dy + 1)).
    - rewrite <- Z.pow_sub_r by lia. lia.
    - transitivity (m' / 2 ^ (dy + 1)).
      + apply Z.div_le_mono; [apply Z.pow_pos_nonneg; lia|].
        rewrite Hm', Z.pow_add_r by lia. apply Z.mul_le_mono_nonneg_r; [|exact Hmx].
        apply Z.pow_nonneg. lia.
      + apply Z.div_le_compat_l; [|lia]. rewrite Hm'.
        apply Z.mul_nonneg_nonneg; [lia|apply Z.pow_nonneg; lia]. }
  assert (Hqpos : 0 < m' / Z.pos my).
  { eapply Z.lt_le_trans; [|exact Hpow]. apply Z.pow_pos_nonneg; lia. }
  assert (Hqlog : dx + sh - (dy + 1) <= Z.log2 (m' / Z.pos my)).
  { rewrite <- (Z.log2_pow2 (dx + sh - (dy + 1))) by lia.
    apply Z.log2_le_mono, Hpow. }
  replace (xorb s false) with s by (destruct s; reflexivity).
  destruct (binary_round_aux_magnitude s (m' / Z.pos my) e'
              (new_location (Z.pos my) (m' mod Z.pos my)) Hqpos)
    as [H|(m2 & e2 & H & Hd)].
  - unfold emin64, sh in *. lia.
  - left. exact H.
  - right. exists m2, e2. split; [exact H|]. unfold sh in *. lia.
Qed.

Lemma SFltb_signed_above (k : Z) (x : spec_float) :
  signed_above true k x -> SFltb x (S754_zero false) = true.
Proof. intros [->|(m & e & -> & _)]; reflexivity. Qed.

Lemma float_of_Z_negative (z : Z) :
  - 2 ^ 63 < z < 0 -> signed_above true 1 (Prim2SF (float_of_Z z)).
Proof.
  intros H. unfold float_of_Z.
  destruct (Z.ltb_spec (Z.abs z) (2 ^ 63)) as [_|Hge]; [|lia].
  destruct (Z.ltb_spec z 0) as [_|Hge]; [|lia].
  rewrite FloatAxioms.opp_spec, FloatAxioms.of_uint63_spec, Uint63.of_Z_spec.
  rewrite Z.mod_small by (change Uint63.wB with (2 ^ 63); lia).
  destruct z as [|p|p]; try lia. cbn [Z.abs].
  apply (SFopp_signed_above false), binary_normalize_magnitude.
Qed.

(** The age of an instant after the evaluation time is below zero. *)
Lemma age_minutes_negative (now ts : Z) :
  now < ts < now + 2 ^ 63 -> PrimFloat.ltb (age_minutes now ts) 0 = true.
Proof.
  intros H. unfold age_minutes, total_seconds.
  rewrite FloatAxioms.ltb_spec, !FloatAxioms.div_spec.
  apply (SFltb_signed_above (1 - 20 - 6)).
  apply (SFdiv_signed_above true (1 - 20) _ 8444249301319680 (-47));
    [|unfold emin64; cbn; lia].
  apply (SFdiv_signed_above true 1 _ 8589934592000000 (-33));
    [|unfold emin64; cbn; lia].
  apply float_of_Z_negative. lia.
Qed.

(** [units and units > 0] is [units > 0]. *)
Lemma positive_dose_gt0 (u : float) : positive_dose u = PrimFloat.ltb 0 u.
Proof.
  unfold positive_dose, truthy.
  destruct (PrimFloat.ltb 0 u) eqn:E; [|apply andb_false_r].
  rewrite (float_lt_not_eq _ _ E). reflexivity.
Qed.

(** ** Record classifier *)

Section Classifier.

Context `{P : Platform}.

Lemma split_loop_app (acc : buckets) (l1 l2 : list record) :
  split_loop acc (l1 ++ l2) = acc' ← split_loop acc l1; split_loop acc' l2.
Proof.
  revert acc. induction l1 as [|t l1 IH]; intros acc; [reflexivity|].
  cbn [app split_loop]. destruct (split_step acc t) as [acc1|e]; [apply IH|reflexivity].
Qed.

(** The loop runs the body on each record in turn. *)
Lemma split_events_snoc (l : list record) (t : record) :
  split_events (l ++ [t]) = acc ← split_events l; split_step acc t.
Proof.
  unfold split_events. rewrite split_loop_app.
  destruct (split_loop no_events l) as [acc|e]; [|reflexivity].
  cbn. destruct (split_step acc t); reflexivity.
Qed.


(** The dose search returns the dose of the first key that holds one. *)
Lemma find_units_head (t : record) (ks : list string) :
  find_units t ks =
    match head (omap (dose_at t) ks) with
    | None => Ok None
    | Some r => u ← r; Ok (Some u)
    end.
Proof.
  induction ks as [|k ks IH]; [reflexivity|].
  cbn [find_units omap list_omap]. unfold dose_at at 1.
  destruct (is_number (get t k)) eqn:Hn; [reflexivity|].
  destruct (get t k) as [|b|z|x|s|l|d]; try discriminate; try exact IH.
  destruct (float_of_str (replace_comma s)); [reflexivity|exact IH].
Qed.

Lemma contains_smb_refl : contains "smb" "smb" = true.
Proof. reflexivity. Qed.

(** The [is_smb] test asks whether some field mentions "smb". *)
Lemma smb_marked_mentions (et t_type : string) (tags : list string) :
  smb_marked et t_type tags = mentions_smb et t_type tags.
Proof.
  unfold smb_marked, mentions_smb.
  destruct (String.eqb t_type "smb") eqn:E.
  - apply String.eqb_eq in E. subst. rewrite contains_smb_refl.
    cbn. rewrite orb_true_r. reflexivity.
  - cbn. destruct (contains "smb" et), (contains "smb" t_type),
      (existsb (contains "smb") tags); reflexivity.
Qed.

Lemma bolus_part_first_dose (acc : buckets) (t : record) (ts : Z)
    (et t_type : string) (tags : list string) :
  bolus_part acc t ts et t_type tags =
    match first_dose t with
    | None => Ok acc
    | Some r =>
        u ← r;
        if PrimFloat.ltb 0 u
        then Ok (emit_bolus acc ts u (mentions_smb et t_type tags))
        else Ok acc
    end.
Proof.
  unfold bolus_part, first_dose. rewrite find_units_head.
  destruct (head (omap (dose_at t) DOSE_KEYS)) as [[u|e]|]; cbn; try reflexivity.
  rewrite positive_dose_gt0, smb_marked_mentions. unfold emit_bolus.
  destruct (PrimFloat.ltb 0 u), (mentions_smb et t_type tags); reflexivity.
Qed.



(** No key with a positive dose in first place, no bolus: the buckets come
    back as the carbs part left them. *)
Lemma no_positive_dose_no_bolus (acc : buckets) (t : record) (ts : Z)
    (et t_type : string) (tags : list string) :
  Forall (fun k => dose_at t k = None
                   \/ exists u, dose_at t k = Some (Ok u) /\ PrimFloat.ltb 0 u = false)
         DOSE_KEYS ->
  bolus_part acc t ts et t_type tags = Ok acc.
Proof.
  intros H. rewrite bolus_part_first_dose. unfold first_dose.
  induction H as [|k ks Hk _ IH]; [reflexivity|].
  cbn [omap list_omap]. destruct Hk as [->|(u & -> & Hu)]; [exact IH|].
  cbn. rewrite Hu. reflexivity.
Qed.


(** The body on a temp-basal record touches only the [temps] bucket. *)
Lemma temp_basal_step_buckets (acc acc' : buckets) (t : record) :
  event_type t = Ok "temp basal"%string -> split_step acc t = Ok acc' ->
  bolus_big acc' = bolus_big acc /\ bolus_mini acc' = bolus_mini acc
  /\ carbs acc' = carbs acc
  /\ (temps acc' = temps acc \/ exists x, temps acc' = temps acc ++ [x]).
Proof.
  intros Het. unfold split_step. rewrite Het. cbn.
  destruct (explicit_type t) as [ty|]; cbn; [|discriminate].
  destruct (tag_list t) as [tags|]; cbn; [|discriminate].
  destruct (treatment_ts t) as [[ts|]|]; cbn; [| |discriminate].
  - unfold temp_branch.
    destruct (match t !! "duration"%string with
              | None => Ok 0 | Some v => py_int v end) as [d|];
      cbn; [|discriminate].
    destruct (float_or_nan (get t "percent")) as [p|]; cbn; [|discriminate].
    destruct (float_or_nan (get t "absolute")) as [a|]; cbn; [|discriminate].
    intros [= <-]. cbn. eauto 6.
  - intros [= <-]. auto.
Qed.

(** A run over temp-basal records alone fills no other bucket. *)
Lemma temp_basal_records_give_no_meals (l : list record) (acc acc' : buckets) :
  Forall (fun t => event_type t = Ok "temp basal"%string) l ->
  split_loop acc l = Ok acc' ->
  bolus_big acc' = bolus_big acc /\ bolus_mini acc' = bolus_mini acc
  /\ carbs acc' = carbs acc.
Proof.
  intros Hall. revert acc. induction Hall as [|t l Ht _ IH]; intros acc; cbn.
  - intros [= <-]. auto.
  - destruct (split_step acc t) as [acc1|e] eqn:E; cbn; [|discriminate].
    intros H. destruct (temp_basal_step_buckets acc acc1 t Ht E) as (H1 & H2 & H3 & _).
    destruct (IH acc1 H) as (H4 & H5 & H6). repeat split; congruence.
Qed.

(** C9.  A record whose event type is "temp basal" (compared in lower case)
    never adds a CarbIntake or a bolus, whatever carbs or dose fields it
    carries: the body leaves the three other buckets as they were and adds
    at most one TempBasal; and when its fields convert, it adds exactly that
    TempBasal. *)
Theorem temp_basal_emits_only_temp_basal (acc : buckets) (t : record) :
  event_type t = Ok "temp basal"%string ->
  (forall acc', split_step acc t = Ok acc' ->
     bolus_big acc' = bolus_big acc /\ bolus_mini acc' = bolus_mini acc
     /\ carbs acc' = carbs acc
     /\ (temps acc' = temps acc \/ exists x, temps acc' = temps acc ++ [x]))
  /\ (forall t_type tags ts d p a,
        explicit_type t = Ok t_type -> tag_list t = Ok tags ->
        treatment_ts t = Ok (Some ts) ->
        match t !! "duration"%string with
        | None => Ok 0
        | Some v => py_int v
        end = Ok d ->
        float_or_nan (get t "percent") = Ok p ->
        float_or_nan (get t "absolute") = Ok a ->
        split_step acc t =
          Ok (add_temp acc {| t_start := ts; duration := d;
                              percent := p; absolute := a |})).
Proof.
  intros Het. split.
  - intros acc' H. exact (temp_basal_step_buckets acc acc' t Het H).
  - intros ty tags ts d p a Hty Htags Hts Hd Hp Ha.
    unfold split_step. rewrite Het, Hty, Htags, Hts. cbn.
    unfold temp_branch. rewrite Hd, Hp, Ha. reflexivity.
Qed.

End Classifier.





(** [{eventType: "SMB", insulin: 0.3}] gives MicroBolus(0.3 U) and no
    CarbIntake. *)
Example smb_record_is_micro_bolus :
  split_events (P := utc_host) [smb_dose] =
    Ok {| bolus_big := []; carbs := []; temps := [];
          bolus_mini := [{| b_time := T0; b_units := 0.3; is_smb := true |}] |}.
Proof. vm_compute. reflexivity. Qed.

Lemma temp_basal_emits_only_temp_basal_witness :
  split_step (P := utc_host) no_events temp_with_meal =
    Ok (add_temp no_events {| t_start := T0; duration := 30;
                              percent := 50; absolute := PrimFloat.nan |}).
Proof.
  exact (proj2 (@temp_basal_emits_only_temp_basal utc_host no_events
                  temp_with_meal eq_refl)
               EmptyString [] T0 30 50%float PrimFloat.nan
               eq_refl eq_refl eq_refl eq_refl eq_refl eq_refl).
Defined.

(** ** Time normaliser *)

Section TimeNormaliser.

Context `{P : Platform}.

(** Text that parses gives the instant, whatever the epoch field holds. *)
Lemma entry_ts_text (e : record) (s : string) (d : datetime) :
  py_or (get e "dateString") (get e "created_at") = JStr s ->
  s <> EmptyString -> isoparse s = Some d ->
  entry_ts e = Ok (Some (anchor_utc d)).
Proof.
  intros Hs Hne Hd. unfold entry_ts. rewrite Hs. cbn.
  destruct (String.eqb_spec s EmptyString); [contradiction|].
  cbn. rewrite Hd. reflexivity.
Qed.

Lemma treatment_ts_text (t : record) (s : string) (d : datetime) :
  py_or (py_or (get t "created_at") (get t "timestamp")) (get t "dateString")
    = JStr s ->
  s <> EmptyString -> isoparse s = Some d ->
  treatment_ts t = Ok (Some (anchor_utc d)).
Proof.
  intros Hs Hne Hd. unfold treatment_ts. rewrite Hs. cbn.
  destruct (String.eqb_spec s EmptyString); [contradiction|].
  cbn. rewrite Hd. reflexivity.
Qed.

(** Without text, the epoch field decides. *)
Lemma entry_ts_no_text (e : record) :
  truthy (py_or (get e "dateString") (get e "created_at")) = false ->
  entry_ts e = of_epoch_ms (get e "date").
Proof. intros H. unfold entry_ts. rewrite H. reflexivity. Qed.

Lemma treatment_ts_no_text (t : record) :
  truthy (py_or (py_or (get t "created_at") (get t "timestamp"))
                (get t "dateString")) = false ->
  treatment_ts t = of_epoch_ms (py_or (get t "mills") (get t "date")).
Proof. intros H. unfold treatment_ts. rewrite H. reflexivity. Qed.

(** Text that is present decides alone: when it does not parse, the record
    has no instant, whatever its epoch field holds. *)
Lemma entry_ts_bad_text (e : record) (s : string) :
  py_or (get e "dateString") (get e "created_at") = JStr s ->
  s <> EmptyString -> isoparse s = None -> entry_ts e = Ok None.
Proof.
  intros Hs Hne Hd. unfold entry_ts. rewrite Hs. cbn.
  destruct (String.eqb_spec s EmptyString); [contradiction|].
  cbn. rewrite Hd. reflexivity.
Qed.

Lemma treatment_ts_bad_text (t : record) (s : string) :
  py_or (py_or (get t "created_at") (get t "timestamp")) (get t "dateString")
    = JStr s ->
  s <> EmptyString -> isoparse s = None -> treatment_ts t = Ok None.
Proof.
  intros Hs Hne Hd. unfold treatment_ts. rewrite Hs. cbn.
  destruct (String.eqb_spec s EmptyString); [contradiction|].
  cbn. rewrite Hd. reflexivity.
Qed.

(** The sensor-change lookup goes on to the epoch field in that case. *)
Lemma sensor_change_ts_bad_text (t0 : record) (s : string) (ts : Z) :
  py_or (py_or (get t0 "created_at") (get t0 "timestamp")) (get t0 "dateString")
    = JStr s ->
  isoparse s = None ->
  of_epoch_ms (py_or (get t0 "mills") (get t0 "date")) = Ok (Some ts) ->
  sensor_change_ts t0 = Some ts.
Proof.
  intros Hs Hd Hms. unfold sensor_change_ts. rewrite Hs, Hms. cbn.
  rewrite Hd. destruct (negb (String.eqb s EmptyString)); reflexivity.
Qed.

(** A fault of [fromtimestamp] is a fault of the whole call. *)
Lemma entry_step_fault (rows : list entry_row) (e : record) (x : exn) :
  is_number (py_or (py_or (get e "sgv") (get e "mbg")) (get e "glucose")) = true ->
  truthy (py_or (get e "dateString") (get e "created_at")) = false ->
  of_epoch_ms (get e "date") = Raise x ->
  entry_step rows e = Raise x.
Proof.
  intros Hv Ht Hx. unfold entry_step. rewrite Hv, (entry_ts_no_text e Ht), Hx.
  reflexivity.
Qed.

End TimeNormaliser.

(** C3 on a record with unparseable text and a valid epoch field.  The
    epoch field alone gives the instant [T0], but [fetch_entries],
    [split_events] and both fallback IOB loops drop the record; the
    sensor-change lookup, on the same fields, returns [T0]. *)
Theorem bad_text_with_epoch_is_dropped :
  of_epoch_ms (P := utc_host) (get bad_text_entry "date") = Ok (Some T0)
  /\ fetch_entries (P := utc_host) [bad_text_entry] = Ok []
  /\ split_events (P := utc_host) [bad_text_treatment] = Ok no_events
  /\ fallback_bolus_iob (P := utc_host) (T0 + 60 * MINUTE) [bad_text_treatment]
       = Ok 0%float
  /\ _fallback_bolus_iob (P := utc_host) (T0 + 60 * MINUTE) [bad_text_treatment]
       = Ok 0%float
  /\ sensor_change_ts (P := utc_host) bad_text_treatment = Some T0.
Proof. repeat split; vm_compute; reflexivity. Qed.

(** An epoch field beyond the range of [time_t] makes [fetch_entries]
    raise instead of dropping the record. *)
Example huge_epoch_raises :
  fetch_entries (P := utc_host) [huge_epoch_entry] = Raise OverflowError.
Proof. vm_compute. reflexivity. Qed.

(** ** Basal reconciler *)

Section Basal.

Context `{P : Platform}.

Lemma last_cons_ne {A} (x : A) (l : list A) (d : A) :
  l <> [] -> List.last (x :: l) d = List.last l d.
Proof. destruct l; [congruence|reflexivity]. Qed.

(** The last element of a sorted list is its greatest. *)
Lemma sorted_last_max (keys : list Z) :
  StronglySorted Z.le keys -> keys <> [] ->
  List.last keys 0 ∈ keys /\ forall k, k ∈ keys -> k ≤ List.last keys 0.
Proof.
  intros Hs. induction Hs as [|k rest Hrest IH Hall]; [congruence|]. intros _.
  destruct (decide (rest = [])) as [->|Hne].
  - cbn. split; [left|]. intros k0 H0. apply list_elem_of_singleton in H0. lia.
  - rewrite (last_cons_ne k rest 0 Hne). destruct (IH Hne) as [Hin Hmax]. split.
    + right. exact Hin.
    + intros k0 H0. apply elem_of_cons in H0 as [->|H0]; [|auto].
      rewrite Forall_forall in Hall. apply Hall, Hin.
Qed.

(** The loop of [current_plan_basal] on sorted keys: the entry of the
    greatest key not after [secs], or [current] when every key is after. *)
Lemma scan_plan_sorted (plan : gmap Z float) (secs : Z) (keys : list Z)
    (current : option float) :
  StronglySorted Z.le keys ->
  (exists k, k ∈ keys /\ k ≤ secs
             /\ (forall k', k' ∈ keys -> k' ≤ secs -> k' ≤ k)
             /\ scan_plan plan secs keys current = plan !! k)
  \/ ((forall k, k ∈ keys -> secs < k)
      /\ scan_plan plan secs keys current = current).
Proof.
  intros Hs. revert current.
  induction Hs as [|k rest Hrest IH Hall]; intros current.
  - right. split; [|reflexivity]. intros k Hk. inversion Hk.
  - rewrite Forall_forall in Hall. cbn [scan_plan]. case_bool_decide as Hk.
    + destruct (IH (plan !! k)) as [(k1 & Hin & Hle & Hmax & Heq)|[Hnone Heq]].
      * left. exists k1. repeat split; [set_solver|lia| |exact Heq].
        intros k' Hk' Hle'. apply elem_of_cons in Hk' as [->|Hk']; [|auto].
        apply Hall, Hin.
      * left. exists k. repeat split; [set_solver|lia| |exact Heq].
        intros k' Hk' Hle'. apply elem_of_cons in Hk' as [->|Hk']; [lia|].
        specialize (Hnone k' Hk'). lia.
    + right. split; [|reflexivity].
      intros k' Hk'. apply elem_of_cons in Hk' as [->|Hk']; [lia|].
      specialize (Hall k' Hk'). lia.
Qed.

Lemma sorted_keys_sorted (plan : gmap Z float) :
  StronglySorted Z.le (sorted_keys plan).
Proof. apply StronglySorted_merge_sort; apply _. Qed.

Lemma elem_of_sorted_keys (plan : gmap Z float) (k : Z) :
  k ∈ sorted_keys plan <-> k ∈ dom plan.
Proof.
  unfold sorted_keys. rewrite merge_sort_Permutation. apply elem_of_elements.
Qed.

(** The lookup on a profile with a segment, by cases on the query. *)
Lemma current_plan_basal_cases (plan : gmap Z float) (t : Z) :
  dom plan <> ∅ ->
  (exists k, k ∈ dom plan /\ k ≤ time_of_day t
             /\ (forall k', k' ∈ dom plan -> k' ≤ time_of_day t -> k' ≤ k)
             /\ current_plan_basal plan t = plan !! k)
  \/ (exists k, k ∈ dom plan
                /\ (forall k', k' ∈ dom plan -> time_of_day t < k' ≤ k)
                /\ current_plan_basal plan t = plan !! k).
Proof.
  intros Hne. unfold current_plan_basal. rewrite bool_decide_eq_false_2 by exact Hne.
  cbv zeta.
  destruct (scan_plan_sorted plan (time_of_day t) (sorted_keys plan) None
              (sorted_keys_sorted plan))
    as [(k & Hin & Hle & Hmax & Heq)|[Hnone Heq]].
  - left. exists k. rewrite elem_of_sorted_keys in Hin. repeat split; try assumption.
    + intros k' Hk'. apply Hmax. apply elem_of_sorted_keys, Hk'.
    + rewrite Heq. apply elem_of_dom in Hin as [r Hr]. rewrite Hr. reflexivity.
  - right. rewrite Heq.
    destruct (sorted_last_max (sorted_keys plan) (sorted_keys_sorted plan))
      as [Hin Hmax].
    { intros Hnil. apply Hne. apply set_eq. intros k.
      rewrite <- elem_of_sorted_keys, Hnil. set_solver. }
    exists (List.last (sorted_keys plan) 0). rewrite elem_of_sorted_keys in Hin.
    repeat split; try assumption.
    + apply Hnone, elem_of_sorted_keys. assumption.
    + apply Hmax, elem_of_sorted_keys. assumption.
Qed.


(** The rows of the series are those of [row_at] over the minute grid. *)
Lemma apply_temp_pointwise (rows : list rate_row) (tp : temp) :
  apply_temp rows tp =
    (fun r => {| r_time := r_time r; r_plan := r_plan r;
                 r_actual := overlay_rate (r_plan r) (r_time r) (r_actual r) tp |})
      <$> rows.
Proof.
  unfold apply_temp.
  destruct (existsb (fun r => in_window tp (r_time r)) rows) eqn:Hany.
  - destruct (negb (PrimFloat.is_nan (absolute tp))) eqn:Ha;
      [|destruct (negb (PrimFloat.is_nan (percent tp))) eqn:Hp].
    + apply list_fmap_ext. intros i [t p a] _. unfold set_actual, overlay_rate.
      cbn. rewrite Ha. destruct (in_window tp t); reflexivity.
    + apply list_fmap_ext. intros i [t p a] _. unfold set_actual, overlay_rate.
      cbn. rewrite Ha, Hp. destruct (in_window tp t); reflexivity.
    + rewrite <- (list_fmap_id rows) at 1. apply list_fmap_ext.
      intros i [t p a] _. unfold overlay_rate. cbn. rewrite Ha, Hp.
      destruct (in_window tp t); reflexivity.
  - rewrite <- (list_fmap_id rows) at 1. apply list_fmap_ext.
    intros i [t p a] Hi. unfold overlay_rate. cbn.
    destruct (in_window tp t) eqn:Hw; [|reflexivity].
    assert (existsb (fun r => in_window tp (r_time r)) rows = true); [|congruence].
    apply existsb_exists. exists {| r_time := t; r_plan := p; r_actual := a |}.
    split; [|exact Hw]. apply list_elem_of_In. eapply list_elem_of_lookup_2, Hi.
Qed.

Lemma foldl_apply_temp (temps : list temp) (rows : list rate_row) :
  foldl apply_temp rows temps =
    (fun r => {| r_time := r_time r; r_plan := r_plan r;
                 r_actual := foldl (overlay_rate (r_plan r) (r_time r))
                                   (r_actual r) temps |})
      <$> rows.
Proof.
  revert rows. induction temps as [|tp temps IH]; intros rows; cbn [foldl].
  - rewrite <- (list_fmap_id rows) at 1. apply list_fmap_ext.
    intros i [t p a] _. reflexivity.
  - rewrite IH, apply_temp_pointwise, <- list_fmap_compose.
    apply list_fmap_ext. intros i [t p a] _. reflexivity.
Qed.

(** The frame once the grid and every [end_local] are there. *)
Lemma series_rows (plan : gmap Z float) (temps : list temp) (start end_ : Z) :
  flag_row <$> foldl apply_temp (plan_rows plan start end_) temps =
    row_at plan temps <$> date_range start end_.
Proof.
  unfold plan_rows.
  rewrite foldl_apply_temp, <- !list_fmap_compose.
  apply list_fmap_ext. intros i t _. reflexivity.
Qed.

(** The loop returns when no overlay faults, and raises the fault of the
    first that does. *)
Lemma temps_loop_cases (temps : list temp) (rows : list rate_row) :
  match temps_loop rows temps with
  | Ok rows' =>
      rows' = foldl apply_temp rows temps
      /\ Forall (fun tp => timedelta_fault (t_start tp) (duration tp) = None) temps
  | Raise e =>
      exists before tp after,
        temps = before ++ tp :: after
        /\ Forall (fun tp => timedelta_fault (t_start tp) (duration tp) = None) before
        /\ timedelta_fault (t_start tp) (duration tp) = Some e
  end.
Proof.
  revert rows. induction temps as [|tp temps IH]; intros rows; cbn [temps_loop].
  - split; [reflexivity|constructor].
  - unfold temp_step.
    destruct (timedelta_fault (t_start tp) (duration tp)) as [e|] eqn:E;
      cbn [check mbind result_bind].
    + exists [], tp, temps. repeat apply conj; auto.
    + specialize (IH (apply_temp rows tp)).
      destruct (temps_loop (apply_temp rows tp) temps) as [rows'|e].
      * destruct IH as [-> Hall]. split; [reflexivity|]. constructor; assumption.
      * destruct IH as (before & tp' & after & -> & Hb & He).
        exists (tp :: before), tp', after. repeat apply conj; auto.
Qed.

(** What [build_basal_series] returns, and when. *)
Lemma build_basal_series_cases (plan : gmap Z float) (temps : list temp)
    (start end_ : Z) :
  match build_basal_series plan temps start end_ with
  | Ok rows =>
      rows = row_at plan temps <$> date_range start end_
      /\ date_range_fault start (utcoffset start) end_ (utcoffset end_) = None
      /\ Forall (fun tp => timedelta_fault (t_start tp) (duration tp) = None) temps
  | Raise e =>
      date_range_fault start (utcoffset start) end_ (utcoffset end_) = Some e
      \/ date_range_fault start (utcoffset start) end_ (utcoffset end_) = None
         /\ exists before tp after,
              temps = before ++ tp :: after
              /\ Forall (fun tp => timedelta_fault (t_start tp) (duration tp) = None)
                        before
              /\ timedelta_fault (t_start tp) (duration tp) = Some e
  end.
Proof.
  unfold build_basal_series.
  destruct (date_range_fault start (utcoffset start) end_ (utcoffset end_)) as [e|];
    cbn [check mbind result_bind]; [left; reflexivity|].
  pose proof (temps_loop_cases temps (plan_rows plan start end_)) as H.
  destruct (temps_loop (plan_rows plan start end_) temps) as [rows|e];
    cbn [mbind result_bind].
  - destruct H as [-> Hall]. rewrite series_rows. auto.
  - right. auto.
Qed.

Lemma build_basal_series_rows (plan : gmap Z float) (temps : list temp)
    (start end_ : Z) (rows : list basal_row) :
  build_basal_series plan temps start end_ = Ok rows ->
  rows = row_at plan temps <$> date_range start end_.
Proof.
  intros H. pose proof (build_basal_series_cases plan temps start end_) as Hc.
  rewrite H in Hc. apply Hc.
Qed.

Lemma build_basal_series_returns (plan : gmap Z float) (temps : list temp)
    (start end_ : Z) :
  date_range_fault start (utcoffset start) end_ (utcoffset end_) = None ->
  Forall (fun tp => timedelta_fault (t_start tp) (duration tp) = None) temps ->
  build_basal_series plan temps start end_ =
    Ok (row_at plan temps <$> date_range start end_).
Proof.
  intros Hd Hall. pose proof (build_basal_series_cases plan temps start end_) as Hc.
  destruct (build_basal_series plan temps start end_) as [rows|e].
  - destruct Hc as [-> _]. reflexivity.
  - exfalso. destruct Hc as [Hc|(_ & before & tp & after & -> & _ & He)]; [congruence|].
    rewrite Forall_app, Forall_cons in Hall. destruct Hall as (_ & Hn & _). congruence.
Qed.

(** The grid holds [start], [start] plus one minute, and so on, up to and
    including [end_] when it is a whole number of minutes after [start]. *)
Lemma elem_of_date_range (start end_ t : Z) :
  t ∈ date_range start end_ <->
  exists k, 0 ≤ k /\ t = start + k * MINUTE /\ t ≤ end_.
Proof.
  unfold date_range. rewrite list_elem_of_fmap. unfold MINUTE. split.
  - intros (k & -> & Hk). apply elem_of_seqZ in Hk. exists k.
    repeat split; [lia|].
    assert (k ≤ (end_ - start) `div` 60000000) by lia.
    assert (60000000 * ((end_ - start) `div` 60000000) ≤ end_ - start)
      by (apply Z.mul_div_le; lia).
    lia.
  - intros (k & Hk & -> & Hle). exists k. split; [reflexivity|].
    apply elem_of_seqZ.
    assert (k ≤ (end_ - start) `div` 60000000)
      by (apply Z.div_le_lower_bound; lia).
    lia.
Qed.

Lemma in_window_iff (tp : temp) (t : Z) :
  in_window tp t = true <->
  t_start tp ≤ t < t_start tp + duration tp * MINUTE.
Proof.
  unfold in_window. rewrite andb_true_iff, !bool_decide_eq_true. reflexivity.
Qed.

Lemma actual_at_snoc (p : float) (t : Z) (before : list temp) (tp : temp) :
  actual_at p t (before ++ [tp]) =
    if in_window tp t then
      if PrimFloat.is_nan (absolute tp) then
        if PrimFloat.is_nan (percent tp) then actual_at p t before
        else (p * (percent tp / 100))%float
      else absolute tp
    else actual_at p t before.
Proof.
  unfold actual_at. rewrite foldl_app. cbn [foldl]. unfold overlay_rate.
  destruct (in_window tp t), (PrimFloat.is_nan (absolute tp)),
    (PrimFloat.is_nan (percent tp)); reflexivity.
Qed.

(** C1, as the code has it.  [build_basal_series] returns a series exactly
    when pandas builds the grid and the end of every overlay, and raises
    the first fault otherwise.  The series it returns has one row per minute
    from [start] up to [end_] inclusive.  In each row the actual rate starts
    as the planned rate; then the overlays are taken in list order, and an
    overlay whose window [[start, start + duration)] holds the minute
    overwrites it: with its absolute rate when that is not NaN, otherwise
    with plan times percent / 100 when its percent is not NaN, and an
    overlay with neither leaves the rate as it found it.  So the last
    overlay that writes wins. *)
Theorem basal_series_overlays_in_list_order (plan : gmap Z float)
    (temps : list temp) (start end_ : Z) :
  (forall rows, build_basal_series plan temps start end_ = Ok rows ->
     rows = row_at plan temps <$> date_range start end_)
  /\ (build_basal_series plan temps start end_
       = Ok (row_at plan temps <$> date_range start end_)
      <-> date_range_fault start (utcoffset start) end_ (utcoffset end_) = None
          /\ Forall (fun tp => timedelta_fault (t_start tp) (duration tp) = None)
                    temps)
  /\ (forall e, build_basal_series plan temps start end_ = Raise e ->
        date_range_fault start (utcoffset start) end_ (utcoffset end_) = Some e
        \/ Exists (fun tp => timedelta_fault (t_start tp) (duration tp) = Some e)
                  temps)
  /\ (forall t, t ∈ date_range start end_ <->
        exists k, 0 ≤ k /\ t = start + k * MINUTE /\ t ≤ end_)
  /\ (forall p t, actual_at p t [] = p)
  /\ (forall p t before tp,
        actual_at p t (before ++ [tp]) =
          if in_window tp t then
            if PrimFloat.is_nan (absolute tp) then
              if PrimFloat.is_nan (percent tp) then actual_at p t before
              else (p * (percent tp / 100))%float
            else absolute tp
          else actual_at p t before)
  /\ (forall tp t, in_window tp t = true <->
        t_start tp ≤ t < t_start tp + duration tp * MINUTE).
Proof.
  split; [intros rows; apply build_basal_series_rows|].
  split.
  { split.
    - intros H. pose proof (build_basal_series_cases plan temps start end_) as Hc.
      rewrite H in Hc. tauto.
    - intros [Hd Hall]. apply build_basal_series_returns; assumption. }
  split.
  { intros e H. pose proof (build_basal_series_cases plan temps start end_) as Hc.
    rewrite H in Hc.
    destruct Hc as [Hc|(_ & before & tp & after & -> & _ & He)]; [left; exact Hc|].
    right. apply Exists_app. right. left. exact He. }
  split; [intros t; apply elem_of_date_range|].
  split; [reflexivity|].
  split; [apply actual_at_snoc|apply in_window_iff].
Qed.

(** C2, as the code has it.  In every row of a series [build_basal_series]
    returns, [is_temp] is the inequality of the two rates as floats, with no
    tolerance; the mask of the renderers, with its tolerance of 1e-6, is set
    only in rows where [is_temp] is. *)
Theorem is_temp_is_exact_inequality (plan : gmap Z float) (temps : list temp)
    (start end_ : Z) (rows : list basal_row) :
  build_basal_series plan temps start end_ = Ok rows ->
  Forall (fun r =>
            is_temp r = negb (PrimFloat.eqb (actual_u_per_h r) (plan_u_per_h r))
            /\ (diff_mask r = true -> is_temp r = true))
         rows.
Proof.
  intros Hrows. rewrite (build_basal_series_rows _ _ _ _ _ Hrows), Forall_fmap.
  apply Forall_forall.
  intros t _. unfold row_at, diff_mask. cbn. split; [reflexivity|].
  intros Hm.
  destruct (PrimFloat.eqb (actual_at (plan_at plan t) t temps) (plan_at plan t))
    eqn:E; [|reflexivity].
  rewrite (float_eq_within 1e-6 _ _ eq_refl E) in Hm. discriminate.
Qed.


End Basal.

(** An overlay with neither rate covers the minute [T0] and leaves the
    planned 1.0 U/h there, where plan times percent / 100 is NaN. *)
Lemma bare_temp_leaves_plan_rate :
  in_window bare_temp T0 = true
  /\ PrimFloat.is_nan (absolute bare_temp) = true
  /\ build_basal_series (P := utc_host) flat_plan [bare_temp] T0 T0 =
       Ok [{| time := T0; plan_u_per_h := 1; actual_u_per_h := 1;
              is_temp := false |}]
  /\ PrimFloat.is_nan (overlay_rate_always 1 T0 1 bare_temp) = true.
Proof. repeat split; vm_compute; reflexivity. Qed.

(** TempBasal(absolute = 0.2, start = T0, duration = 30) over a flat plan of
    1.0 U/h, from five minutes before to thirty-five minutes after [T0]:
    0.2 U/h and [is_temp] on the thirty minutes from [T0], 1.0 U/h around
    them. *)
Example low_temp_for_thirty_minutes :
  build_basal_series (P := utc_host) flat_plan [low_temp]
      (T0 - 5 * MINUTE) (T0 + 35 * MINUTE) =
    Ok ((fun k => {| time := T0 - 5 * MINUTE + k * MINUTE;
                     plan_u_per_h := 1;
                     actual_u_per_h := if bool_decide (5 ≤ k < 35) then 0.2%float
                                       else 1%float;
                     is_temp := bool_decide (5 ≤ k < 35) |}) <$> seqZ 0 41).
Proof. vm_compute. reflexivity. Qed.

(** Two overlays on the same minutes: the later one in the list wins. *)
Example later_overlay_wins :
  build_basal_series (P := utc_host) flat_plan
      [low_temp; {| t_start := T0; duration := 10; percent := 150;
                    absolute := PrimFloat.nan |}] T0 T0 =
    Ok [{| time := T0; plan_u_per_h := 1; actual_u_per_h := 1.5; is_temp := true |}].
Proof. vm_compute. reflexivity. Qed.

(** A rate 0.0000005 U/h above the plan: [is_temp] is set although the two
    rates differ by a positive amount that is not above 1e-6. *)
Lemma tiny_difference_is_flagged :
  build_basal_series (P := utc_host) flat_plan [near_plan_temp] T0 T0 =
    Ok [{| time := T0; plan_u_per_h := 1; actual_u_per_h := 1.0000005;
           is_temp := true |}]
  /\ PrimFloat.ltb 0 (PrimFloat.abs (1.0000005 - 1)) = true
  /\ PrimFloat.leb (PrimFloat.abs (1.0000005 - 1)) 1e-6 = true
  /\ diff_mask {| time := T0; plan_u_per_h := 1; actual_u_per_h := 1.0000005;
                  is_temp := true |} = false.
Proof. repeat split; vm_compute; reflexivity. Qed.

(** The flag of a series of the host, row by row. *)
Lemma is_temp_is_exact_inequality_witness :
  Forall (fun r =>
            is_temp r = negb (PrimFloat.eqb (actual_u_per_h r) (plan_u_per_h r))
            /\ (diff_mask r = true -> is_temp r = true))
         [{| time := T0; plan_u_per_h := 1; actual_u_per_h := 1.0000005;
             is_temp := true |}].
Proof.
  apply (@is_temp_is_exact_inequality utc_host flat_plan [near_plan_temp] T0 T0).
  vm_compute. reflexivity.
Defined.

(** The lookup on a profile of two segments, 0.8 U/h from midnight and
    1.0 U/h from 06:00, at 22:13:20 and at 03:00. *)
Example day_night_lookup :
  current_plan_basal (P := utc_host) day_night_plan T0 = Some 1%float
  /\ current_plan_basal (P := utc_host) day_night_plan
       (T0 + 287 * MINUTE) = Some 0.8%float.
Proof. split; vm_compute; reflexivity. Qed.

(** A query before the first segment wraps to the last one. *)
Example lookup_wraps_to_last :
  current_plan_basal (P := utc_host)
      (<[ 43200 := 0.5%float ]> {[ 21600 := 1%float ]}) (T0 + 287 * MINUTE)
    = Some 0.5%float.
Proof. vm_compute. reflexivity. Qed.

(** ** Fallback bolus IOB *)

Section FallbackIOB.

Context `{P : Platform}.

Lemma iob_loop_app (step : float -> record -> result float) (total : float)
    (l1 l2 : list record) :
  iob_loop step total (l1 ++ l2) =
    total' ← iob_loop step total l1; iob_loop step total' l2.
Proof.
  revert total. induction l1 as [|t l1 IH]; intros total; [reflexivity|].
  cbn [app iob_loop]. destruct (step total t) as [total'|e]; [apply IH|reflexivity].
Qed.

(** The sum is taken record by record, in list order. *)
Lemma fallback_bolus_iob_snoc (now : Z) (l : list record) (t : record) :
  fallback_bolus_iob now (l ++ [t]) =
    total ← fallback_bolus_iob now l; iob_step now total t.
Proof.
  unfold fallback_bolus_iob. rewrite iob_loop_app.
  destruct (iob_loop (iob_step now) 0%float l) as [total|e]; [|reflexivity].
  cbn [mbind result_bind iob_loop]. destruct (iob_step now total t); reflexivity.
Qed.

(** [not u or u <= 0] is [u <= 0]: the two loops have the same body. *)
Lemma widget_iob_step_same (now : Z) (total : float) (t : record) :
  widget_iob_step now total t = iob_step now total t.
Proof.
  unfold widget_iob_step, iob_step.
  destruct (units_of t) as [[u|]|e]; cbn; try reflexivity.
  unfold truthy. destruct (PrimFloat.eqb u 0) eqn:E; cbn; [|reflexivity].
  rewrite (float_eq_le _ _ E). reflexivity.
Qed.

Lemma widget_fallback_same (now : Z) (l : list record) :
  _fallback_bolus_iob now l = fallback_bolus_iob now l.
Proof.
  unfold _fallback_bolus_iob, fallback_bolus_iob. generalize 0%float.
  induction l as [|t l IH]; intros total; [reflexivity|].
  cbn [iob_loop]. rewrite widget_iob_step_same.
  destruct (iob_step now total t); [apply IH|reflexivity].
Qed.

(** A record whose dose and instant are read. *)
Lemma iob_step_read (now : Z) (total : float) (t : record) (u : float) (ts : Z) :
  units_of t = Ok (Some u) -> treatment_ts t = Ok (Some ts) ->
  iob_step now total t =
    Ok (if negb (PrimFloat.leb u 0)
           && PrimFloat.leb 0 (age_minutes now ts)
           && PrimFloat.leb (age_minutes now ts) 300
        then (total + u * float_pow 0.5 (age_minutes now ts / 60))%float
        else total).
Proof.
  intros Hu Hts. unfold iob_step. rewrite Hu. cbn [mbind result_bind].
  destruct (PrimFloat.leb u 0); [reflexivity|].
  unfold iob_add. rewrite Hts. cbn [mbind result_bind negb andb].
  unfold DIA_MINUTES, T_HALF.
  destruct (PrimFloat.leb 0 (age_minutes now ts)),
    (PrimFloat.leb (age_minutes now ts) 300); reflexivity.
Qed.




(** A record whose age in minutes is below zero leaves the sum as it is. *)
Lemma negative_age_adds_nothing (now : Z) (total : float) (t : record)
    (u : option float) (ts : Z) :
  units_of t = Ok u -> treatment_ts t = Ok (Some ts) ->
  PrimFloat.ltb (age_minutes now ts) 0 = true ->
  iob_step now total t = Ok total.
Proof.
  intros Hu Hts Hage. destruct u as [u|].
  - rewrite (iob_step_read now total t u ts Hu Hts),
      (float_lt_not_ge _ _ Hage), andb_false_r. reflexivity.
  - unfold iob_step. rewrite Hu. reflexivity.
Qed.

(** C10.  A record whose instant lies after the evaluation time has an age
    in minutes below zero and leaves the running sum as it is, in both
    loops; alone, it gives an IOB of 0.  (The bound of 2^63 microseconds on
    the distance is wider than the range of [datetime].) *)
Theorem future_dose_adds_nothing (now : Z) (total : float) (t : record)
    (u : option float) (ts : Z) :
  units_of t = Ok u -> treatment_ts t = Ok (Some ts) ->
  now < ts < now + 2 ^ 63 ->
  PrimFloat.ltb (age_minutes now ts) 0 = true
  /\ iob_step now total t = Ok total
  /\ widget_iob_step now total t = Ok total
  /\ fallback_bolus_iob now [t] = Ok 0%float
  /\ _fallback_bolus_iob now [t] = Ok 0%float.
Proof.
  intros Hu Hts Hfut.
  pose proof (age_minutes_negative now ts Hfut) as Hage.
  pose proof (fun total => negative_age_adds_nothing now total t u ts Hu Hts Hage)
    as Hstep.
  repeat apply conj.
  - exact Hage.
  - apply Hstep.
  - rewrite widget_iob_step_same. apply Hstep.
  - unfold fallback_bolus_iob. cbn [iob_loop]. rewrite Hstep. reflexivity.
  - rewrite widget_fallback_same. unfold fallback_bolus_iob. cbn [iob_loop].
    rewrite Hstep. reflexivity.
Qed.

End FallbackIOB.


(** The dashboard measures ages from the instant of its import.  Imported
    at [T0], it counts a unit given at [T0] in full at every later refresh,
    and never counts one given an hour after [T0]; the widget, called two
    hours after [T0], counts a quarter of the first and half of the
    second. *)
Example dashboard_ages_from_import :
  fallback_bolus_iob (P := utc_host) T0 [one_unit; later_unit] = Ok 1%float
  /\ _fallback_bolus_iob (P := utc_host) (T0 + 120 * MINUTE) [one_unit; later_unit]
     = Ok 0.75%float.
Proof. split; vm_compute; reflexivity. Qed.


(** One unit dated ten minutes after the evaluation time. *)
Lemma future_dose_adds_nothing_witness :
  fallback_bolus_iob (P := utc_host) (T0 - 10 * MINUTE) [one_unit] = Ok 0%float
  /\ _fallback_bolus_iob (P := utc_host) (T0 - 10 * MINUTE) [one_unit] = Ok 0%float.
Proof.
  exact (proj2 (proj2 (proj2
           (@future_dose_adds_nothing utc_host (T0 - 10 * MINUTE) 0%float
              one_unit (Some 1%float) T0 eq_refl eq_refl
              (conj eq_refl eq_refl))))).
Defined.

(** ** Fallback trend arrow *)

Section TrendArrow.

Context `{P : Platform}.

Lemma length_tail {A} (n : nat) (l : list A) :
  length (tail n l) = Nat.min n (length l).
Proof. unfold tail. rewrite length_drop. lia. Qed.

(** With three readings or more the fit has at least two rows. *)
Lemma fit_rows_two (entries : list (Z * float)) :
  (3 ≤ length entries)%nat -> (2 ≤ length (fit_rows entries))%nat.
Proof.
  intros H. unfold fit_rows. cbv zeta. case_bool_decide as Hw.
  - rewrite length_tail. lia.
  - lia.
Qed.

(** The threshold chain by intervals of the slope. *)
Lemma arrow_of_slope_intervals (s : float) :
  (PrimFloat.leb 0.5 s = true -> arrow_of_slope s = Some "↑"%string)
  /\ (PrimFloat.leb 0.2 s = true -> PrimFloat.ltb s 0.5 = true ->
      arrow_of_slope s = Some "↗"%string)
  /\ (PrimFloat.ltb (-0.2) s = true -> PrimFloat.ltb s 0.2 = true ->
      arrow_of_slope s = Some "→"%string)
  /\ (PrimFloat.ltb (-0.5) s = true -> PrimFloat.leb s (-0.2) = true ->
      arrow_of_slope s = Some "↘"%string)
  /\ (PrimFloat.leb s (-0.5) = true -> arrow_of_slope s = Some "↓"%string).
Proof.
  unfold arrow_of_slope. repeat apply conj.
  - intros ->. reflexivity.
  - intros H1 H2. rewrite (float_lt_not_ge _ _ H2), H1, H2. reflexivity.
  - intros H1 H2.
    assert (H3 : PrimFloat.ltb s 0.5 = true)
      by (apply (float_lt_le_trans s 0.2 0.5 H2); reflexivity).
    rewrite (float_lt_not_ge _ _ H3), (float_lt_not_ge _ _ H2), H1, H2.
    reflexivity.
  - intros H1 H2.
    assert (H3 : PrimFloat.ltb s 0.2 = true)
      by (apply (float_le_lt_trans s (-0.2) 0.2 H2); reflexivity).
    assert (H4 : PrimFloat.ltb s 0.5 = true)
      by (apply (float_lt_le_trans s 0.2 0.5 H3); reflexivity).
    rewrite (float_lt_not_ge _ _ H4), (float_lt_not_ge _ _ H3),
      (float_le_not_gt _ _ H2), H1, H2.
    reflexivity.
  - intros H1.
    assert (H2 : PrimFloat.leb s (-0.2) = true)
      by (apply (float_le_trans s (-0.5) (-0.2) H1); reflexivity).
    assert (H3 : PrimFloat.ltb s 0.2 = true)
      by (apply (float_le_lt_trans s (-0.2) 0.2 H2); reflexivity).
    assert (H4 : PrimFloat.ltb s 0.5 = true)
      by (apply (float_lt_le_trans s 0.2 0.5 H3); reflexivity).
    rewrite (float_lt_not_ge _ _ H4), (float_lt_not_ge _ _ H3),
      (float_le_not_gt _ _ H2), (float_le_not_gt _ _ H1), H1.
    reflexivity.
Qed.

(** [tail(n)] is the end of the frame, of [n] rows or of all of them. *)
Lemma tail_suffix {A} (n : nat) (l : list A) :
  exists before, l = before ++ tail n l /\ length (tail n l) = Nat.min n (length l).
Proof.
  exists (take (length l - n) l). split; [|apply length_tail].
  unfold tail. rewrite take_drop. reflexivity.
Qed.

(** The steps of [compute_arrow_from_slope], on every platform.  With fewer
    than three readings there is no arrow.  With three or more, the slope
    is fitted on the readings of the 15 minutes up to the last one, or on
    the last five readings when fewer than two are that recent, against the
    index as [int64] divided by 1e9, and the arrow is read off the slope
    times 900: at or above 0.5 up, in [[0.2, 0.5)] 45 degrees up, in
    [(-0.2, 0.2)] flat, in [(-0.5, -0.2]] 45 degrees down, at or below -0.5
    down. *)
Lemma compute_arrow_from_slope_steps :
  (forall entries : list (Z * float),
     (length entries < 3)%nat -> compute_arrow_from_slope entries = None)
  /\ (forall entries : list (Z * float),
        (3 ≤ length entries)%nat ->
        exists x0 xs,
          (fun t => float_of_Z (index_int64 t) / 1e9)%float
            <$> (fit_rows entries).*1 = x0 :: xs
          /\ compute_arrow_from_slope entries =
               match polyfit_slope ((fun xi => xi - x0)%float <$> (x0 :: xs))
                                   (fit_rows entries).*2 with
               | None => None
               | Some slope_per_s => arrow_of_slope (slope_per_s * 900)%float
               end)
  /\ (forall entries : list (Z * float),
        let recent :=
          filter (fun e => (List.last entries (0, 0%float)).1 - 15 * MINUTE ≤ e.1)
                 entries in
        exists before,
          entries = before ++ tail 5 entries
          /\ length (tail 5 entries) = Nat.min 5 (length entries)
          /\ fit_rows entries =
               if bool_decide (2 ≤ length recent)%nat then recent
               else tail 5 entries)
  /\ (forall s : float,
        (PrimFloat.leb 0.5 s = true -> arrow_of_slope s = Some "↑"%string)
        /\ (PrimFloat.leb 0.2 s = true -> PrimFloat.ltb s 0.5 = true ->
            arrow_of_slope s = Some "↗"%string)
        /\ (PrimFloat.ltb (-0.2) s = true -> PrimFloat.ltb s 0.2 = true ->
            arrow_of_slope s = Some "→"%string)
        /\ (PrimFloat.ltb (-0.5) s = true -> PrimFloat.leb s (-0.2) = true ->
            arrow_of_slope s = Some "↘"%string)
        /\ (PrimFloat.leb s (-0.5) = true -> arrow_of_slope s = Some "↓"%string))
  /\ arrow_of_slope 0.5 = Some "↑"%string.
Proof.
  repeat apply conj.
  - intros entries H. unfold compute_arrow_from_slope.
    rewrite bool_decide_eq_true_2 by exact H. reflexivity.
  - intros entries H. pose proof (fit_rows_two entries H) as H2.
    unfold compute_arrow_from_slope.
    rewrite bool_decide_eq_false_2 by lia. cbv zeta.
    destruct (fit_rows entries) as [|[t0 y0] [|[t1 y1] rows]];
      cbn [length] in H2; [lia|lia|].
    eexists _, _. split; reflexivity.
  - intros entries recent. destruct (tail_suffix 5 entries) as (before & H1 & H2).
    exists before. split; [exact H1|]. split; [exact H2|].
    unfold fit_rows. cbv zeta. fold recent.
    repeat case_bool_decide; try reflexivity; lia.
  - exact arrow_of_slope_intervals.
  - reflexivity.
Qed.

End TrendArrow.

(** C7 on three readings that rise 0.1 mmol/L over 15 minutes, in a frame
    whose index counts microseconds.  The three readings are the rows of the
    fit, and the 900 seconds between the first and the last are 900 million
    steps of the index: divided by 1e9 they are less than one.  The slope
    times 900 is then far above 0.5 and the arrow is up, where a slope of
    0.1 mmol/L per 15 minutes lies in the flat band. *)
Theorem gentle_rise_shows_up_arrow :
  fit_rows gentle_rise = gentle_rise
  /\ index_int64 (Platform := utc_host) (T0 + 15 * MINUTE)
     - index_int64 (Platform := utc_host) T0 = 900 * 1000000
  /\ PrimFloat.ltb (seconds_of (P := utc_host) (T0 + 15 * MINUTE)
                    - seconds_of (P := utc_host) T0) 1 = true
  /\ compute_arrow_from_slope (P := utc_host) gentle_rise = Some "↑"%string
  /\ arrow_of_slope 0.1 = Some "→"%string.
Proof. repeat split; vm_compute; reflexivity. Qed.

(** Two readings give no arrow; four readings of which only the last is
    recent are fitted as a whole. *)
Example sparse_readings_arrow :
  compute_arrow_from_slope (P := utc_host) [(T0, 5%float); (T0 + MINUTE, 9%float)]
    = None
  /\ fit_rows [(T0, 5%float); (T0 + 5 * MINUTE, 5.1%float);
               (T0 + 10 * MINUTE, 5.2%float); (T0 + 3000 * MINUTE, 6%float)]
     = [(T0, 5%float); (T0 + 5 * MINUTE, 5.1%float);
        (T0 + 10 * MINUTE, 5.2%float); (T0 + 3000 * MINUTE, 6%float)].
Proof. split; vm_compute; reflexivity. Qed.

(** * Properties of the HTTP helpers *)

Module NetFacts.

Set Warnings "-clear-no-such-hyp".


Import Net.

Lemma append_nil_l (s : string) : (EmptyString ++ s)%string = s.
Proof. reflexivity. Qed.

Lemma append_cons (c : ascii) (a b : string) :
  (String c a ++ b)%string = String c (a ++ b)%string.
Proof. reflexivity. Qed.

Ltac str_norm :=
  cbn [slashes] in *;
  repeat first [rewrite append_nil_l in * | rewrite append_cons in *].

Lemma rstrip_slash_slashes (n : nat) : rstrip_slash (slashes n) = EmptyString.
Proof. induction n as [|n IH]; cbn; [reflexivity|]. rewrite IH. reflexivity. Qed.

(** What is stripped is a run of slashes. *)
Lemma rstrip_slash_split (s : string) :
  exists n, s = (rstrip_slash s ++ slashes n)%string.
Proof.
  induction s as [|c s [n IH]]; [exists 0%nat; reflexivity|].
  cbn [rstrip_slash]. destruct (rstrip_slash s) as [|c' r'] eqn:E.
  - destruct (Ascii.eqb_spec c "/") as [->|Hc].
    + exists (S n). str_norm. congruence.
    + exists n. str_norm. congruence.
  - exists n. str_norm. congruence.
Qed.

(** What is left does not end in a slash. *)
Lemma rstrip_slash_no_trailing (s r : string) :
  rstrip_slash s <> (r ++ "/")%string.
Proof.
  revert r. induction s as [|c s IH]; intros r.
  - cbn. destruct r; discriminate.
  - cbn [rstrip_slash]. destruct (rstrip_slash s) as [|c' r'] eqn:E.
    + destruct (Ascii.eqb_spec c "/") as [->|Hc]; [destruct r; discriminate|].
      destruct r as [|x [|y r]]; str_norm; try discriminate. intros [= ->]. congruence.
    + destruct r as [|x r]; str_norm; [discriminate|].
      intros [= -> H]. exact (IH r H).
Qed.

Lemma rstrip_slash_fixed (s : string) :
  (forall r, s <> (r ++ "/")%string) -> rstrip_slash s = s.
Proof.
  induction s as [|c s IH]; intros H; [reflexivity|].
  cbn [rstrip_slash]. rewrite IH.
  - destruct s as [|c' s']; [|reflexivity].
    destruct (Ascii.eqb_spec c "/") as [->|Hc]; [|reflexivity].
    exfalso. apply (H EmptyString). reflexivity.
  - intros r ->. apply (H (String c r)). reflexivity.
Qed.

(** X1.  [normalize_base] removes exactly the slashes a URL ends in: the
    URL is the result followed by a run of slashes, the result does not end
    in a slash, and normalising again changes nothing. *)
Theorem normalize_base_strips_trailing_slashes (s : string) :
  s <> EmptyString ->
  exists b n,
    normalize_base (Some s) = Some b
    /\ s = (b ++ slashes n)%string
    /\ (forall r, b <> (r ++ "/")%string)
    /\ rstrip_slash b = b.
Proof.
  intros Hs. destruct (rstrip_slash_split s) as [n Hn].
  exists (rstrip_slash s), n. repeat apply conj.
  - unfold normalize_base, given. destruct (String.eqb_spec s EmptyString); [contradiction|].
    reflexivity.
  - exact Hn.
  - apply rstrip_slash_no_trailing.
  - apply rstrip_slash_fixed, rstrip_slash_no_trailing.
Qed.

Lemma normalize_base_strips_trailing_slashes_witness :
  exists b n,
    normalize_base (Some "https://ns.example.org//"%string) = Some b
    /\ "https://ns.example.org//"%string = (b ++ slashes n)%string
    /\ (forall r, b <> (r ++ "/")%string)
    /\ rstrip_slash b = b.
Proof.
  apply normalize_base_strips_trailing_slashes. discriminate.
Defined.

(** X2.  [_ensure_base] raises exactly when [NIGHTSCOUT_URL] is unset or
    consists of slashes only (the empty string included); otherwise it
    returns a non-empty base that does not end in a slash. *)
Theorem ensure_base_raises_iff_no_host (cfg : config) :
  (_ensure_base cfg = None <->
     BASE cfg = None \/ exists n, BASE cfg = Some (slashes n))
  /\ (forall b, _ensure_base cfg = Some b ->
        b <> EmptyString /\ (forall r, b <> (r ++ "/")%string)
        /\ exists n, BASE cfg = Some (b ++ slashes n)%string).
Proof.
  unfold _ensure_base, normalize_base. destruct (BASE cfg) as [s|]; cbn.
  2:{ split; [split; auto|discriminate]. }
  destruct (String.eqb_spec s EmptyString) as [->|Hs]; cbn.
  { split; [|discriminate]. split; auto. intros _. right. exists 0%nat. reflexivity. }
  destruct (String.eqb_spec (rstrip_slash s) EmptyString) as [He|He]; cbn.
  - split; [|discriminate]. split; auto. intros _. right.
    destruct (rstrip_slash_split s) as [n Hn]. rewrite He in Hn. exists n.
    rewrite Hn. reflexivity.
  - split.
    + split; [discriminate|]. intros [H|[n H]]; [discriminate|].
      injection H as ->. rewrite rstrip_slash_slashes in He. contradiction.
    + intros b [= <-]. repeat apply conj; [exact He|apply rstrip_slash_no_trailing|].
      destruct (rstrip_slash_split s) as [n Hn]. exists n. congruence.
Qed.

Lemma setdefault_lookup (k k' : string) (v : json) (d : gmap string json) :
  setdefault k v d !! k' =
    match d !! k' with
    | Some x => Some x
    | None => if decide (k = k') then Some v else None
    end.
Proof.
  unfold setdefault. destruct (d !! k) as [x|] eqn:E.
  - destruct (d !! k') as [x'|] eqn:E'; [reflexivity|].
    destruct (decide (k = k')) as [->|]; [congruence|reflexivity].
  - rewrite lookup_insert. destruct (decide (k = k')) as [->|].
    + rewrite E. reflexivity.
    + destruct (d !! k'); reflexivity.
Qed.

(** X3.  The API secret and the token are never sent together.  With a
    token, no [api-secret] header is sent and [get_json] adds no [secret]
    parameter; the token goes out as [token] and [access_token].  Without a
    token and with a secret, its hash goes out both as the [api-secret]
    header and as the [secret] parameter.  [Accept] is always sent. *)
Theorem token_and_secret_are_exclusive (cfg : config)
    (params : option (gmap string json)) :
  headers cfg !! "Accept"%string = Some "application/json"%string
  /\ (given (TOKEN cfg) = true ->
      headers cfg !! "api-secret"%string = None
      /\ merged_params cfg params !! "secret"%string
           = default ∅ params !! "secret"%string
      /\ forall tok, TOKEN cfg = Some tok ->
           default ∅ params !! "token"%string = None ->
           default ∅ params !! "access_token"%string = None ->
           merged_params cfg params !! "token"%string = Some (JStr tok)
           /\ merged_params cfg params !! "access_token"%string = Some (JStr tok))
  /\ (given (TOKEN cfg) = false ->
      merged_params cfg params !! "token"%string
        = default ∅ params !! "token"%string
      /\ merged_params cfg params !! "access_token"%string
           = default ∅ params !! "access_token"%string
      /\ forall sha, SECRET_SHA1 cfg = Some sha -> sha <> EmptyString ->
           headers cfg !! "api-secret"%string = Some sha
           /\ (default ∅ params !! "secret"%string = None ->
               merged_params cfg params !! "secret"%string = Some (JStr sha))).
Proof.
  unfold headers, merged_params. repeat apply conj.
  - apply lookup_insert_eq.
  - intros Ht. rewrite Ht. cbn. repeat apply conj.
    + rewrite lookup_insert_ne by discriminate. apply lookup_empty.
    + rewrite !setdefault_lookup. destruct (default ∅ params !! "secret"%string);
        reflexivity.
    + intros tok Htok H1 H2. rewrite Htok. cbn.
      rewrite !setdefault_lookup, H1, H2. split; reflexivity.
  - intros Ht. rewrite Ht. cbn. repeat apply conj.
    + destruct (given (SECRET_SHA1 cfg)); [|reflexivity].
      rewrite setdefault_lookup. destruct (default ∅ params !! "token"%string);
        reflexivity.
    + destruct (given (SECRET_SHA1 cfg)); [|reflexivity].
      rewrite setdefault_lookup.
      destruct (default ∅ params !! "access_token"%string); reflexivity.
    + intros sha Hsha Hne. rewrite Hsha. cbn.
      destruct (String.eqb_spec sha EmptyString); [contradiction|]. cbn. split.
      * rewrite lookup_insert_ne by discriminate. apply lookup_insert_eq.
      * intros H. rewrite setdefault_lookup, H. reflexivity.
Qed.

(** X4.  [get_json] never overrides a parameter of its caller, and adds no
    key but [token], [access_token] and [secret]. *)
Theorem caller_params_are_kept (cfg : config) (params : gmap string json)
    (k : string) :
  (forall v, params !! k = Some v ->
     merged_params cfg (Some params) !! k = Some v)
  /\ (k <> "token"%string -> k <> "access_token"%string -> k <> "secret"%string ->
      merged_params cfg (Some params) !! k = params !! k).
Proof.
  unfold merged_params. change (default ∅ (Some params)) with params. split.
  - intros v Hv.
    destruct (given (TOKEN cfg)); [|destruct (given (SECRET_SHA1 cfg))];
      rewrite ?setdefault_lookup; rewrite Hv; reflexivity.
  - intros H1 H2 H3.
    destruct (given (TOKEN cfg)); [|destruct (given (SECRET_SHA1 cfg))];
      rewrite ?setdefault_lookup; try reflexivity;
      destruct (params !! k); try reflexivity;
      repeat (destruct (decide _) as [<-|]; try congruence).
Qed.

Lemma dedupe_spec (cand : list string) (seen : gset string) (out : list string) :
  exists l,
    dedupe cand seen out = out ++ l
    /\ NoDup l
    /\ (forall p, p ∈ l <-> p ∈ cand /\ p <> EmptyString /\ p ∉ seen)
    /\ sublist l cand
    /\ head l = head (filter (fun p => p <> EmptyString /\ p ∉ seen) cand).
Proof.
  revert seen out. induction cand as [|p rest IH]; intros seen out.
  - exists []. cbn. rewrite app_nil_r. repeat apply conj; auto.
    + constructor.
    + intros p. split; [intros H; inversion H|intros [H _]; inversion H].
  - cbn [dedupe]. destruct (String.eqb_spec p EmptyString) as [He|He]; cbn [negb andb].
    { destruct (IH seen out) as (l & E & Hnd & Hin & Hsub & Hhd). exists l.
      rewrite filter_cons_False by tauto. repeat apply conj; auto.
      - intros q. rewrite Hin, elem_of_cons. split; [tauto|].
        intros ([->|H] & H1 & H2); tauto.
      - apply sublist_cons. exact Hsub. }
    destruct (decide (p ∈ seen)) as [Hs|Hs].
    { rewrite bool_decide_eq_false_2 by tauto.
      destruct (IH seen out) as (l & E & Hnd & Hin & Hsub & Hhd). exists l.
      rewrite filter_cons_False by tauto. repeat apply conj; auto.
      - intros q. rewrite Hin, elem_of_cons. split; [tauto|].
        intros ([->|H] & H1 & H2); tauto.
      - apply sublist_cons. exact Hsub. }
    rewrite bool_decide_eq_true_2 by exact Hs.
    destruct (IH ({[ p ]} ∪ seen) (out ++ [p])) as (l & E & Hnd & Hin & Hsub & Hhd).
    exists (p :: l). rewrite filter_cons_True by tauto. repeat apply conj.
    + rewrite E, <- app_assoc. reflexivity.
    + constructor; [|exact Hnd]. rewrite Hin. set_solver.
    + intros q. rewrite !elem_of_cons, Hin. split.
      * intros [->|(H1 & H2 & H3)]; [tauto|]. set_solver.
      * intros ([->|H1] & H2 & H3); [tauto|].
        destruct (decide (q = p)) as [->|Hq]; [tauto|]. right. set_solver.
    + apply sublist_skip. exact Hsub.
    + reflexivity.
Qed.

(** X5.  [_env_candidates] keeps the first occurrence of every non-empty
    probe result and nothing else: the list has no repetition, holds exactly
    the non-empty directories probed, keeps their order, and starts with
    the first non-empty one. *)
Theorem env_candidates_first_occurrences (cand : list string) :
  NoDup (_env_candidates cand)
  /\ (forall p, p ∈ _env_candidates cand <-> p ∈ cand /\ p <> EmptyString)
  /\ sublist (_env_candidates cand) cand
  /\ head (_env_candidates cand) = head (filter (fun p => p <> EmptyString) cand).
Proof.
  unfold _env_candidates.
  destruct (dedupe_spec cand ∅ []) as (l & E & Hnd & Hin & Hsub & Hhd).
  rewrite E. cbn [app]. repeat apply conj; auto.
  - intros p. rewrite Hin. set_solver.
  - rewrite Hhd. f_equal. apply list_filter_iff. set_solver.
Qed.

Lemma first_existing_spec (join : string -> string -> string)
    (exists_ : string -> bool) (bases : list string) :
  match first_existing join exists_ true bases with
  | Some path =>
      exists pre base post,
        bases = pre ++ base :: post
        /\ path = join base ".env"%string
        /\ exists_ path = true
        /\ forall b, b ∈ pre -> exists_ (join b ".env"%string) = false
  | None => forall b, b ∈ bases -> exists_ (join b ".env"%string) = false
  end.
Proof.
  induction bases as [|base rest IH]; cbn.
  - intros b H. inversion H.
  - destruct (exists_ (join base ".env"%string)) eqn:E.
    + exists [], base, rest. repeat apply conj; auto. intros b H. inversion H.
    + destruct (first_existing join exists_ true rest) as [path|].
      * destruct IH as (pre & b0 & post & -> & -> & He & Hpre).
        exists (base :: pre), b0, post. repeat apply conj; auto.
        intros b [->|H]%elem_of_cons; auto.
      * intros b [->|H]%elem_of_cons; auto.
Qed.

Lemma first_existing_off (join : string -> string -> string)
    (exists_ : string -> bool) (bases : list string) :
  first_existing join exists_ false bases = None.
Proof. induction bases as [|b rest IH]; [reflexivity|exact IH]. Qed.

(** X6.  [_resolve_env_path] returns the [.env] path of the first candidate
    directory in which the file exists; when it exists in none, or when
    existing files are not preferred, the path in the first candidate.  It
    fails (an [IndexError]) only when no probe gave a non-empty directory. *)
Theorem resolve_env_path_first_existing (join : string -> string -> string)
    (exists_ : string -> bool) (cand : list string) :
  match _resolve_env_path join exists_ cand true with
  | Some path =>
      exists pre base post,
        _env_candidates cand = pre ++ base :: post
        /\ path = join base ".env"%string
        /\ (forall b, b ∈ pre -> exists_ (join b ".env"%string) = false)
        /\ (exists_ path = true
            \/ pre = [] /\ forall b, b ∈ post -> exists_ (join b ".env"%string) = false)
  | None => _env_candidates cand = []
  end
  /\ _resolve_env_path join exists_ cand false
     = (fun base => join base ".env"%string) <$> head (_env_candidates cand).
Proof.
  unfold _resolve_env_path. split.
  - pose proof (first_existing_spec join exists_ (_env_candidates cand)) as H.
    destruct (first_existing join exists_ true (_env_candidates cand)) as [path|].
    + destruct H as (pre & base & post & E & -> & He & Hpre).
      exists pre, base, post. auto.
    + destruct (_env_candidates cand) as [|base post]; [reflexivity|].
      exists [], base, post. repeat apply conj; auto.
      * intros b Hb. inversion Hb.
      * right. split; [reflexivity|]. intros b Hb. apply H. right. exact Hb.
  - rewrite first_existing_off. destruct (_env_candidates cand); reflexivity.
Qed.

End NetFacts.

(** * Properties of the status readers *)

Section StatusFacts.

Context `{P : Platform}.

Lemma mapping_same : widget_mapping = mapping.
Proof. reflexivity. Qed.

Lemma mapping_keys (d : string) :
  is_Some (mapping !! d) <->
  d ∈ ["flat"; "fortyfiveup"; "fortyfivedown"; "singleup"; "singledown";
       "doubleup"; "doubledown"; "none"]%string.
Proof.
  unfold mapping. rewrite <- elem_of_dom, dom_list_to_map_L, elem_of_list_to_set.
  reflexivity.
Qed.

(** X7.  The direction text of a reading is looked up without regard to
    letter case, and the two tables agree: on text the table knows the
    dashboard shows its arrow and never consults the slope, and the widget
    shows the same arrow; on any other text the dashboard falls back to the
    slope of the readings and the widget shows nothing.  The text [none], in
    any case, is known and gives the empty arrow, so that it suppresses the
    slope as well. *)
Theorem direction_text_beats_slope (s : string) (entries : list (Z * float)) :
  s <> EmptyString ->
  (forall arrow, mapping !! lower s = Some arrow ->
     direction_arrow_from_text (JStr s) = Some arrow
     /\ current_direction (JStr s) entries = Some arrow
     /\ direction_arrow (JStr s) = Ok arrow)
  /\ (mapping !! lower s = None ->
      current_direction (JStr s) entries = compute_arrow_from_slope entries
      /\ direction_arrow (JStr s) = Ok EmptyString)
  /\ (lower s = "none"%string ->
      current_direction (JStr s) entries = Some EmptyString)
  /\ (is_Some (mapping !! lower s) <->
      lower s ∈ ["flat"; "fortyfiveup"; "fortyfivedown"; "singleup";
                 "singledown"; "doubleup"; "doubledown"; "none"]%string).
Proof.
  intros Hs.
  assert (Ht : truthy (JStr s) = true).
  { cbn. destruct (String.eqb_spec s EmptyString); [contradiction|reflexivity]. }
  assert (Hd : direction_arrow (JStr s)
               = Ok (default EmptyString (mapping !! lower s))).
  { unfold direction_arrow, py_or. rewrite Ht, mapping_same. reflexivity. }
  assert (Hf : direction_arrow_from_text (JStr s) = mapping !! lower s).
  { unfold direction_arrow_from_text. rewrite Ht. reflexivity. }
  unfold current_direction. rewrite Hd, Hf. split; [|split; [|split]].
  - intros arrow ->. auto.
  - intros ->. auto.
  - intros ->. reflexivity.
  - apply mapping_keys.
Qed.

Lemma head_insert_desc (x : Z * record) (l : list (Z * record)) :
  head (insert_desc x l)
  = Some match head l with
         | Some y => if y.1 <=? x.1 then x else y
         | None => x
         end.
Proof. destruct l as [|y l]; cbn; [reflexivity|]. destruct (y.1 <=? x.1); reflexivity. Qed.

(** The head of a stable descending sort is the first of the items with
    the greatest key. *)
Lemma head_sorted_desc (l : list (Z * record)) :
  match head (sorted_desc l) with
  | Some kx =>
      exists pre post,
        l = pre ++ kx :: post
        /\ (forall y, y ∈ pre -> y.1 < kx.1)
        /\ (forall y, y ∈ post -> y.1 <= kx.1)
  | None => l = []
  end.
Proof.
  induction l as [|a l IH]; [reflexivity|].
  cbn [sorted_desc foldr]. fold (sorted_desc l). rewrite head_insert_desc.
  destruct (head (sorted_desc l)) as [kx|].
  - destruct IH as (pre & post & -> & Hpre & Hpost).
    destruct (Z.leb_spec kx.1 a.1) as [Hle|Hlt].
    + exists [], (pre ++ kx :: post). repeat apply conj; [reflexivity| |].
      * intros y Hy. inversion Hy.
      * intros y [Hy|[->|Hy]%elem_of_cons]%elem_of_app.
        -- specialize (Hpre y Hy). lia.
        -- exact Hle.
        -- specialize (Hpost y Hy). lia.
    + exists (a :: pre), post. repeat apply conj; [reflexivity| |exact Hpost].
      intros y [->|Hy]%elem_of_cons; [exact Hlt|auto].
  - subst l. exists [], []. repeat apply conj; [reflexivity| |];
      intros y Hy; inversion Hy.
Qed.

Lemma keyed_spec (items : list record) :
  match keyed items with
  | Ok ks => ks.*2 = items /\ forall kx, kx ∈ ks -> _ts kx.2 = Ok kx.1
  | Raise e => exists y, y ∈ items /\ _ts y = Raise e
  end.
Proof.
  induction items as [|x items IH]; cbn.
  - split; [reflexivity|]. intros kx H. inversion H.
  - destruct (_ts x) as [k|e] eqn:Ek; cbn.
    2:{ exists x. split; [left|exact Ek]. }
    destruct (keyed items) as [ks|e]; cbn.
    + destruct IH as [<- Hks]. split; [reflexivity|].
      intros kx [->|H]%elem_of_cons; [exact Ek|auto].
    + destruct IH as (y & Hy & Ey). exists y. split; [right; exact Hy|exact Ey].
Qed.

(** X8.  [latest_devicestatus] returns the status with the latest instant,
    and of several with that instant the one that comes first in the
    response; it returns [None] only for an empty response, and raises only
    when the epoch field of some status cannot be converted.  A status
    without any of the five time fields counts as of 1970. *)
Theorem latest_devicestatus_first_newest (items : list record) :
  match latest_devicestatus items with
  | Ok None => items = []
  | Ok (Some x) =>
      exists pre post k,
        items = pre ++ x :: post
        /\ _ts x = Ok k
        /\ (forall y, y ∈ pre -> exists ky, _ts y = Ok ky /\ ky < k)
        /\ (forall y, y ∈ post -> exists ky, _ts y = Ok ky /\ ky <= k)
  | Raise e => exists y, y ∈ items /\ _ts y = Raise e
  end
  /\ forall x : record,
       (forall f, f ∈ ["created_at"; "dateString"; "timestamp"; "mills"; "date"]%string ->
                  x !! f = None) ->
       _ts x = Ok 0.
Proof.
  split.
  - unfold latest_devicestatus. destruct items as [|x0 items0]; [reflexivity|].
    set (items := x0 :: items0) in *.
    pose proof (keyed_spec items) as Hk. destruct (keyed items) as [ks|e]; [|exact Hk].
    destruct Hk as [Hitems Hks]. cbn [mbind result_bind].
    pose proof (head_sorted_desc ks) as Hh.
    destruct (head (sorted_desc ks)) as [[k x]|]; cbn [fmap option_fmap option_map].
    + destruct Hh as (pre & post & -> & Hpre & Hpost).
      exists pre.*2, post.*2, k. repeat apply conj.
      * rewrite <- Hitems, fmap_app. reflexivity.
      * apply (Hks (k, x)). apply elem_of_app. right. left.
      * intros y [[ky y'] [-> Hy]]%list_elem_of_fmap. exists ky. split.
        -- apply (Hks (ky, y')). apply elem_of_app. left. exact Hy.
        -- exact (Hpre _ Hy).
      * intros y [[ky y'] [-> Hy]]%list_elem_of_fmap. exists ky. split.
        -- apply (Hks (ky, y')). apply elem_of_app. right. right. exact Hy.
        -- exact (Hpost _ Hy).
    + subst ks. discriminate Hitems.
  - intros x Hx. unfold _ts, get.
    rewrite !Hx by (repeat first [left; fail | right]; repeat constructor).
    reflexivity.
Qed.



Lemma first_age_app (c1 c2 : list (result Z)) (found : option Z) :
  first_age (c1 ++ c2) found = first_age c1 found ≫= first_age c2.
Proof.
  destruct found as [a|]; [destruct c1; reflexivity|].
  destruct c1 as [|[a|e] c1]; reflexivity.
Qed.

Lemma first_age_nil (found : option Z) : first_age [] found = Ok found.
Proof. destruct found; reflexivity. Qed.

Lemma foldl_first_age {A} (step : result (option Z) -> A -> result (option Z))
    (cand : A -> list (result Z)) (l : list A) :
  (forall acc x, x ∈ l -> step acc x = acc ≫= first_age (cand x)) ->
  forall acc, foldl step acc l = acc ≫= first_age (l ≫= cand).
Proof.
  induction l as [|x l IH]; intros Hstep acc.
  - cbn. destruct acc as [[a|]|e]; reflexivity.
  - cbn [foldl]. rewrite IH by (intros; apply Hstep; right; assumption).
    rewrite Hstep by left. change ((x :: l) ≫= cand) with (cand x ++ (l ≫= cand)).
    destruct acc as [found|e]; [|reflexivity]. cbn [mbind result_bind].
    rewrite first_age_app. reflexivity.
Qed.

(** The search is the first candidate in the order of the traversal. *)
Lemma extract_ages_first (levels : nat) (obj : ojson) (found : option Z) :
  _extract_ages levels obj found = first_age (age_candidates levels obj) found.
Proof.
  revert obj found. induction levels as [|below IH]; intros obj found.
  - cbn. rewrite first_age_nil. reflexivity.
  - destruct obj as [|b|z|f|s|l|d]; cbn [_extract_ages age_candidates];
      try (rewrite first_age_nil; reflexivity).
    + rewrite (foldl_first_age _ (age_candidates below)); [reflexivity|].
      intros [acc|e] x _; [|reflexivity]. cbn [mbind result_bind]. apply IH.
    + erewrite foldl_first_age; [reflexivity|].
      intros [acc|e] kv _; [|reflexivity]. cbn [mbind result_bind].
      destruct (int_of_number (coerce kv.2)) as [age|] eqn:En.
      * assert (Hc : match coerce kv.2 with ODict _ | OList _ => False | _ => True end).
        { destruct (coerce kv.2); cbn in En; try discriminate; exact I. }
        destruct acc as [a|].
        -- cbn [mbind result_bind]. destruct (coerce kv.2); try contradiction;
             destruct (age_key kv.1); reflexivity.
        -- destruct (age_key kv.1).
           ++ destruct age as [a|e]; cbn [mbind result_bind first_age];
                [|reflexivity]. destruct (coerce kv.2); try contradiction; reflexivity.
           ++ cbn [mbind result_bind]. destruct (coerce kv.2); try contradiction;
                reflexivity.
      * assert (Hf : (match acc, @None (result Z) with
                      | None, Some age => if age_key kv.1 then a ← age; Ok (Some a) else Ok acc
                      | _, _ => Ok acc
                      end) = Ok acc) by (destruct acc; reflexivity).
        rewrite Hf. cbn [mbind result_bind].
        destruct (coerce kv.2); try apply IH; rewrite first_age_nil; reflexivity.
Qed.

(** X10.  The sensor age read from a device status is the first member,
    in document order and pre-order, at most six containers deep, whose key
    is [sage] or [sensorage] in any letter case and whose value is a number
    or text that [float] accepts once its commas are dots; later matches are
    ignored.  When [int] refuses that first value (NaN or an infinity) the
    search ends and no age is reported at all. *)
Theorem sensor_age_is_first_match (latest : ojson) :
  sensor_age_of latest = match age_candidates 7 latest with
                         | Ok age :: _ => Some age
                         | _ => None
                         end
  /\ (forall levels obj age, _extract_ages levels obj (Some age) = Ok (Some age))
  /\ (forall k v rest age,
        age_key k = true -> int_of_number (coerce v) = Some age ->
        sensor_age_of (ODict ((k, v) :: rest)) = ok age).
Proof.
  split; [|split].
  - unfold sensor_age_of. rewrite extract_ages_first.
    destruct (age_candidates 7 latest) as [|[a|e] c]; reflexivity.
  - intros levels obj age. rewrite extract_ages_first.
    destruct (age_candidates levels obj); reflexivity.
  - intros k v rest age Hk Hv. unfold sensor_age_of. rewrite extract_ages_first.
    cbn [age_candidates]. change (((k, v) :: rest) ≫= ?f) with (f (k, v) ++ (rest ≫= f)).
    cbn [fst snd]. rewrite Hv, Hk. destruct age; reflexivity.
Qed.

Lemma comprehension_spec (segs : list json) (acc : gmap Z float) :
  match comprehension acc segs with
  | Some plan =>
      exists kvs,
        Forall2 (fun s kv => segment s = Some kv) segs kvs
        /\ plan = foldl (fun m kv => <[ kv.1 := kv.2 ]> m) acc kvs
  | None => exists s, s ∈ segs /\ segment s = None
  end.
Proof.
  revert acc. induction segs as [|s segs IH]; intros acc; cbn.
  - exists []. split; [constructor|reflexivity].
  - destruct (segment s) as [kv|] eqn:Es; cbn.
    2:{ exists s. split; [left|exact Es]. }
    specialize (IH (<[ kv.1 := kv.2 ]> acc)).
    destruct (comprehension _ segs) as [plan|].
    + destruct IH as (kvs & Hf & ->). exists (kv :: kvs). split; [|reflexivity].
      constructor; assumption.
    + destruct IH as (s' & Hin & Hs'). exists s'. split; [right; exact Hin|exact Hs'].
Qed.

(** In a dict built by successive stores the last store to a key stays. *)
Lemma foldl_insert_lookup (kvs : list (Z * float)) (k : Z) (v : float) :
  foldl (fun m kv => <[ kv.1 := kv.2 ]> m) (∅ : gmap Z float) kvs !! k = Some v
  <-> exists pre post, kvs = pre ++ (k, v) :: post /\ k ∉ post.*1.
Proof.
  revert v. induction kvs as [|[k' v'] kvs IH] using rev_ind; intros v.
  - cbn. rewrite lookup_empty. split; [discriminate|].
    intros (pre & post & H & _). destruct pre; discriminate.
  - rewrite foldl_app. cbn [foldl fst snd]. destruct (decide (k' = k)) as [->|Hk].
    + rewrite lookup_insert_eq. split.
      * intros [= ->]. exists kvs, []. split; [reflexivity|]. cbn. apply not_elem_of_nil.
      * intros (pre & post & H & Hn).
        destruct post as [|x post _] using rev_ind.
        -- apply app_inj_tail in H as [_ [= ->]]. reflexivity.
        -- exfalso. rewrite app_comm_cons, app_assoc in H.
           apply app_inj_tail in H as [_ <-]. apply Hn.
           rewrite fmap_app. apply elem_of_app. right. left.
    + rewrite lookup_insert_ne by exact Hk. rewrite IH. split.
      * intros (pre & post & -> & Hn). exists pre, (post ++ [(k', v')]). split.
        -- rewrite <- app_assoc. reflexivity.
        -- rewrite fmap_app. intros [H|H]%elem_of_app; [contradiction|].
           apply list_elem_of_singleton in H. cbn in H. congruence.
      * intros (pre & post & H & Hn).
        destruct post as [|x post _] using rev_ind.
        -- apply app_inj_tail in H as [_ [= -> _]]. contradiction.
        -- rewrite app_comm_cons, app_assoc in H.
           apply app_inj_tail in H as [-> <-]. exists pre, post. split; [reflexivity|].
           intros Hin. apply Hn. rewrite fmap_app. apply elem_of_app. left. exact Hin.
Qed.

(** X11.  [plan_basal_from_profile] reads the [basal] list of the default
    profile into a dict from start second to rate in which, of several
    segments with the same start, the last one in the list stays.  It
    raises when a key or a conversion fails.  On its result the plan lookup
    finds a rate at every instant unless the list is empty. *)
Theorem plan_from_profile_last_segment_wins (prof : record) :
  match plan_basal_from_profile prof with
  | Some plan =>
      exists store segs items kvs,
        default_store prof = Some store
        /\ getitem store (JStr "basal") = Some segs
        /\ iter_of segs = Some items
        /\ Forall2 (fun s kv => segment s = Some kv) items kvs
        /\ (forall k v, plan !! k = Some v
                        <-> exists pre post, kvs = pre ++ (k, v) :: post /\ k ∉ post.*1)
        /\ (forall t, current_plan_basal plan t = None <-> items = [])
  | None =>
      default_store prof = None
      \/ exists store, default_store prof = Some store
         /\ (getitem store (JStr "basal") = None
             \/ exists segs, getitem store (JStr "basal") = Some segs
                /\ (iter_of segs = None
                    \/ exists items, iter_of segs = Some items
                       /\ exists s, s ∈ items /\ segment s = None))
  end.
Proof.
  unfold plan_basal_from_profile.
  destruct (default_store prof) as [store|]; cbn [mbind option_bind]; [|left; reflexivity].
  destruct (getitem store (JStr "basal")) as [segs|] eqn:Eg; cbn [mbind option_bind].
  2:{ right. exists store. auto. }
  destruct (iter_of segs) as [items|] eqn:Ei; cbn [mbind option_bind].
  2:{ right. exists store. split; [reflexivity|]. right. exists segs. auto. }
  pose proof (comprehension_spec items ∅) as Hc.
  destruct (comprehension ∅ items) as [plan|].
  2:{ right. exists store. split; [reflexivity|]. right. exists segs.
      split; [exact Eg|]. right. exists items. auto. }
  destruct Hc as (kvs & Hf & ->). exists store, segs, items, kvs.
  repeat apply conj; try reflexivity; try assumption.
  - intros k v. apply foldl_insert_lookup.
  - intros t. split.
    + intros Hn. destruct kvs as [|kv kvs _] using rev_ind.
      { inversion Hf. reflexivity. }
      exfalso. rewrite foldl_app in Hn. cbn [foldl] in Hn.
      set (plan := <[ kv.1 := kv.2 ]> _) in Hn.
      assert (Hne : dom plan <> ∅).
      { intros He. assert (kv.1 ∈ dom plan) as Hin by (apply elem_of_dom; unfold plan;
          rewrite lookup_insert_eq; eauto). rewrite He in Hin.
        exact (not_elem_of_empty _ Hin). }
      destruct (current_plan_basal_cases plan t Hne)
        as [(k & Hin & _ & _ & Heq)|(k & Hin & _ & Heq)];
        apply elem_of_dom in Hin as [r Hr]; congruence.
    + intros ->. inversion Hf. subst. reflexivity.
Qed.

Lemma get_lookup (t : record) (k : string) (v : json) :
  t !! k = Some v -> get t k = v.
Proof. unfold get. intros ->. reflexivity. Qed.

Lemma get_missing (t : record) (k : string) : t !! k = None -> get t k = JNull.
Proof. unfold get. intros ->. reflexivity. Qed.

(** X12.  [target_range_from_profile] on a default profile that is an
    object.  With [target_low] and [target_high] lists headed by floats it
    returns those two, divided by 18.01559 when the lowered [units] text is
    [mg/dl] or [mgdl] and as they are otherwise; a profile without [units]
    counts as mg/dL.  With no high bound anywhere ([target_high],
    [targetUpper] and [target] absent) it returns the defaults 3.9 and 10.0
    whatever the low bound is: the two bounds are never mixed with a
    default. *)
Theorem target_range_units_and_defaults (prof store : record) :
  default_store prof = Some (JDict store) ->
  (forall lo hi l1 l2,
     store !! "target_low"%string = Some (JList (JFloat lo :: l1)) ->
     store !! "target_high"%string = Some (JList (JFloat hi :: l2)) ->
     target_range_from_profile prof
     = (if bool_decide (lower (str_of (default (JStr "mg/dL") (store !! "units"%string)))
                        ∈ ["mg/dl"; "mgdl"]%string)
        then (lo / 18.01559, hi / 18.01559) else (lo, hi))%float
     /\ (store !! "units"%string = None ->
         target_range_from_profile prof = (lo / 18.01559, hi / 18.01559)%float))
  /\ (store !! "target_high"%string = None ->
      store !! "targetUpper"%string = None ->
      store !! "target"%string = None ->
      target_range_from_profile prof = (3.9, 10.0)%float).
Proof.
  intros Hs. split.
  - intros lo hi l1 l2 Hlo Hhi.
    assert (Hr : target_range_from_profile prof
     = (if bool_decide (lower (str_of (default (JStr "mg/dL") (store !! "units"%string)))
                        ∈ ["mg/dl"; "mgdl"]%string)
        then (lo / 18.01559, hi / 18.01559) else (lo, hi))%float).
    { unfold target_range_from_profile, profile_targets. rewrite Hs.
      cbn [mbind option_bind].
      rewrite (get_lookup _ _ _ Hlo), (get_lookup _ _ _ Hhi).
      cbn [py_or truthy first_value is_none orb andb mbind option_bind is_number].
      destruct (bool_decide _); reflexivity. }
    split; [exact Hr|]. intros Hu. rewrite Hr, Hu. reflexivity.
  - intros H1 H2 H3. unfold target_range_from_profile, profile_targets. rewrite Hs.
    cbn [mbind option_bind].
    rewrite (get_missing _ _ H1), (get_missing _ _ H2), (get_missing _ _ H3).
    cbn [py_or truthy first_value is_none orb andb mbind option_bind is_number].
    rewrite andb_false_r. cbn [mbind option_bind]. rewrite andb_false_r. reflexivity.
Qed.

Lemma div_mod_hours (mins : Z) :
  0 <= mins ->
  let d := mins `div` 1440 in
  let h := (mins `mod` 1440) `div` 60 in
  0 <= d /\ 0 <= h < 24 /\ d * 1440 + h * 60 <= mins < d * 1440 + h * 60 + 60.
Proof.
  intros Hm d h. subst d h.
  pose proof (Z.div_mod mins 1440 ltac:(lia)) as H1.
  pose proof (Z.mod_pos_bound mins 1440 ltac:(lia)) as H2.
  pose proof (Z.div_mod (mins `mod` 1440) 60 ltac:(lia)) as H3.
  pose proof (Z.mod_pos_bound (mins `mod` 1440) 60 ltac:(lia)) as H4.
  assert (0 <= mins `div` 1440) by (apply Z.div_pos; lia).
  assert (0 <= (mins `mod` 1440) `div` 60) by (apply Z.div_pos; lia).
  assert ((mins `mod` 1440) `div` 60 < 24) by (apply Z.div_lt_upper_bound; lia).
  lia.
Qed.

(** X13.  [_fmt_age] shows an age in minutes rounded down to whole hours:
    the text names [d] days and [h] hours with [h] below 24 and the age at
    least [d] days [h] hours and less than one hour more, the days left out
    when there are none.  A negative age, like a missing one, gives no
    text. *)
Theorem fmt_age_whole_hours (mins : Z) :
  match _fmt_age (Some mins) with
  | Some text =>
      exists d h,
        0 <= d /\ 0 <= h < 24
        /\ d * 1440 + h * 60 <= mins < d * 1440 + h * 60 + 60
        /\ text = (if 1 <=? d then pretty d +:+ "d " +:+ pretty h +:+ "h"
                   else pretty h +:+ "h")
  | None => mins < 0
  end
  /\ _fmt_age None = None.
Proof.
  split; [|reflexivity]. unfold _fmt_age. destruct (Z.ltb_spec mins 0) as [Hn|Hp];
    [exact Hn|].
  destruct (div_mod_hours mins Hp) as (Hd & Hh & Hm).
  destruct (1 <=? mins `div` 1440) eqn:E;
    exists (mins `div` 1440), ((mins `mod` 1440) `div` 60); rewrite E; auto.
Qed.

End StatusFacts.


Lemma direction_text_beats_slope_witness :
  current_direction (P := utc_host) (JStr "NONE") rising_readings = Some EmptyString
  /\ compute_arrow_from_slope (P := utc_host) rising_readings = Some "↑"%string.
Proof.
  split; [|vm_compute; reflexivity].
  destruct (@direction_text_beats_slope utc_host "NONE"%string rising_readings)
    as (_ & _ & H & _); [discriminate|].
  apply H. reflexivity.
Defined.

Lemma target_range_units_and_defaults_witness :
  target_range_from_profile (P := utc_host) sample_profile
  = (72 / 18.01559, 180 / 18.01559)%float.
Proof.
  destruct (@target_range_units_and_defaults utc_host sample_profile sample_store)
    as [H _]; [reflexivity|].
  apply (H 72%float 180%float [] []); reflexivity.
Defined.

(** * Further properties of the basal series *)

Section BasalOverlays.

Context `{P : Platform}.

Lemma outside_window (tp : temp) (start end_ t : Z) :
  duration tp ≤ 0 \/ end_ < t_start tp \/ t_start tp + duration tp * MINUTE ≤ start ->
  t ∈ date_range start end_ -> in_window tp t = false.
Proof.
  intros H Ht. apply elem_of_date_range in Ht as (k & Hk & -> & Hle).
  apply not_true_is_false. rewrite in_window_iff. unfold MINUTE in *. lia.
Qed.

(** X14.  An overlay whose window holds no minute of the series is
    ignored, wherever it stands in the list, as long as pandas computes its
    end: one whose duration is zero or negative (as [split_events] builds it
    from a temp-basal record without [duration]), one that starts after
    [end_], and one that ends at or before [start].  A series returned with
    it is returned without it, and a series returned without it is returned
    with it unless the computation of its end raises.  The planned rate of a
    row never depends on the overlays. *)
Theorem overlay_without_minutes_is_ignored (plan : gmap Z float)
    (before after : list temp) (tp : temp) (start end_ : Z) :
  duration tp ≤ 0 \/ end_ < t_start tp \/ t_start tp + duration tp * MINUTE ≤ start ->
  (forall rows,
     build_basal_series plan (before ++ tp :: after) start end_ = Ok rows ->
     build_basal_series plan (before ++ after) start end_ = Ok rows
     /\ plan_u_per_h <$> rows = plan_at plan <$> date_range start end_)
  /\ (forall rows,
        timedelta_fault (t_start tp) (duration tp) = None ->
        build_basal_series plan (before ++ after) start end_ = Ok rows ->
        build_basal_series plan (before ++ tp :: after) start end_ = Ok rows)
  /\ (forall e,
        timedelta_fault (t_start tp) (duration tp) = Some e ->
        exists e', build_basal_series plan (before ++ tp :: after) start end_
                   = Raise e').
Proof.
  intros H.
  assert (Hsame : row_at plan (before ++ tp :: after) <$> date_range start end_
                  = row_at plan (before ++ after) <$> date_range start end_).
  { apply list_fmap_ext. intros i t Hi.
    pose proof (outside_window tp start end_ t H (list_elem_of_lookup_2 _ _ _ Hi)) as Hw.
    assert (He : forall a, overlay_rate (plan_at plan t) t a tp = a)
      by (intros a; unfold overlay_rate; rewrite Hw; reflexivity).
    unfold row_at, actual_at. rewrite !foldl_app. cbn [foldl].
    rewrite He. reflexivity. }
  split; [|split].
  - intros rows Hr.
    pose proof (build_basal_series_cases plan (before ++ tp :: after) start end_) as Hc.
    rewrite Hr in Hc. destruct Hc as (-> & Hd & Hall). split.
    + rewrite Hsame. apply build_basal_series_returns; [exact Hd|].
      rewrite Forall_app, Forall_cons in Hall. rewrite Forall_app. tauto.
    + rewrite <- list_fmap_compose. apply list_fmap_ext. intros i t _. reflexivity.
  - intros rows Hn Hr.
    pose proof (build_basal_series_cases plan (before ++ after) start end_) as Hc.
    rewrite Hr in Hc. destruct Hc as (-> & Hd & Hall).
    rewrite <- Hsame. apply build_basal_series_returns; [exact Hd|].
    rewrite Forall_app in Hall. rewrite Forall_app, Forall_cons. tauto.
  - intros e He.
    pose proof (build_basal_series_cases plan (before ++ tp :: after) start end_) as Hc.
    destruct (build_basal_series plan (before ++ tp :: after) start end_) as [rows|e'];
      [|eauto].
    exfalso. destruct Hc as (_ & _ & Hall).
    rewrite Forall_app, Forall_cons in Hall. destruct Hall as (_ & Hn & _). congruence.
Qed.

End BasalOverlays.

(** A cancelling record, of duration zero, between two overlays. *)
Lemma overlay_without_minutes_is_ignored_witness :
  exists rows,
    build_basal_series (P := utc_host) flat_plan
      ([low_temp] ++ {| t_start := T0 + 10 * MINUTE; duration := 0;
                        percent := PrimFloat.nan; absolute := 0 |} :: [bare_temp])
      T0 (T0 + 60 * MINUTE) = Ok rows
    /\ build_basal_series (P := utc_host) flat_plan ([low_temp] ++ [bare_temp])
         T0 (T0 + 60 * MINUTE) = Ok rows.
Proof.
  eexists. split; [vm_compute; reflexivity|].
  destruct (@overlay_without_minutes_is_ignored utc_host flat_plan [low_temp]
              [bare_temp]
              {| t_start := T0 + 10 * MINUTE; duration := 0;
                 percent := PrimFloat.nan; absolute := 0 |} T0 (T0 + 60 * MINUTE))
    as [H _]; [left; cbn; lia|].
  refine (proj1 (H _ _)). vm_compute. reflexivity.
Defined.

(** * Further properties of the classifier *)

Section Batches.

Context `{P : Platform}.

Lemma join_no_events_r (a : buckets) : join_buckets a no_events = a.
Proof. destruct a. unfold join_buckets. cbn. rewrite !app_nil_r. reflexivity. Qed.

Lemma join_buckets_assoc (a b c : buckets) :
  join_buckets (join_buckets a b) c = join_buckets a (join_buckets b c).
Proof. unfold join_buckets. cbn. rewrite !app_assoc. reflexivity. Qed.

Lemma temp_branch_join (acc : buckets) (t : record) (ts : Z) :
  temp_branch acc t ts = d ← temp_branch no_events t ts; Ok (join_buckets acc d).
Proof.
  unfold temp_branch.
  destruct (match t !! "duration"%string with None => Ok 0 | Some v => py_int v end)
    as [d|]; [|reflexivity].
  destruct (float_or_nan (get t "percent")) as [p|]; [|reflexivity].
  destruct (float_or_nan (get t "absolute")) as [a|]; [|reflexivity].
  destruct acc. cbn. unfold add_temp, join_buckets. cbn. rewrite !app_nil_r. reflexivity.
Qed.

Lemma carbs_part_join (acc : buckets) (t : record) (ts : Z) :
  carbs_part acc t ts = d ← carbs_part no_events t ts; Ok (join_buckets acc d).
Proof.
  unfold carbs_part. destruct (_ && _).
  - destruct (py_float _) as [g|]; [|reflexivity].
    destruct acc. cbn. unfold add_carb, join_buckets. cbn. rewrite !app_nil_r. reflexivity.
  - cbn. rewrite join_no_events_r. reflexivity.
Qed.

Lemma bolus_part_join (acc : buckets) (t : record) (ts : Z) (et t_type : string)
    (tags : list string) :
  bolus_part acc t ts et t_type tags
  = d ← bolus_part no_events t ts et t_type tags; Ok (join_buckets acc d).
Proof.
  unfold bolus_part. destruct (find_units t DOSE_KEYS) as [[u|]|]; cbn;
    [|rewrite join_no_events_r; reflexivity|reflexivity].
  destruct (positive_dose u); [|cbn; rewrite join_no_events_r; reflexivity].
  destruct acc, (smb_marked et t_type tags); cbn;
    unfold add_mini, add_big, join_buckets; cbn; rewrite !app_nil_r; reflexivity.
Qed.

(** The body only appends to the buckets it is given. *)
Lemma split_step_join (acc : buckets) (t : record) :
  split_step acc t = d ← split_step no_events t; Ok (join_buckets acc d).
Proof.
  unfold split_step.
  destruct (event_type t) as [et|]; [|reflexivity].
  destruct (explicit_type t) as [ty|]; [|reflexivity].
  destruct (tag_list t) as [tags|]; [|reflexivity].
  destruct (treatment_ts t) as [[ts|]|]; cbn [mbind result_bind];
    [|rewrite join_no_events_r; reflexivity|reflexivity].
  destruct (String.eqb et "temp basal"); [apply temp_branch_join|].
  rewrite carbs_part_join.
  destruct (carbs_part no_events t ts) as [c|]; cbn [mbind result_bind]; [|reflexivity].
  rewrite (bolus_part_join (join_buckets acc c)), (bolus_part_join c).
  destruct (bolus_part no_events t ts et ty tags) as [b|]; cbn [mbind result_bind];
    [|reflexivity].
  rewrite join_buckets_assoc. reflexivity.
Qed.

Lemma split_loop_join (acc : buckets) (l : list record) :
  split_loop acc l = d ← split_loop no_events l; Ok (join_buckets acc d).
Proof.
  revert acc. induction l as [|t l IH]; intros acc; cbn [split_loop].
  - cbn. rewrite join_no_events_r. reflexivity.
  - rewrite split_step_join.
    destruct (split_step no_events t) as [d1|]; cbn [mbind result_bind]; [|reflexivity].
    rewrite (IH (join_buckets acc d1)), (IH d1).
    destruct (split_loop no_events l) as [d|]; cbn [mbind result_bind]; [|reflexivity].
    rewrite join_buckets_assoc. reflexivity.
Qed.

(** X15.  [split_events] classifies each record on its own: the events of
    two responses one after the other are the events of the first followed,
    bucket by bucket, by the events of the second, and a fault in the first
    is the fault of the whole. *)
Theorem split_events_of_concatenation (l1 l2 : list record) :
  split_events (l1 ++ l2)
  = b1 ← split_events l1; b2 ← split_events l2; Ok (join_buckets b1 b2).
Proof.
  unfold split_events. rewrite split_loop_app.
  destruct (split_loop no_events l1) as [b1|]; cbn [mbind result_bind]; [|reflexivity].
  apply split_loop_join.
Qed.

Lemma split_step_events (t : record) (d : buckets) :
  split_step no_events t = Ok d -> events_of [t] d.
Proof.
  unfold split_step, events_of.
  destruct (event_type t) as [et|]; [|discriminate].
  destruct (explicit_type t) as [ty|]; [|discriminate].
  destruct (tag_list t) as [tags|]; [|discriminate].
  destruct (treatment_ts t) as [[ts|]|] eqn:Ets; cbn [mbind result_bind];
    [| |discriminate].
  2:{ intros [= <-]. cbn. repeat apply conj; auto. }
  assert (Hts : exists t', t' ∈ [t] /\ treatment_ts t' = Ok (Some ts))
    by (exists t; split; [left|exact Ets]).
  destruct (String.eqb et "temp basal").
  - unfold temp_branch.
    destruct (match t !! "duration"%string with None => Ok 0 | Some v => py_int v end)
      as [dur|]; [|discriminate].
    destruct (float_or_nan (get t "percent")) as [p|]; [|discriminate].
    destruct (float_or_nan (get t "absolute")) as [a|]; [|discriminate].
    intros [= <-]. cbn. repeat apply conj; auto.
  - unfold carbs_part, bolus_part.
    destruct (_ && _); [destruct (py_float _) as [g|]; [|discriminate]|];
      cbn [mbind result_bind];
      (destruct (find_units t DOSE_KEYS) as [[u|]|]; cbn [mbind result_bind];
       [|intros [= <-]; cbn; repeat apply conj; auto|discriminate]);
      (destruct (positive_dose u) eqn:Ep;
       [|intros [= <-]; cbn; repeat apply conj; auto]);
      rewrite positive_dose_gt0 in Ep;
      destruct (smb_marked et ty tags); intros [= <-]; cbn;
      repeat apply conj; auto.
Qed.

Lemma events_of_join (l1 l2 : list record) (b1 b2 : buckets) :
  events_of l1 b1 -> events_of l2 b2 -> events_of (l1 ++ l2) (join_buckets b1 b2).
Proof.
  unfold events_of. intros (A1 & A2 & A3 & A4 & A5 & A6) (B1 & B2 & B3 & B4 & B5 & B6).
  cbn [join_buckets bolus_big bolus_mini carbs temps]. rewrite !length_app.
  assert (Hl : forall ts, (exists t, t ∈ l1 /\ treatment_ts t = Ok (Some ts)) ->
                          exists t, t ∈ l1 ++ l2 /\ treatment_ts t = Ok (Some ts)).
  { intros ts (t & Hin & Ht). exists t. rewrite elem_of_app. auto. }
  assert (Hr : forall ts, (exists t, t ∈ l2 /\ treatment_ts t = Ok (Some ts)) ->
                          exists t, t ∈ l1 ++ l2 /\ treatment_ts t = Ok (Some ts)).
  { intros ts (t & Hin & Ht). exists t. rewrite elem_of_app. auto. }
  repeat apply conj; try lia; apply Forall_app; split;
    (eapply Forall_impl; [eassumption|]); cbn beta; intros x; intuition auto.
Qed.

Lemma split_loop_events (l : list record) (b : buckets) :
  split_loop no_events l = Ok b -> events_of l b.
Proof.
  revert b. induction l as [|t l IH]; intros b; cbn [split_loop].
  - intros [= <-]. unfold events_of. cbn. repeat apply conj; auto.
  - rewrite split_step_join.
    destruct (split_step no_events t) as [d1|] eqn:E1; cbn [mbind result_bind];
      [|discriminate].
    rewrite split_loop_join.
    destruct (split_loop no_events l) as [d|]; cbn [mbind result_bind]; [|discriminate].
    intros [= <-]. change (t :: l) with ([t] ++ l).
    rewrite join_buckets_assoc.
    replace (join_buckets no_events (join_buckets d1 d)) with (join_buckets d1 d)
      by (unfold join_buckets; reflexivity).
    apply events_of_join; [apply split_step_events, E1|apply IH; reflexivity].
Qed.

(** X16.  Every event [split_events] returns comes from a record of the
    response: it carries the instant that record resolves to; a bolus has a
    dose above zero and lies in [bolus_mini] exactly when it is marked SMB;
    and the events are no more than the records can give, each record giving
    at most one temp basal, or else at most one bolus and at most one
    meal. *)
Theorem split_events_come_from_records (l : list record) (b : buckets) :
  split_events l = Ok b ->
  Forall (fun x => is_smb x = false /\ PrimFloat.ltb 0 (b_units x) = true
                   /\ exists t, t ∈ l /\ treatment_ts t = Ok (Some (b_time x)))
         (bolus_big b)
  /\ Forall (fun x => is_smb x = true /\ PrimFloat.ltb 0 (b_units x) = true
                      /\ exists t, t ∈ l /\ treatment_ts t = Ok (Some (b_time x)))
            (bolus_mini b)
  /\ Forall (fun x => exists t, t ∈ l /\ treatment_ts t = Ok (Some (c_time x)))
            (carbs b)
  /\ Forall (fun x => exists t, t ∈ l /\ treatment_ts t = Ok (Some (t_start x)))
            (temps b)
  /\ (length (temps b) + length (bolus_big b) + length (bolus_mini b) <= length l)%nat
  /\ (length (temps b) + length (carbs b) <= length l)%nat.
Proof. apply split_loop_events. Qed.

End Batches.

(** * Further properties of the entries reader *)

Section Entries.

Context `{P : Platform}.

Lemma entry_loop_kept (data : list record) (rows0 rows : list entry_row) :
  entry_loop rows0 data = Ok rows ->
  exists kept new,
    rows = rows0 ++ new
    /\ sublist kept data
    /\ Forall2 (fun e r =>
                  let val := py_or (py_or (get e "sgv") (get e "mbg")) (get e "glucose") in
                  is_number val = true
                  /\ py_float val = Ok (mgdl r)
                  /\ entry_ts e = Ok (Some (e_time r))
                  /\ direction r = get e "direction")
               kept new.
Proof.
  revert rows0. induction data as [|e data IH]; intros rows0; cbn [entry_loop].
  - intros [= <-]. exists [], []. rewrite app_nil_r. repeat apply conj; constructor.
  - unfold entry_step at 1.
    set (val := py_or (py_or (get e "sgv") (get e "mbg")) (get e "glucose")).
    destruct (is_number val) eqn:Hn; cbn [negb].
    2:{ cbn [mbind result_bind]. intros H. destruct (IH _ H) as (kept & new & -> & Hs & Hf).
        exists kept, new. repeat apply conj; auto. apply sublist_cons. exact Hs. }
    destruct (entry_ts e) as [[ts|]|] eqn:Ets; cbn [mbind result_bind]; [| |discriminate].
    2:{ intros H. destruct (IH _ H) as (kept & new & -> & Hs & Hf).
        exists kept, new. repeat apply conj; auto. apply sublist_cons. exact Hs. }
    destruct (py_float val) as [m|] eqn:Em; cbn [mbind result_bind]; [|discriminate].
    intros H. destruct (IH _ H) as (kept & new & -> & Hs & Hf).
    exists (e :: kept),
      ({| e_time := ts; mgdl := m; direction := get e "direction" |} :: new).
    repeat apply conj.
    + rewrite <- app_assoc. reflexivity.
    + apply sublist_skip. exact Hs.
    + constructor; [|exact Hf]. cbn. fold val. auto.
Qed.

Lemma kept_rows_from_entries (data kept : list record) (rows : list entry_row) :
  sublist kept data ->
  Forall2 (fun e r =>
             let val := py_or (py_or (get e "sgv") (get e "mbg")) (get e "glucose") in
             is_number val = true
             /\ py_float val = Ok (mgdl r)
             /\ entry_ts e = Ok (Some (e_time r))
             /\ direction r = get e "direction")
          kept rows ->
  Forall (fun r =>
            exists e, e ∈ data
              /\ (let val := py_or (py_or (get e "sgv") (get e "mbg")) (get e "glucose") in
                  is_number val = true
                  /\ py_float val = Ok (mgdl r)
                  /\ entry_ts e = Ok (Some (e_time r))
                  /\ direction r = get e "direction"))
         rows.
Proof.
  intros Hs Hf. induction Hf as [|e r kept rows Her _ IH]; [constructor|].
  constructor.
  - exists e. split; [|exact Her].
    apply (elem_of_sublist (e :: kept)); [left|exact Hs].
  - apply IH. etrans; [|exact Hs]. apply sublist_cons. reflexivity.
Qed.

(** X17.  The frame [fetch_entries] returns, for a [sort_values] that
    permutes its rows into ascending order.  Every row comes from an entry
    of the response: it holds the instant the entry resolves to, the
    entry's [direction], as [mgdl] the float of the first of [sgv], [mbg],
    [glucose] that is truthy, which is a number and not NaN, and as [mmol]
    that value divided by 18.01559 and rounded to one decimal.  The rows
    are in order of time, whatever the order of the response, and are no
    more than the entries.  An [sgv] of 0 is not truthy, so that such an
    entry is read from [mbg]. *)
Theorem fetch_entries_frame_rows (data : list record) (frame : list frame_row) :
  (forall l, sort_values entry_row e_time l ≡ₚ l) ->
  (forall l, Sorted Z.le (e_time <$> sort_values entry_row e_time l)) ->
  fetch_entries data = Ok frame ->
  Forall (fun r =>
            PrimFloat.is_nan (f_mgdl r) = false
            /\ mmol r = round1 (f_mgdl r / 18.01559)
            /\ exists e, e ∈ data
                 /\ (let val := py_or (py_or (get e "sgv") (get e "mbg"))
                                      (get e "glucose") in
                     is_number val = true
                     /\ py_float val = Ok (f_mgdl r)
                     /\ entry_ts e = Ok (Some (f_time r))
                     /\ f_direction r = get e "direction"))
         frame
  /\ Sorted Z.le (f_time <$> frame)
  /\ (length frame <= length data)%nat
  /\ forall e : record,
       e !! "sgv"%string = Some (JInt 0) ->
       py_or (py_or (get e "sgv") (get e "mbg")) (get e "glucose")
       = py_or (get e "mbg") (get e "glucose").
Proof.
  intros Hperm Hsorted. unfold fetch_entries.
  destruct (entry_loop [] data) as [rows|] eqn:E; cbn [mbind result_bind];
    [|discriminate].
  intros [= <-].
  destruct (entry_loop_kept data [] rows E) as (kept & new & -> & Hs & Hf).
  cbn [app] in *.
  pose proof (kept_rows_from_entries data kept new Hs Hf) as Hrows.
  assert (Hlen : (length new <= length data)%nat).
  { rewrite <- (Forall2_length _ _ _ Hf). apply sublist_length, Hs. }
  assert (Hsgv : forall e : record,
             e !! "sgv"%string = Some (JInt 0) ->
             py_or (py_or (get e "sgv") (get e "mbg")) (get e "glucose")
             = py_or (get e "mbg") (get e "glucose")).
  { intros e He. unfold get at 1. rewrite He. reflexivity. }
  unfold frame_of. destruct new as [|r0 new0]; [repeat apply conj; auto; constructor|].
  set (rows := r0 :: new0) in *.
  set (kept_rows := filter (fun r => PrimFloat.is_nan (mgdl r) = false) rows).
  repeat apply conj; [| | |exact Hsgv].
  - rewrite Forall_fmap. apply Forall_forall. intros r Hr.
    rewrite (Hperm kept_rows) in Hr. apply list_elem_of_filter in Hr as [Hnan Hr].
    rewrite Forall_forall in Hrows. cbn.
    split; [exact Hnan|]. split; [reflexivity|]. apply Hrows, Hr.
  - rewrite <- list_fmap_compose. apply Hsorted.
  - rewrite length_fmap, (Hperm kept_rows). etrans; [apply length_filter|exact Hlen].
Qed.

End Entries.

(** The host's sort is one. *)
Lemma insert_by_perm {A} (key : A -> Z) (x : A) (l : list A) :
  Host.insert_by key x l ≡ₚ x :: l.
Proof.
  induction l as [|y l IH]; cbn; [reflexivity|].
  destruct (key x <=? key y); [reflexivity|]. rewrite IH. apply Permutation_swap.
Qed.

Lemma host_sort_perm {A} (key : A -> Z) (l : list A) :
  Host.sort_values A key l ≡ₚ l.
Proof.
  induction l as [|x l IH]; cbn; [reflexivity|].
  rewrite insert_by_perm. f_equiv. exact IH.
Qed.

Lemma insert_by_sorted {A} (key : A -> Z) (x : A) (l : list A) :
  Sorted Z.le (key <$> l) -> Sorted Z.le (key <$> Host.insert_by key x l).
Proof.
  induction l as [|y l IH]; cbn; intros Hs.
  - repeat constructor.
  - destruct (Z.leb_spec (key x) (key y)) as [Hle|Hgt]; cbn.
    + constructor; [exact Hs|]. constructor. exact Hle.
    + apply Sorted_inv in Hs as [Hs Hhd]. constructor; [apply IH, Hs|].
      destruct l as [|z l]; cbn.
      * constructor. lia.
      * destruct (key x <=? key z); cbn; constructor; [lia|].
        inversion Hhd. assumption.
Qed.

Lemma host_sort_sorted {A} (key : A -> Z) (l : list A) :
  Sorted Z.le (key <$> Host.sort_values A key l).
Proof.
  induction l as [|x l IH]; cbn; [constructor|]. apply insert_by_sorted, IH.
Qed.

(** Two entries in reverse order of time: the frame has them in order. *)
Lemma fetch_entries_frame_rows_witness :
  exists frame,
    fetch_entries (P := utc_host) [sample_entry; earlier_entry] = Ok frame
    /\ f_time <$> frame = [T0 - 5 * MINUTE; T0]
    /\ Sorted Z.le (f_time <$> frame).
Proof.
  eexists. split; [vm_compute; reflexivity|]. split; [vm_compute; reflexivity|].
  refine (proj1 (proj2 (@fetch_entries_frame_rows utc_host
                          [sample_entry; earlier_entry] _ _ _ _))).
  - intros l. apply host_sort_perm.
  - intros l. apply host_sort_sorted.
  - vm_compute. reflexivity.
Defined.

Lemma split_events_come_from_records_witness :
  exists b,
    split_events (P := utc_host) [meal; smb_dose] = Ok b
    /\ events_of (P := utc_host) [meal; smb_dose] b.
Proof.
  eexists. split; [vm_compute; reflexivity|].
  apply (@split_events_come_from_records utc_host). vm_compute. reflexivity.
Defined.

(** * Doses that are not a number *)

Section NanDose.

Context `{P : Platform}.

Lemma SFeqb_refl_not_nan (x : spec_float) :
  SFeqb x x = false -> x = S754_nan.
Proof.
  destruct x as [s|s| |s m e]; try reflexivity; unfold SFeqb, SFcompare.
  - discriminate.
  - destruct s; discriminate.
  - destruct s; rewrite Z.compare_refl, ?Pos.compare_cont_refl, ?Pos.compare_refl;
      cbn; discriminate.
Qed.

Lemma is_nan_spec (x : float) :
  PrimFloat.is_nan x = true <-> Prim2SF x = S754_nan.
Proof.
  unfold PrimFloat.is_nan. rewrite negb_true_iff, FloatAxioms.eqb_spec. split.
  - apply SFeqb_refl_not_nan.
  - intros ->. reflexivity.
Qed.

Lemma is_nan_mul_l (x y : float) :
  PrimFloat.is_nan x = true -> PrimFloat.is_nan (x * y) = true.
Proof.
  rewrite !is_nan_spec, FloatAxioms.mul_spec. intros ->. reflexivity.
Qed.

Lemma is_nan_add_l (x y : float) :
  PrimFloat.is_nan x = true -> PrimFloat.is_nan (x + y) = true.
Proof.
  rewrite !is_nan_spec, FloatAxioms.add_spec. intros ->. reflexivity.
Qed.

Lemma is_nan_add_r (x y : float) :
  PrimFloat.is_nan y = true -> PrimFloat.is_nan (x + y) = true.
Proof.
  rewrite !is_nan_spec, FloatAxioms.add_spec. intros ->.
  destruct (Prim2SF x) as [[]|[]| |[]]; reflexivity.
Qed.

Lemma is_nan_not_le (x y : float) :
  PrimFloat.is_nan x = true -> PrimFloat.leb x y = false /\ PrimFloat.ltb y x = false.
Proof.
  rewrite is_nan_spec, FloatAxioms.leb_spec, FloatAxioms.ltb_spec. intros ->. split.
  - reflexivity.
  - destruct (Prim2SF y) as [[]|[]| |[]]; reflexivity.
Qed.

(** A sum that is not a number stays so. *)
Lemma iob_step_keeps_nan (now : Z) (total r : float) (t : record) :
  PrimFloat.is_nan total = true -> iob_step now total t = Ok r ->
  PrimFloat.is_nan r = true.
Proof.
  intros Hn. unfold iob_step, iob_add.
  destruct (units_of t) as [[u|]|]; cbn [mbind result_bind]; [| |discriminate].
  2:{ intros [= <-]. exact Hn. }
  destruct (PrimFloat.leb u 0); [intros [= <-]; exact Hn|].
  destruct (treatment_ts t) as [[ts|]|]; cbn [mbind result_bind]; [| |discriminate].
  2:{ intros [= <-]. exact Hn. }
  destruct (_ && _); intros [= <-]; [apply is_nan_add_l|]; exact Hn.
Qed.

Lemma iob_loop_keeps_nan (now : Z) (l : list record) (total r : float) :
  PrimFloat.is_nan total = true -> iob_loop (iob_step now) total l = Ok r ->
  PrimFloat.is_nan r = true.
Proof.
  revert total. induction l as [|t l IH]; intros total Hn; cbn [iob_loop].
  - intros [= <-]. exact Hn.
  - destruct (iob_step now total t) as [total'|] eqn:E; cbn [mbind result_bind];
      [|discriminate].
    apply IH. exact (iob_step_keeps_nan now total total' t Hn E).
Qed.

(** X18.  A treatment whose dose is NaN (which [json] and [float] both
    accept) is not skipped by the fallback IOB, whose guard [u <= 0] is
    false for it: given within the last 300 minutes it turns the running
    sum into NaN, and the sum stays NaN to the end of the list, whatever
    follows.  The classifier, whose guard is [units > 0], drops the same
    dose. *)
Theorem nan_dose_makes_fallback_iob_nan (now : Z) (t : record) (u : float) (ts : Z)
    (before after : list record) (total r : float) :
  find_units t DOSE_KEYS = Ok (Some u) -> PrimFloat.is_nan u = true ->
  treatment_ts t = Ok (Some ts) ->
  PrimFloat.leb 0 (age_minutes now ts) = true ->
  PrimFloat.leb (age_minutes now ts) 300 = true ->
  fallback_bolus_iob now before = Ok total ->
  (fallback_bolus_iob now (before ++ t :: after) = Ok r -> PrimFloat.is_nan r = true)
  /\ (exists r', fallback_bolus_iob now (before ++ [t]) = Ok r'
                 /\ PrimFloat.is_nan r' = true)
  /\ (forall acc et t_type tags,
        bolus_part acc t ts et t_type tags = Ok acc).
Proof.
  intros Hu Hn Hts H0 H300 Hb.
  assert (Hunits : units_of t = Ok (Some u)) by (unfold units_of; rewrite Hu; reflexivity).
  destruct (is_nan_not_le u 0 Hn) as [Hle Hlt].
  assert (Hstep : iob_step now total t
                  = Ok (total + u * float_pow 0.5 (age_minutes now ts / 60))%float).
  { rewrite (iob_step_read now total t u ts Hunits Hts), Hle.
    unfold DIA_MINUTES, T_HALF. rewrite H0, H300. reflexivity. }
  assert (Hr : PrimFloat.is_nan (total + u * float_pow 0.5 (age_minutes now ts / 60))
               = true) by (apply is_nan_add_r, is_nan_mul_l, Hn).
  repeat apply conj.
  - unfold fallback_bolus_iob in *. rewrite iob_loop_app, Hb.
    cbn [mbind result_bind iob_loop]. rewrite Hstep. cbn [mbind result_bind].
    apply iob_loop_keeps_nan, Hr.
  - eexists. split; [|exact Hr].
    unfold fallback_bolus_iob in *. rewrite iob_loop_app, Hb.
    cbn [mbind result_bind iob_loop]. rewrite Hstep. reflexivity.
  - intros acc et t_type tags. unfold bolus_part. rewrite Hu. cbn [mbind result_bind].
    rewrite positive_dose_gt0, Hlt. reflexivity.
Qed.

End NanDose.

Lemma nan_dose_makes_fallback_iob_nan_witness :
  exists r,
    fallback_bolus_iob (P := utc_host) (T0 + 60 * MINUTE) ([one_unit] ++ [nan_dose]) = Ok r
    /\ PrimFloat.is_nan r = true.
Proof.
  destruct (@nan_dose_makes_fallback_iob_nan utc_host (T0 + 60 * MINUTE) nan_dose
              PrimFloat.nan T0 [one_unit] [] 0.5%float 0%float)
    as (_ & H & _); [vm_compute; reflexivity ..|exact H].
Defined.

(** * Properties of the label placement *)

Section Labels.

Context {A : Type}.

Lemma enumerate_fst (l : list A) (start : Z) :
  (enumerate start l).*1 = seqZ start (Z.of_nat (length l)).
Proof.
  revert start. induction l as [|x l IH]; intros start; [reflexivity|].
  cbn [enumerate fmap list_fmap fst length]. rewrite IH.
  rewrite Nat2Z.inj_succ, (seqZ_cons start), Z.pred_succ by lia. reflexivity.
Qed.

Lemma enumerate_snd (l : list A) (start : Z) : (enumerate start l).*2 = l.
Proof.
  revert start. induction l as [|x l IH]; intros start; [reflexivity|].
  cbn [enumerate fmap list_fmap snd]. rewrite IH. reflexivity.
Qed.

Lemma stack_injective : Inj (=) (=) (fun k : Z => -10 - k * 12).
Proof. intros x y H. lia. Qed.

Lemma row_glu_spec (bg_df : list (Z * float)) (ts : Z) :
  match row_glu bg_df ts with
  | Some r =>
      exists before after,
        bg_df = before ++ r :: after /\ r.1 ≤ ts
        /\ Forall (fun r' => ts < r'.1) after
  | None => Forall (fun r' => ts < r'.1) bg_df
  end.
Proof.
  unfold row_glu. induction bg_df as [|x l IH] using rev_ind.
  - cbn. constructor.
  - rewrite filter_app. destruct (decide (x.1 ≤ ts)) as [Hx|Hx].
    + rewrite (filter_cons_True _ x []) by exact Hx. cbn [filter list_filter].
      rewrite last_snoc. exists l, []. repeat apply conj; auto.
    + rewrite (filter_cons_False _ x []) by exact Hx.
      change (filter (fun r => r.1 ≤ ts) []) with (@nil (Z * float)).
      rewrite app_nil_r.
      destruct (last (filter (fun r => r.1 ≤ ts) l)) as [r|].
      * destruct IH as (before & after & -> & Hr & Ha).
        exists before, (after ++ [x]). repeat apply conj.
        -- rewrite <- app_assoc. reflexivity.
        -- exact Hr.
        -- apply Forall_app. split; [exact Ha|]. constructor; [lia|constructor].
      * apply Forall_app. split; [exact IH|]. constructor; [lia|constructor].
Qed.

(** X19.  The labels of the events of one instant.  Every event gets one
    label, boluses first.  Placed below, the labels hang at -10, -22, -34,
    ... points in that order, so that no two share a place.  Placed above,
    the meals hang at -10, -22, ... but every bolus sits at +8: two boluses
    of one instant are drawn on the same spot.  Only a bolus placed above
    has an offset above zero, which is what asks for headroom.  The labels
    are anchored at the last reading of the frame that is not later than
    the instant, and a group with no such reading is left out. *)
Theorem labels_of_one_instant (above : bool) (bolus_entries carb_entries : list A) :
  let plan := annotations_plan above bolus_entries carb_entries in
  plan.*1.*1 = bolus_entries ++ carb_entries
  /\ (above = false ->
      plan.*1.*2 = (fun k => -10 - k * 12)
                     <$> seqZ 0 (Z.of_nat (length bolus_entries + length carb_entries))
      /\ NoDup plan.*1.*2)
  /\ (above = true ->
      plan.*1.*2 = replicate (length bolus_entries) 8
                   ++ ((fun k => -10 - k * 12) <$> seqZ 0 (Z.of_nat (length carb_entries)))
      /\ (NoDup plan.*1.*2 <-> (length bolus_entries <= 1)%nat))
  /\ (forall item off is_bolus,
        (item, off, is_bolus) ∈ plan -> (0 < off <-> above = true /\ is_bolus = true))
  /\ (forall bg_df ts,
        match row_glu bg_df ts with
        | Some r =>
            exists before after,
              bg_df = before ++ r :: after /\ r.1 ≤ ts
              /\ Forall (fun r' => ts < r'.1) after
        | None => Forall (fun r' => ts < r'.1) bg_df
        end).
Proof.
  cbv zeta.
  assert (Hcs : forall s : Z,
            ((fun jc : Z * A => (jc.2, -10 - (s + jc.1) * 12, false))
               <$> enumerate 0 carb_entries).*1.*2
            = (fun k => -10 - k * 12) <$> seqZ s (Z.of_nat (length carb_entries))).
  { intros s.
    replace (seqZ s (Z.of_nat (length carb_entries)))
      with (Z.add s <$> seqZ 0 (Z.of_nat (length carb_entries)))
      by (rewrite fmap_add_seqZ; f_equal; lia).
    rewrite <- enumerate_fst, <- !list_fmap_compose.
    apply list_fmap_ext. intros i [j c] _. reflexivity. }
  assert (Hbs : ((fun ib : Z * A => (ib.2, -10 - ib.1 * 12, true))
                   <$> enumerate 0 bolus_entries).*1.*2
                = (fun k => -10 - k * 12) <$> seqZ 0 (Z.of_nat (length bolus_entries))).
  { rewrite <- enumerate_fst, <- !list_fmap_compose.
    apply list_fmap_ext. intros i [j c] _. reflexivity. }
  assert (Hc0 : ((fun ic : Z * A => (ic.2, -10 - ic.1 * 12, false))
                   <$> enumerate 0 carb_entries).*1.*2
                = (fun k => -10 - k * 12) <$> seqZ 0 (Z.of_nat (length carb_entries))).
  { rewrite <- enumerate_fst, <- !list_fmap_compose.
    apply list_fmap_ext. intros i [j c] _. reflexivity. }
  split; [|split; [|split; [|split]]].
  - unfold annotations_plan. destruct above; rewrite !fmap_app, <- !list_fmap_compose.
    + f_equal; [apply list_fmap_id|].
      rewrite <- (enumerate_snd carb_entries 0) at 2. apply list_fmap_ext.
      intros i [j c] _. reflexivity.
    + f_equal.
      * rewrite <- (enumerate_snd bolus_entries 0) at 2. apply list_fmap_ext.
        intros i [j c] _. reflexivity.
      * rewrite <- (enumerate_snd carb_entries 0) at 2. apply list_fmap_ext.
        intros i [j c] _. reflexivity.
  - intros ->. unfold annotations_plan. cbv zeta.
    assert (E : (((fun ib : Z * A => (ib.2, -10 - ib.1 * 12, true))
                    <$> enumerate 0 bolus_entries)
                 ++ ((fun jc : Z * A =>
                        (jc.2, -10 - (Z.of_nat (length bolus_entries) + jc.1) * 12, false))
                       <$> enumerate 0 carb_entries)).*1.*2
                = (fun k => -10 - k * 12)
                    <$> seqZ 0 (Z.of_nat (length bolus_entries + length carb_entries))).
    { rewrite !fmap_app, Hbs, Hcs, Nat2Z.inj_add, seqZ_app by lia.
      rewrite fmap_app. reflexivity. }
    rewrite E. split; [reflexivity|].
    apply (NoDup_fmap_2 _ (Inj0 := stack_injective)), NoDup_seqZ.
  - intros ->. unfold annotations_plan.
    assert (E : (((fun b : A => (b, 8, true)) <$> bolus_entries)
                 ++ ((fun ic : Z * A => (ic.2, -10 - ic.1 * 12, false))
                       <$> enumerate 0 carb_entries)).*1.*2
                = replicate (length bolus_entries) 8
                  ++ ((fun k => -10 - k * 12) <$> seqZ 0 (Z.of_nat (length carb_entries)))).
    { rewrite !fmap_app, Hc0. f_equal. rewrite <- !list_fmap_compose.
      clear. induction bolus_entries as [|b l IH]; [reflexivity|].
      cbn. f_equal. exact IH. }
    rewrite E. split; [reflexivity|]. rewrite NoDup_app. split.
    + intros (Hnd & _ & _). destruct bolus_entries as [|b1 [|b2 l]]; cbn; try lia.
      exfalso. cbn in Hnd. inversion Hnd as [|? ? Hn _]. apply Hn. left.
    + intros Hl. repeat apply conj.
      * destruct bolus_entries as [|b1 [|b2 l]]; cbn in *; try lia.
        -- constructor.
        -- constructor; [apply not_elem_of_nil|constructor].
      * intros x Hx [k [-> Hk]]%list_elem_of_fmap.
        apply elem_of_replicate in Hx as [Hx _]. apply elem_of_seqZ in Hk. lia.
      * apply (NoDup_fmap_2 _ (Inj0 := stack_injective)), NoDup_seqZ.
  - intros item off is_bolus. unfold annotations_plan. destruct above.
    + intros [H|H]%elem_of_app; apply list_elem_of_fmap in H as [x [[= -> -> ->] Hx]].
      * split; [auto|lia].
      * assert (0 <= x.1).
        { apply (list_elem_of_fmap_2 fst) in Hx. rewrite enumerate_fst in Hx.
          apply elem_of_seqZ in Hx. lia. }
        split; [lia|intros [_ [=]]].
    + intros [H|H]%elem_of_app; apply list_elem_of_fmap in H as [x [[= -> -> ->] Hx]];
        assert (0 <= x.1)
          by (apply (list_elem_of_fmap_2 fst) in Hx; rewrite enumerate_fst in Hx;
              apply elem_of_seqZ in Hx; lia);
        (split; [lia|intros [[=] _]]).
  - apply row_glu_spec.
Qed.

End Labels.

(** * Properties of the age texts *)

(** X20.  The sensor age of the widget and of the dashboard.  For an age
    that is not negative the widget's fragment is [Sensor] followed by the
    text [_fmt_age] gives the dashboard.  For a negative age the dashboard
    shows nothing, while the widget, which does not test the sign, shows a
    number of hours between 0 and 23. *)
Theorem sensor_fragment_and_fmt_age (mins : Z) :
  (0 <= mins ->
   exists text, _fmt_age (Some mins) = Some text
                /\ sensor_frag mins = "Sensor " +:+ text)
  /\ (mins < 0 ->
      _fmt_age (Some mins) = None
      /\ exists h, 0 <= h < 24 /\ sensor_frag mins = "Sensor " +:+ pretty h +:+ "h").
Proof.
  unfold _fmt_age, sensor_frag. split.
  - intros Hm. destruct (Z.ltb_spec mins 0) as [?|_]; [lia|].
    destruct (1 <=? mins `div` 1440); eexists; split; reflexivity.
  - intros Hm. destruct (Z.ltb_spec mins 0) as [_|?]; [|lia].
    split; [reflexivity|].
    assert (Hd : mins `div` 1440 < 0) by (apply Z.div_lt_upper_bound; lia).
    destruct (Z.leb_spec 1 (mins `div` 1440)) as [?|_]; [lia|].
    exists ((mins `mod` 1440) `div` 60). split; [|reflexivity].
    pose proof (Z.mod_pos_bound mins 1440 ltac:(lia)).
    split; [apply Z.div_pos; lia|apply Z.div_lt_upper_bound; lia].
Qed.

Lemma sensor_fragment_and_fmt_age_witness :
  _fmt_age (Some (-30)) = None /\ sensor_frag (-30) = "Sensor 23h"%string
  /\ exists text, _fmt_age (Some 1500) = Some text
                  /\ sensor_frag 1500 = "Sensor " +:+ text.
Proof.
  split; [reflexivity|]. split; [vm_compute; reflexivity|].
  apply (sensor_fragment_and_fmt_age 1500). lia.
Defined.

Lemma total_seconds_negative (d : Z) :
  - 2 ^ 63 < d < 0 -> PrimFloat.ltb 0 (total_seconds d) = false.
Proof.
  intros H. unfold total_seconds.
  rewrite FloatAxioms.ltb_spec, FloatAxioms.div_spec.
  match goal with
  | |- SFltb _ ?x = false => assert (Hs : signed_above true (1 - 20) x)
  end.
  { apply (SFdiv_signed_above true 1 _ 8589934592000000 (-33));
      [|unfold emin64; cbn; lia].
    apply float_of_Z_negative. exact H. }
  destruct Hs as [->|(m & e & -> & _)]; reflexivity.
Qed.

Lemma int_of_float_positive (x : float) (secs : Z) :
  PrimFloat.ltb 0 x = true -> int_of_float x = Ok secs -> 0 <= secs.
Proof.
  rewrite FloatAxioms.ltb_spec. unfold int_of_float.
  destruct (Prim2SF x) as [s|s| |s m e]; try discriminate.
  destruct s; [discriminate|]. intros _ [= <-].
  destruct e as [|p|p].
  - apply Z.shiftl_nonneg. lia.
  - apply Z.shiftl_nonneg. lia.
  - apply Z.shiftr_nonneg. lia.
Qed.

(** X21.  [_format_age] never shows a negative age.  A reading stamped
    after the clock reading shows as [vor 0 min]; a missing instant gives the
    empty text; and every other text names a number of hours that is at
    least 1, or a number of minutes between 0 and 59. *)
Theorem format_age_is_never_negative (now : Z) :
  (forall ts, now < ts < now + 2 ^ 63 ->
     _format_age now (Some ts) = "vor 0 min"%string)
  /\ _format_age now None = EmptyString
  /\ (forall ts,
        _format_age now ts = EmptyString
        \/ (exists hours, 1 <= hours
                          /\ _format_age now ts = "vor " +:+ pretty hours +:+ " h")
        \/ (exists mins, 0 <= mins < 60
                         /\ _format_age now ts = "vor " +:+ pretty mins +:+ " min")).
Proof.
  split; [|split; [reflexivity|]].
  - intros ts H. unfold _format_age, int_max0.
    rewrite total_seconds_negative by lia. vm_compute. reflexivity.
  - intros [ts|]; [|left; reflexivity]. unfold _format_age, int_max0.
    destruct (PrimFloat.ltb 0 (total_seconds (now - ts))) eqn:E.
    + destruct (int_of_float (total_seconds (now - ts))) as [secs|] eqn:Ei;
        [|left; reflexivity].
      pose proof (int_of_float_positive _ _ E Ei) as Hs. right.
      assert (0 <= secs `div` 60) by (apply Z.div_pos; lia).
      destruct (Z.leb_spec 1 ((secs `div` 60) `div` 60)) as [Hh|Hh].
      * left. eexists. split; [exact Hh|reflexivity].
      * right. exists (secs `div` 60). split; [|reflexivity].
        split; [assumption|].
        destruct (Z.lt_ge_cases (secs `div` 60) 60) as [?|Hge]; [assumption|].
        assert (1 <= (secs `div` 60) `div` 60) by (apply Z.div_le_lower_bound; lia). lia.
    + right. right. exists 0. split; [lia|]. vm_compute. reflexivity.
Qed.
